(** * mesai_takip_web: the local-first data layer

    A shallow embedding of the data layer of the salary / overtime / leave
    tracking application:

    - [ErrorHandler]   utils/errorHandler.ts (error taxonomy and its lookup table)
    - [Supabase]       the remote tables the entity services talk to
    - [SalaryService], [OvertimeService], [LeaveService], [UserService]
                       database/services/*.ts
    - [NanoDataContext] contexts/NanoDataContext.tsx (reducer and store operations)
    - [NanoDatabase]   database/browserDatabase.ts (IndexedDB adapter)
    - [Logger]         utils/logger.ts
    - [DemoData]       the demo records of database/browserDatabase.ts
    - [Retry], [ErrorReport]
                       utils/errorHandler.ts (retries, user messages, global handler)

    Conventions.  JavaScript numbers that hold amounts, hours, months and
    years are integers ([Z]); [NaN] is [None] where it can arise.  A
    [Promise] that rejects and a synchronous [throw] are both [Throw].
    Asynchronous calls are run to completion one after the other. *)

From Stdlib Require Import Ascii DecimalString.
From stdpp Require Import gmap strings list fin_maps sorting pretty.

Open Scope string_scope.
Open Scope Z_scope.

(** ** Exceptions and results *)

(** The [error] member of a [{ data, error }] reply of the backend client. *)
Record PostgrestError := { pg_code : string; pg_message : string }.

Inductive exn :=
| BackendError (e : PostgrestError)   (* [throw error] of a reply's error object *)
| JsError (msg : string)              (* [new Error(msg)], [TypeError] *)
| DOMException (name : string).       (* failures of the browser database *)

Inductive Result (A : Type) :=
| Ok (a : A)
| Throw (e : exn).
Arguments Ok {A} a.
Arguments Throw {A} e.

Definition is_ok {A} (r : Result A) : bool :=
  match r with
  | Ok _ => true
  | Throw _ => false
  end.

(** ** State and exception monad

    [M S A] is a computation over a mutable world [S] that returns an [A]
    or throws.  State changes made before a throw are kept, as in
    JavaScript. *)

Definition M (S A : Type) : Type := S -> Result A * S.

Definition ret {S A} (a : A) : M S A := fun s => (Ok a, s).

Definition throw {S A} (e : exn) : M S A := fun s => (Throw e, s).

Definition bind {S A B} (m : M S A) (k : A -> M S B) : M S B :=
  fun s =>
    match m s with
    | (Ok a, s') => k a s'
    | (Throw e, s') => (Throw e, s')
    end.

(** [try { body } catch (error) { handler }] *)
Definition try_catch {S A} (body : M S A) (handler : exn -> M S A) : M S A :=
  fun s =>
    match body s with
    | (Ok a, s') => (Ok a, s')
    | (Throw e, s') => handler e s'
    end.

Definition gets {S A} (f : S -> A) : M S A := fun s => (Ok (f s), s).

Definition modify {S} (f : S -> S) : M S unit := fun s => (Ok tt, f s).

Notation "'let*' x := m 'in' k" := (bind m (fun x => k))
  (at level 10, x pattern, m at level 200, k at level 200).

Notation "m ;;; k" := (bind m (fun _ => k))
  (at level 100, right associativity).

(** ** JavaScript truthiness of the values the services test *)

(** [if (v)] for an optional number: [undefined] and [0] are falsy. *)
Definition truthy_num (v : option Z) : bool :=
  match v with
  | Some z => negb (z =? 0)
  | None => false
  end.

(** [if (v)] for an optional string: [undefined] and [''] are falsy. *)
Definition truthy_str (v : option string) : bool :=
  match v with
  | Some s => negb (String.eqb s "")
  | None => false
  end.

(** [v || d] for a nullable number. *)
Definition num_or (v : option Z) (d : Z) : Z :=
  if truthy_num v then default d v else d.

(** [v || d] for a nullable string. *)
Definition str_or (v : option string) (d : string) : string :=
  if truthy_str v then default d v else d.

(** The value kept by a guard [if (v) target = v]: the write happens only
    for a truthy [v]. *)
Definition when_truthy_num (v : option Z) : option Z :=
  if truthy_num v then v else None.

Definition when_truthy_str (v : option string) : option string :=
  if truthy_str v then v else None.

(** ** utils/errorHandler.ts *)

Module ErrorHandler.

Inductive ErrorType :=
| NETWORK
| VALIDATION
| AUTHENTICATION
| AUTHORIZATION
| NOT_FOUND
| SERVER_ERROR
| UNKNOWN.

#[global] Instance ErrorType_eq_dec : EqDecision ErrorType.
Proof. solve_decision. Defined.

(** The own properties of the object literal [errorMap]. *)
Definition errorMap : gmap string ErrorType :=
  list_to_map
    [ ("PGRST116", NOT_FOUND);
      ("PGRST301", AUTHENTICATION);
      ("23505", VALIDATION);
      ("23503", VALIDATION);
      ("42P01", NOT_FOUND);
      ("42501", AUTHORIZATION);
      ("network-request-failed", NETWORK);
      ("invalid-email", VALIDATION);
      ("weak-password", VALIDATION);
      ("user-not-found", AUTHENTICATION);
      ("wrong-password", AUTHENTICATION);
      ("email-already-in-use", VALIDATION);
      ("too-many-requests", AUTHENTICATION);
      ("user-disabled", AUTHORIZATION);
      ("permission-denied", AUTHORIZATION);
      ("not-found", NOT_FOUND);
      ("unavailable", NETWORK);
      ("deadline-exceeded", NETWORK);
      ("resource-exhausted", SERVER_ERROR);
      ("failed-precondition", VALIDATION);
      ("aborted", SERVER_ERROR);
      ("out-of-range", VALIDATION);
      ("unimplemented", SERVER_ERROR);
      ("internal", SERVER_ERROR);
      ("data-loss", SERVER_ERROR) ].

(** [errorMap] is written as an object literal, so its prototype is
    [Object.prototype]: a property read [errorMap[k]] that finds no own
    property continues there.  These are the property names of
    [Object.prototype]; each holds a function or an object. *)
Definition objectPrototype : list string :=
  [ "constructor"; "hasOwnProperty"; "isPrototypeOf";
    "propertyIsEnumerable"; "toLocaleString"; "toString"; "valueOf";
    "__defineGetter__"; "__defineSetter__"; "__lookupGetter__";
    "__lookupSetter__"; "__proto__" ].

(** The result of a property read [o[k]] on an object literal. *)
Inductive Property (A : Type) :=
| Own (a : A)
| Inherited (name : string)
| Undefined.
Arguments Own {A} a.
Arguments Inherited {A} name.
Arguments Undefined {A}.

Definition get_property {A} (o : gmap string A) (k : string) : Property A :=
  match o !! k with
  | Some a => Own a
  | None => if bool_decide (k ∈ objectPrototype) then Inherited k else Undefined
  end.

(** What [mapSupabaseError] hands back at run time: a member of the
    taxonomy, or the member of [Object.prototype] the read found. *)
Inductive Classification :=
| Classified (t : ErrorType)
| PrototypeMember (name : string).

#[global] Instance Classification_eq_dec : EqDecision Classification.
Proof. solve_decision. Defined.

(** [return errorMap[errorCode] || ErrorType.UNKNOWN]: every member of
    the taxonomy is a non-empty string and every member of
    [Object.prototype] is a function or an object, so both are truthy;
    only [undefined] takes the right operand. *)
Definition mapSupabaseError (errorCode : string) : Classification :=
  match get_property errorMap errorCode with
  | Own t => Classified t
  | Inherited name => PrototypeMember name
  | Undefined => Classified UNKNOWN
  end.

(** The error values [classifyError] inspects: [error?.code] and
    [error?.message]. *)
Record ErrorLike := { code : option string; message : option string }.

Section ClassifyError.

(** [String.prototype.toLowerCase] and [String.prototype.includes]. *)
Variable toLowerCase : string -> string.
Variable includes : string -> string -> bool.

Definition classifyError (error : ErrorLike) : Classification :=
  if truthy_str (code error) then mapSupabaseError (default "" (code error))
  else
    if truthy_str (message error) then
      let message := toLowerCase (default "" (message error)) in
      if includes message "network" || includes message "connection"
      then Classified NETWORK
      else if includes message "validation" || includes message "invalid"
      then Classified VALIDATION
      else if includes message "auth" || includes message "login"
      then Classified AUTHENTICATION
      else if includes message "permission" || includes message "unauthorized"
      then Classified AUTHORIZATION
      else if includes message "not found" || includes message "404"
      then Classified NOT_FOUND
      else Classified UNKNOWN
    else Classified UNKNOWN.

End ClassifyError.

End ErrorHandler.

(** ** The internal (camelCase) entity shapes

    The records carry the fields the services build; [types/index.ts],
    which declares them, is not modelled. *)

Module User.
Record t := {
  id : string;
  email : string;
  name : string;
  employeeType : string;
  startDate : string;
  createdAt : string;
  updatedAt : string }.
End User.

Module Salary.
Record t := {
  id : string;
  userId : string;
  month : string;
  year : string;
  grossSalary : Z;
  netSalary : Z;
  baseSalary : Z;
  overtimePay : Z;
  bonus : Z;
  besDeduction : Z;
  paymentDate : string;
  created_at : string }.
End Salary.

Module Overtime.
Record t := {
  id : string;
  userId : string;
  date : string;
  hours : Z;
  description : string;
  status : string;
  hourlyRate : Z;
  totalPayment : Z;
  created_at : string }.
End Overtime.

Module Leave.
Record t := {
  id : string;
  userId : string;
  startDate : string;
  endDate : string;
  type : string;
  status : string;
  reason : string;
  leaveType : string;
  daysUsed : Z;
  created_at : string }.
End Leave.

(** ** The remote backend

    The services reach four tables through a client whose every request
    answers [{ data, error }].  The tables are lists of wire rows
    (snake_case columns).  What the environment decides is explicit in the
    world: whether the client is configured, the clock, the ids the
    backend hands out, how it casts a string to an integer column, and
    [faults], the backend's verdict on each coming request ([Some e]: the
    request is refused with [e] and changes nothing).  Ids are assigned by
    the backend, as the services expect when they read [data.id] back.  Of
    the schema's constraints only those a row could not otherwise hold are
    modelled (a null month or year, an unreadable integer); a request that
    any other constraint or policy rejects is a request the backend
    refuses.

    The row-level-security policies of database-schema.sql are
    not part of the tables: a write that a policy rejects is a refused
    request of [faults], and a read is the read of a caller who may see
    every row, where a policy would silently leave rows out of the answer.
    The two statements on what [getAll] and [getByUserId] return are for
    that reason inclusions, which hold of a shorter answer too. *)

Module Supabase.

Module UserRow.
Record t := {
  id : string;
  email : string;
  name : string;
  employee_type : string;
  start_date : string;
  created_at : string;
  updated_at : string }.
End UserRow.

Module SalaryRow.
Record t := {
  id : string;
  user_id : string;
  base_salary : Z;
  overtime_pay : option Z;        (* nullable *)
  payment_date : string;
  month : Z;
  year : Z;
  created_at : string;
  updated_at : option string }.   (* the column [update] writes *)
End SalaryRow.

Module OvertimeRow.
Record t := {
  id : string;
  user_id : string;
  date : string;
  hours : Z;
  reason : option string;         (* nullable *)
  status : string;
  created_at : string }.
End OvertimeRow.

Module LeaveRow.
Record t := {
  id : string;
  user_id : string;
  start_date : string;
  end_date : string;
  type : string;
  status : string;
  created_at : string }.
End LeaveRow.

Inductive Verb := SELECT | INSERT | UPDATE | DELETE.

Record Request := { req_table : string; req_verb : Verb }.

Inductive LogLevel := INFO | ERROR.

(** [logger.error(text, _, context)] / [logger.info(text, _, context)] *)
Record LogEntry := { level : LogLevel; text : string; context : string }.

Record World := {
  isConfigured : bool;
  clock : nat -> string;            (* successive [new Date().toISOString()] *)
  ticks : nat;
  idgen : nat -> string;            (* ids assigned by the backend *)
  issued : nat;
  int4in : string -> option Z;      (* cast of a JSON string to INTEGER *)
  faults : list (option PostgrestError);
  requests : list Request;          (* every round trip made so far *)
  users : list UserRow.t;
  salaries : list SalaryRow.t;
  overtimes : list OvertimeRow.t;
  leaves : list LeaveRow.t;
  logs : list LogEntry }.

Definition with_users (l : list UserRow.t) (w : World) : World :=
  {| isConfigured := isConfigured w; clock := clock w; ticks := ticks w;
     idgen := idgen w; issued := issued w; int4in := int4in w;
     faults := faults w; requests := requests w;
     users := l; salaries := salaries w; overtimes := overtimes w;
     leaves := leaves w; logs := logs w |}.

Definition with_salaries (l : list SalaryRow.t) (w : World) : World :=
  {| isConfigured := isConfigured w; clock := clock w; ticks := ticks w;
     idgen := idgen w; issued := issued w; int4in := int4in w;
     faults := faults w; requests := requests w;
     users := users w; salaries := l; overtimes := overtimes w;
     leaves := leaves w; logs := logs w |}.

Definition with_overtimes (l : list OvertimeRow.t) (w : World) : World :=
  {| isConfigured := isConfigured w; clock := clock w; ticks := ticks w;
     idgen := idgen w; issued := issued w; int4in := int4in w;
     faults := faults w; requests := requests w;
     users := users w; salaries := salaries w; overtimes := l;
     leaves := leaves w; logs := logs w |}.

Definition with_leaves (l : list LeaveRow.t) (w : World) : World :=
  {| isConfigured := isConfigured w; clock := clock w; ticks := ticks w;
     idgen := idgen w; issued := issued w; int4in := int4in w;
     faults := faults w; requests := requests w;
     users := users w; salaries := salaries w; overtimes := overtimes w;
     leaves := l; logs := logs w |}.

Definition with_log (e : LogEntry) (w : World) : World :=
  {| isConfigured := isConfigured w; clock := clock w; ticks := ticks w;
     idgen := idgen w; issued := issued w; int4in := int4in w;
     faults := faults w; requests := requests w;
     users := users w; salaries := salaries w; overtimes := overtimes w;
     leaves := leaves w; logs := logs w ++ [e] |}.

Definition with_tick (w : World) : World :=
  {| isConfigured := isConfigured w; clock := clock w; ticks := S (ticks w);
     idgen := idgen w; issued := issued w; int4in := int4in w;
     faults := faults w; requests := requests w;
     users := users w; salaries := salaries w; overtimes := overtimes w;
     leaves := leaves w; logs := logs w |}.

Definition with_issue (w : World) : World :=
  {| isConfigured := isConfigured w; clock := clock w; ticks := ticks w;
     idgen := idgen w; issued := S (issued w); int4in := int4in w;
     faults := faults w; requests := requests w;
     users := users w; salaries := salaries w; overtimes := overtimes w;
     leaves := leaves w; logs := logs w |}.

(** One round trip: the request is recorded and the backend's next
    verdict is consumed. *)
Definition with_request (r : Request) (w : World) : World :=
  {| isConfigured := isConfigured w; clock := clock w; ticks := ticks w;
     idgen := idgen w; issued := issued w; int4in := int4in w;
     faults := tail (faults w); requests := requests w ++ [r];
     users := users w; salaries := salaries w; overtimes := overtimes w;
     leaves := leaves w; logs := logs w |}.

Definition logger_error (text context : string) : M World unit :=
  modify (with_log {| level := ERROR; text := text; context := context |}).

Definition logger_info (text context : string) : M World unit :=
  modify (with_log {| level := INFO; text := text; context := context |}).

(** [new Date().toISOString()] *)
Definition Date_now : M World string :=
  fun w => (Ok (clock w (ticks w)), with_tick w).

Definition fresh_id : M World string :=
  fun w => (Ok (idgen w (issued w)), with_issue w).

Definition send (table : string) (verb : Verb) : M World (option PostgrestError) :=
  fun w => (Ok (mjoin (head (faults w))),
            with_request {| req_table := table; req_verb := verb |} w).

(** [if (!isConfigured || !supabase) throw new Error(...)] *)
Definition requireConfigured : M World unit :=
  fun w =>
    if isConfigured w then (Ok tt, w)
    else (Throw (JsError "Supabase is not configured. Please check your environment variables."), w).

(** [{ data, error }]: [inl error] or [inr data]. *)
Definition Reply (A : Type) : Type := PostgrestError + A.

(** [.single()] on a result that is not exactly one row. *)
Definition PGRST116 : PostgrestError :=
  {| pg_code := "PGRST116";
     pg_message := "JSON object requested, multiple (or no) rows returned" |}.

(** A string the backend cannot cast to an integer column. *)
Definition invalid_text_representation : PostgrestError :=
  {| pg_code := "22P02"; pg_message := "invalid input syntax for type integer" |}.

(** A null written to a NOT NULL column ([NaN] is sent as [null]). *)
Definition not_null_violation : PostgrestError :=
  {| pg_code := "23502"; pg_message := "null value violates not-null constraint" |}.

(** A table of the world, with the two columns every query uses. *)
Record Table (Row : Type) := {
  table_name : string;
  rows : World -> list Row;
  set_rows : list Row -> World -> World;
  row_id : Row -> string;
  row_created_at : Row -> string }.
Arguments table_name {Row} _.
Arguments rows {Row} _ _.
Arguments set_rows {Row} _ _ _.
Arguments row_id {Row} _ _.
Arguments row_created_at {Row} _ _.

Definition usersTable : Table UserRow.t :=
  {| table_name := "users"; rows := users; set_rows := with_users;
     row_id := UserRow.id; row_created_at := UserRow.created_at |}.

Definition salariesTable : Table SalaryRow.t :=
  {| table_name := "salaries"; rows := salaries; set_rows := with_salaries;
     row_id := SalaryRow.id; row_created_at := SalaryRow.created_at |}.

Definition overtimesTable : Table OvertimeRow.t :=
  {| table_name := "overtimes"; rows := overtimes; set_rows := with_overtimes;
     row_id := OvertimeRow.id; row_created_at := OvertimeRow.created_at |}.

Definition leavesTable : Table LeaveRow.t :=
  {| table_name := "leaves"; rows := leaves; set_rows := with_leaves;
     row_id := LeaveRow.id; row_created_at := LeaveRow.created_at |}.

Section Queries.

Context {Row : Type} (T : Table Row).

(** [.order('created_at', { ascending: false })] *)
Definition newest_first (l : list Row) : list Row :=
  merge_sort
    (fun a b => Is_true (String.leb (row_created_at T b) (row_created_at T a)))
    l.

(** [.from(T).select('*').order('created_at', { ascending: false })] *)
Definition select_all : M World (Reply (list Row)) :=
  let* fault := send (table_name T) SELECT in
  match fault with
  | Some error => ret (inl error)
  | None =>
      let* data := gets (rows T) in
      ret (inr (newest_first data))
  end.

(** [.select('*').eq(column, value).order(...)] *)
Definition select_eq (column : Row -> string) (value : string)
  : M World (Reply (list Row)) :=
  let* fault := send (table_name T) SELECT in
  match fault with
  | Some error => ret (inl error)
  | None =>
      let* data := gets (rows T) in
      ret (inr (newest_first (filter (fun r => column r = value) data)))
  end.

(** [.insert(payload).select().single()]: the backend assigns the id
    and casts the payload to a row. *)
Definition insert_single (payload : string -> Reply Row) : M World (Reply Row) :=
  let* fault := send (table_name T) INSERT in
  match fault with
  | Some error => ret (inl error)
  | None =>
      let* id := fresh_id in
      match payload id with
      | inl error => ret (inl error)
      | inr row =>
          modify (fun w => set_rows T (rows T w ++ [row]) w) ;;;
          ret (inr row)
      end
  end.

(** [.update(patch).eq('id', id).select().single()]: nothing is
    written unless exactly one row has the id. *)
Definition update_single (id : string) (patch : Row -> Reply Row)
  : M World (Reply Row) :=
  let* fault := send (table_name T) UPDATE in
  match fault with
  | Some error => ret (inl error)
  | None =>
      let* data := gets (rows T) in
      match filter (fun r => row_id T r = id) data with
      | [old] =>
          match patch old with
          | inl error => ret (inl error)
          | inr new =>
              modify (set_rows T
                (map (fun r => if decide (row_id T r = id) then new else r) data)) ;;;
              ret (inr new)
          end
      | _ => ret (inl PGRST116)
      end
  end.

(** [.delete().eq('id', id)] *)
Definition delete_eq (id : string) : M World (option PostgrestError) :=
  let* fault := send (table_name T) DELETE in
  match fault with
  | Some error => ret (Some error)
  | None =>
      modify (fun w => set_rows T (filter (fun r => row_id T r ≠ id) (rows T w)) w) ;;;
      ret None
  end.

End Queries.

End Supabase.

(** ** database/services/SalaryService.ts *)

Module SalaryService.
Import Supabase.

(** The fields of its argument that [create] reads. *)
Module Data.
Record t := {
  userId : string;
  baseSalary : Z;
  overtimePay : option Z;
  paymentDate : string;
  month : string;
  year : string }.
End Data.

(** The fields of [updates : Partial<Salary>] that [update] reads. *)
Module Partial.
Record t := {
  baseSalary : option Z;
  overtimePay : option Z;
  paymentDate : option string;
  month : option string;
  year : option string }.
End Partial.

(** The write set [updateData] sent with [.update(...)]: a column is
    written iff it is [Some].  [parseInt] may yield [NaN] ([Some None]),
    which travels as [null]. *)
Module Patch.
Record t := {
  updated_at : string;
  base_salary : option Z;
  overtime_pay : option Z;
  payment_date : option string;
  month : option (option Z);
  year : option (option Z) }.
End Patch.

(** SQL [UPDATE ... SET] of the write set on one row. *)
Definition apply_patch (p : Patch.t) (r : SalaryRow.t) : Reply SalaryRow.t :=
  match Patch.month p, Patch.year p with
  | Some None, _ | _, Some None => inl not_null_violation
  | m, y =>
      inr {| SalaryRow.id := SalaryRow.id r;
             SalaryRow.user_id := SalaryRow.user_id r;
             SalaryRow.base_salary := default (SalaryRow.base_salary r) (Patch.base_salary p);
             SalaryRow.overtime_pay :=
               match Patch.overtime_pay p with
               | Some v => Some v
               | None => SalaryRow.overtime_pay r
               end;
             SalaryRow.payment_date := default (SalaryRow.payment_date r) (Patch.payment_date p);
             SalaryRow.month := default (SalaryRow.month r) (mjoin m);
             SalaryRow.year := default (SalaryRow.year r) (mjoin y);
             SalaryRow.created_at := SalaryRow.created_at r;
             SalaryRow.updated_at := Some (Patch.updated_at p) |}
  end.

(** The mapping from a wire row, written out four times in the source. *)
Definition toSalary (data : SalaryRow.t) : Salary.t :=
  {| Salary.id := SalaryRow.id data;
     Salary.userId := SalaryRow.user_id data;
     Salary.month := pretty (SalaryRow.month data);
     Salary.year := pretty (SalaryRow.year data);
     Salary.grossSalary := SalaryRow.base_salary data + num_or (SalaryRow.overtime_pay data) 0;
     Salary.netSalary := SalaryRow.base_salary data + num_or (SalaryRow.overtime_pay data) 0;
     Salary.baseSalary := SalaryRow.base_salary data;
     Salary.overtimePay := num_or (SalaryRow.overtime_pay data) 0;
     Salary.bonus := 0;
     Salary.besDeduction := 0;
     Salary.paymentDate := SalaryRow.payment_date data;
     Salary.created_at := SalaryRow.created_at data |}.

Definition getAll : M World (list Salary.t) :=
  try_catch
    (requireConfigured ;;;
     let* reply := select_all salariesTable in
     match reply with
     | inl error =>
         logger_error "Failed to get salaries" "SalaryService" ;;;
         throw (BackendError error)
     | inr data => ret (map toSalary data)
     end)
    (fun error =>
       logger_error "Failed to get salaries" "SalaryService" ;;;
       throw error).

Definition getByUserId (userId : string) : M World (list Salary.t) :=
  try_catch
    (requireConfigured ;;;
     let* reply := select_eq salariesTable SalaryRow.user_id userId in
     match reply with
     | inl error =>
         logger_error "Failed to get salaries by user" "SalaryService" ;;;
         throw (BackendError error)
     | inr data => ret (map toSalary data)
     end)
    (fun error =>
       logger_error "Failed to get salaries by user" "SalaryService" ;;;
       throw error).

(** The row the backend makes of the object given to [.insert(...)]. *)
Definition insertPayload (cast : string -> option Z) (salaryData : Data.t)
    (now id : string) : Reply SalaryRow.t :=
  match cast (Data.month salaryData), cast (Data.year salaryData) with
  | Some m, Some y =>
      inr {| SalaryRow.id := id;
             SalaryRow.user_id := Data.userId salaryData;
             SalaryRow.base_salary := Data.baseSalary salaryData;
             SalaryRow.overtime_pay := Some (num_or (Data.overtimePay salaryData) 0);
             SalaryRow.payment_date := Data.paymentDate salaryData;
             SalaryRow.month := m;
             SalaryRow.year := y;
             SalaryRow.created_at := now;
             SalaryRow.updated_at := None |}
  | _, _ => inl invalid_text_representation
  end.

Definition create (salaryData : Data.t) : M World Salary.t :=
  try_catch
    (requireConfigured ;;;
     let* now := Date_now in
     let* cast := gets int4in in
     let* reply := insert_single salariesTable (insertPayload cast salaryData now) in
     match reply with
     | inl error =>
         logger_error "Failed to create salary" "SalaryService" ;;;
         throw (BackendError error)
     | inr data =>
         let salary := toSalary data in
         logger_info "Salary created" "SalaryService" ;;;
         ret salary
     end)
    (fun error =>
       logger_error "Failed to create salary" "SalaryService" ;;;
       throw error).

Definition delete (id : string) : M World unit :=
  try_catch
    (requireConfigured ;;;
     let* error := delete_eq salariesTable id in
     match error with
     | Some error =>
         logger_error "Failed to delete salary" "SalaryService" ;;;
         throw (BackendError error)
     | None => logger_info "Salary deleted" "SalaryService"
     end)
    (fun error =>
       logger_error "Failed to delete salary" "SalaryService" ;;;
       throw error).

Section Update.

(** The global [parseInt] (one argument): [None] is [NaN]. *)
Variable parseInt : string -> option Z.

Definition updateData (now : string) (updates : Partial.t) : Patch.t :=
  {| Patch.updated_at := now;
     Patch.base_salary := when_truthy_num (Partial.baseSalary updates);
     Patch.overtime_pay := when_truthy_num (Partial.overtimePay updates);
     Patch.payment_date := when_truthy_str (Partial.paymentDate updates);
     Patch.month := parseInt <$> when_truthy_str (Partial.month updates);
     Patch.year := parseInt <$> when_truthy_str (Partial.year updates) |}.

Definition update (id : string) (updates : Partial.t) : M World Salary.t :=
  try_catch
    (requireConfigured ;;;
     let* now := Date_now in
     let* reply := update_single salariesTable id (apply_patch (updateData now updates)) in
     match reply with
     | inl error =>
         logger_error "Failed to update salary" "SalaryService" ;;;
         throw (BackendError error)
     | inr data =>
         let salary := toSalary data in
         logger_info "Salary updated" "SalaryService" ;;;
         ret salary
     end)
    (fun error =>
       logger_error "Failed to update salary" "SalaryService" ;;;
       throw error).

Definition updateSalary (id : string) (updates : Partial.t) : M World Salary.t :=
  update id updates.

End Update.

Definition getAllSalaries : M World (list Salary.t) := getAll.

Definition createSalary (salaryData : Data.t) : M World Salary.t := create salaryData.

Definition deleteSalary (id : string) : M World unit := delete id.

End SalaryService.

(** ** database/services/OvertimeService.ts *)

Module OvertimeService.
Import Supabase.

Module Data.
Record t := {
  userId : string;
  date : string;
  hours : Z;
  description : option string;
  status : option string }.
End Data.

(** The fields of [updates : Partial<Overtime>] that [update] reads. *)
Module Partial.
Record t := {
  date : option string;
  hours : option Z;
  description : option string;
  status : option string }.
End Partial.

Module Patch.
Record t := {
  date : option string;
  hours : option Z;
  reason : option string;
  status : option string }.
End Patch.

Definition apply_patch (p : Patch.t) (r : OvertimeRow.t) : Reply OvertimeRow.t :=
  inr {| OvertimeRow.id := OvertimeRow.id r;
         OvertimeRow.user_id := OvertimeRow.user_id r;
         OvertimeRow.date := default (OvertimeRow.date r) (Patch.date p);
         OvertimeRow.hours := default (OvertimeRow.hours r) (Patch.hours p);
         OvertimeRow.reason :=
           match Patch.reason p with
           | Some v => Some v
           | None => OvertimeRow.reason r
           end;
         OvertimeRow.status := default (OvertimeRow.status r) (Patch.status p);
         OvertimeRow.created_at := OvertimeRow.created_at r |}.

Definition toOvertime (data : OvertimeRow.t) : Overtime.t :=
  {| Overtime.id := OvertimeRow.id data;
     Overtime.userId := OvertimeRow.user_id data;
     Overtime.date := OvertimeRow.date data;
     Overtime.hours := OvertimeRow.hours data;
     Overtime.description := str_or (OvertimeRow.reason data) "";
     Overtime.status := OvertimeRow.status data;
     Overtime.hourlyRate := 0;
     Overtime.totalPayment := 0;
     Overtime.created_at := OvertimeRow.created_at data |}.

Definition getAll : M World (list Overtime.t) :=
  try_catch
    (requireConfigured ;;;
     let* reply := select_all overtimesTable in
     match reply with
     | inl error =>
         logger_error "Failed to get overtimes" "OvertimeService" ;;;
         throw (BackendError error)
     | inr data => ret (map toOvertime data)
     end)
    (fun error =>
       logger_error "Failed to get overtimes" "OvertimeService" ;;;
       throw error).

Definition getByUserId (userId : string) : M World (list Overtime.t) :=
  try_catch
    (requireConfigured ;;;
     let* reply := select_eq overtimesTable OvertimeRow.user_id userId in
     match reply with
     | inl error =>
         logger_error "Failed to get overtimes by user" "OvertimeService" ;;;
         throw (BackendError error)
     | inr data => ret (map toOvertime data)
     end)
    (fun error =>
       logger_error "Failed to get overtimes by user" "OvertimeService" ;;;
       throw error).

Definition insertPayload (overtimeData : Data.t) (now id : string)
  : Reply OvertimeRow.t :=
  inr {| OvertimeRow.id := id;
         OvertimeRow.user_id := Data.userId overtimeData;
         OvertimeRow.date := Data.date overtimeData;
         OvertimeRow.hours := Data.hours overtimeData;
         OvertimeRow.reason := Some (str_or (Data.description overtimeData) "");
         OvertimeRow.status := str_or (Data.status overtimeData) "pending";
         OvertimeRow.created_at := now |}.

Definition create (overtimeData : Data.t) : M World Overtime.t :=
  try_catch
    (requireConfigured ;;;
     let* now := Date_now in
     let* reply := insert_single overtimesTable (insertPayload overtimeData now) in
     match reply with
     | inl error =>
         logger_error "Failed to create overtime" "OvertimeService" ;;;
         throw (BackendError error)
     | inr data =>
         let overtime := toOvertime data in
         logger_info "Overtime created" "OvertimeService" ;;;
         ret overtime
     end)
    (fun error =>
       logger_error "Failed to create overtime" "OvertimeService" ;;;
       throw error).

(** [.update({ status })] *)
Definition statusOnly (status : string) : Patch.t :=
  {| Patch.date := None; Patch.hours := None; Patch.reason := None;
     Patch.status := Some status |}.

Definition updateStatus (id status : string) : M World Overtime.t :=
  try_catch
    (requireConfigured ;;;
     let* reply := update_single overtimesTable id (apply_patch (statusOnly status)) in
     match reply with
     | inl error =>
         logger_error "Failed to update overtime status" "OvertimeService" ;;;
         throw (BackendError error)
     | inr data =>
         let overtime := toOvertime data in
         logger_info "Overtime status updated" "OvertimeService" ;;;
         ret overtime
     end)
    (fun error =>
       logger_error "Failed to update overtime status" "OvertimeService" ;;;
       throw error).

Definition updateData (updates : Partial.t) : Patch.t :=
  {| Patch.date := when_truthy_str (Partial.date updates);
     Patch.hours := when_truthy_num (Partial.hours updates);
     Patch.reason := when_truthy_str (Partial.description updates);
     Patch.status := when_truthy_str (Partial.status updates) |}.

Definition update (id : string) (updates : Partial.t) : M World Overtime.t :=
  try_catch
    (requireConfigured ;;;
     let* reply := update_single overtimesTable id (apply_patch (updateData updates)) in
     match reply with
     | inl error =>
         logger_error "Failed to update overtime" "OvertimeService" ;;;
         throw (BackendError error)
     | inr data =>
         let overtime := toOvertime data in
         logger_info "Overtime updated" "OvertimeService" ;;;
         ret overtime
     end)
    (fun error =>
       logger_error "Failed to update overtime" "OvertimeService" ;;;
       throw error).

Definition delete (id : string) : M World unit :=
  try_catch
    (requireConfigured ;;;
     let* error := delete_eq overtimesTable id in
     match error with
     | Some error =>
         logger_error "Failed to delete overtime" "OvertimeService" ;;;
         throw (BackendError error)
     | None => logger_info "Overtime deleted" "OvertimeService"
     end)
    (fun error =>
       logger_error "Failed to delete overtime" "OvertimeService" ;;;
       throw error).

Definition getAllOvertimes : M World (list Overtime.t) := getAll.

Definition createOvertime (overtimeData : Data.t) : M World Overtime.t :=
  create overtimeData.

Definition updateOvertime (id : string) (updates : Partial.t) : M World Overtime.t :=
  update id updates.

Definition deleteOvertime (id : string) : M World unit := delete id.

End OvertimeService.

(** ** database/services/LeaveService.ts *)

Module LeaveService.
Import Supabase.

Module Data.
Record t := {
  userId : string;
  startDate : string;
  endDate : string;
  type : string;
  status : option string }.
End Data.

(** The fields of [updates : Partial<Leave>] that [update] reads. *)
Module Partial.
Record t := {
  startDate : option string;
  endDate : option string;
  type : option string;
  status : option string }.
End Partial.

Module Patch.
Record t := {
  start_date : option string;
  end_date : option string;
  type : option string;
  status : option string }.
End Patch.

Definition apply_patch (p : Patch.t) (r : LeaveRow.t) : Reply LeaveRow.t :=
  inr {| LeaveRow.id := LeaveRow.id r;
         LeaveRow.user_id := LeaveRow.user_id r;
         LeaveRow.start_date := default (LeaveRow.start_date r) (Patch.start_date p);
         LeaveRow.end_date := default (LeaveRow.end_date r) (Patch.end_date p);
         LeaveRow.type := default (LeaveRow.type r) (Patch.type p);
         LeaveRow.status := default (LeaveRow.status r) (Patch.status p);
         LeaveRow.created_at := LeaveRow.created_at r |}.

Definition toLeave (data : LeaveRow.t) : Leave.t :=
  {| Leave.id := LeaveRow.id data;
     Leave.userId := LeaveRow.user_id data;
     Leave.startDate := LeaveRow.start_date data;
     Leave.endDate := LeaveRow.end_date data;
     Leave.type := LeaveRow.type data;
     Leave.status := LeaveRow.status data;
     Leave.reason := "";
     Leave.leaveType := LeaveRow.type data;
     Leave.daysUsed := 0;
     Leave.created_at := LeaveRow.created_at data |}.

Definition getAll : M World (list Leave.t) :=
  try_catch
    (requireConfigured ;;;
     let* reply := select_all leavesTable in
     match reply with
     | inl error =>
         logger_error "Failed to get leaves" "LeaveService" ;;;
         throw (BackendError error)
     | inr data => ret (map toLeave data)
     end)
    (fun error =>
       logger_error "Failed to get leaves" "LeaveService" ;;;
       throw error).

Definition getByUserId (userId : string) : M World (list Leave.t) :=
  try_catch
    (requireConfigured ;;;
     let* reply := select_eq leavesTable LeaveRow.user_id userId in
     match reply with
     | inl error =>
         logger_error "Failed to get leaves by user" "LeaveService" ;;;
         throw (BackendError error)
     | inr data => ret (map toLeave data)
     end)
    (fun error =>
       logger_error "Failed to get leaves by user" "LeaveService" ;;;
       throw error).

Definition insertPayload (leaveData : Data.t) (now id : string) : Reply LeaveRow.t :=
  inr {| LeaveRow.id := id;
         LeaveRow.user_id := Data.userId leaveData;
         LeaveRow.start_date := Data.startDate leaveData;
         LeaveRow.end_date := Data.endDate leaveData;
         LeaveRow.type := Data.type leaveData;
         LeaveRow.status := str_or (Data.status leaveData) "pending";
         LeaveRow.created_at := now |}.

Definition create (leaveData : Data.t) : M World Leave.t :=
  try_catch
    (requireConfigured ;;;
     let* now := Date_now in
     let* reply := insert_single leavesTable (insertPayload leaveData now) in
     match reply with
     | inl error =>
         logger_error "Failed to create leave" "LeaveService" ;;;
         throw (BackendError error)
     | inr data =>
         let leave := toLeave data in
         logger_info "Leave created" "LeaveService" ;;;
         ret leave
     end)
    (fun error =>
       logger_error "Failed to create leave" "LeaveService" ;;;
       throw error).

(** [.update({ status })] *)
Definition statusOnly (status : string) : Patch.t :=
  {| Patch.start_date := None; Patch.end_date := None; Patch.type := None;
     Patch.status := Some status |}.

Definition updateStatus (id status : string) : M World Leave.t :=
  try_catch
    (requireConfigured ;;;
     let* reply := update_single leavesTable id (apply_patch (statusOnly status)) in
     match reply with
     | inl error =>
         logger_error "Failed to update leave status" "LeaveService" ;;;
         throw (BackendError error)
     | inr data =>
         let leave := toLeave data in
         logger_info "Leave status updated" "LeaveService" ;;;
         ret leave
     end)
    (fun error =>
       logger_error "Failed to update leave status" "LeaveService" ;;;
       throw error).

Definition updateData (updates : Partial.t) : Patch.t :=
  {| Patch.start_date := when_truthy_str (Partial.startDate updates);
     Patch.end_date := when_truthy_str (Partial.endDate updates);
     Patch.type := when_truthy_str (Partial.type updates);
     Patch.status := when_truthy_str (Partial.status updates) |}.

Definition update (id : string) (updates : Partial.t) : M World Leave.t :=
  try_catch
    (requireConfigured ;;;
     let* reply := update_single leavesTable id (apply_patch (updateData updates)) in
     match reply with
     | inl error =>
         logger_error "Failed to update leave" "LeaveService" ;;;
         throw (BackendError error)
     | inr data =>
         let leave := toLeave data in
         logger_info "Leave updated" "LeaveService" ;;;
         ret leave
     end)
    (fun error =>
       logger_error "Failed to update leave" "LeaveService" ;;;
       throw error).

Definition delete (id : string) : M World unit :=
  try_catch
    (requireConfigured ;;;
     let* error := delete_eq leavesTable id in
     match error with
     | Some error =>
         logger_error "Failed to delete leave" "LeaveService" ;;;
         throw (BackendError error)
     | None => logger_info "Leave deleted" "LeaveService"
     end)
    (fun error =>
       logger_error "Failed to delete leave" "LeaveService" ;;;
       throw error).

Definition getAllLeaves : M World (list Leave.t) := getAll.

Definition createLeave (leaveData : Data.t) : M World Leave.t := create leaveData.

Definition updateLeave (id : string) (updates : Partial.t) : M World Leave.t :=
  update id updates.

Definition deleteLeave (id : string) : M World unit := delete id.

End LeaveService.

(** ** database/services/UserService.ts *)

Module UserService.
Import Supabase.

Module Data.
Record t := {
  email : string;
  name : string;
  employeeType : string;
  startDate : string }.
End Data.

(** The fields of [updates : Partial<User>] that [update] reads. *)
Module Partial.
Record t := {
  name : option string;
  email : option string;
  employeeType : option string;
  startDate : option string }.
End Partial.

Module Patch.
Record t := {
  updated_at : string;
  name : option string;
  email : option string;
  employee_type : option string;
  start_date : option string }.
End Patch.

Definition apply_patch (p : Patch.t) (r : UserRow.t) : Reply UserRow.t :=
  inr {| UserRow.id := UserRow.id r;
         UserRow.email := default (UserRow.email r) (Patch.email p);
         UserRow.name := default (UserRow.name r) (Patch.name p);
         UserRow.employee_type := default (UserRow.employee_type r) (Patch.employee_type p);
         UserRow.start_date := default (UserRow.start_date r) (Patch.start_date p);
         UserRow.created_at := UserRow.created_at r;
         UserRow.updated_at := Patch.updated_at p |}.

Definition toUser (data : UserRow.t) : User.t :=
  {| User.id := UserRow.id data;
     User.email := UserRow.email data;
     User.name := UserRow.name data;
     User.employeeType := UserRow.employee_type data;
     User.startDate := UserRow.start_date data;
     User.createdAt := UserRow.created_at data;
     User.updatedAt := UserRow.updated_at data |}.

Definition insertPayload (userData : Data.t) (created updated id : string)
  : Reply UserRow.t :=
  inr {| UserRow.id := id;
         UserRow.email := Data.email userData;
         UserRow.name := Data.name userData;
         UserRow.employee_type := Data.employeeType userData;
         UserRow.start_date := Data.startDate userData;
         UserRow.created_at := created;
         UserRow.updated_at := updated |}.

Definition create (userData : Data.t) : M World User.t :=
  try_catch
    (requireConfigured ;;;
     let* created := Date_now in
     let* updated := Date_now in
     let* reply := insert_single usersTable (insertPayload userData created updated) in
     match reply with
     | inl error =>
         logger_error "Failed to create user" "UserService" ;;;
         throw (BackendError error)
     | inr data =>
         let user := toUser data in
         logger_info "User created" "UserService" ;;;
         ret user
     end)
    (fun error =>
       logger_error "Failed to create user" "UserService" ;;;
       throw error).

(** [.select('*').eq('id', id).single()] *)
Definition select_by_id (id : string) : M World (Reply UserRow.t) :=
  let* fault := send "users" SELECT in
  match fault with
  | Some error => ret (inl error)
  | None =>
      let* data := gets users in
      match filter (fun r => UserRow.id r = id) data with
      | [row] => ret (inr row)
      | _ => ret (inl PGRST116)
      end
  end.

(** [getById] answers [null] on a backend error instead of throwing. *)
Definition getById (id : string) : M World (option User.t) :=
  try_catch
    (requireConfigured ;;;
     let* reply := select_by_id id in
     match reply with
     | inl error =>
         logger_error "Failed to get user by ID" "UserService" ;;;
         ret None
     | inr data => ret (Some (toUser data))
     end)
    (fun error =>
       logger_error "Failed to get user by ID" "UserService" ;;;
       throw error).

Definition getAll : M World (list User.t) :=
  try_catch
    (requireConfigured ;;;
     let* reply := select_all usersTable in
     match reply with
     | inl error =>
         logger_error "Failed to get all users" "UserService" ;;;
         throw (BackendError error)
     | inr data => ret (map toUser data)
     end)
    (fun error =>
       logger_error "Failed to get all users" "UserService" ;;;
       throw error).

Definition updateData (now : string) (updates : Partial.t) : Patch.t :=
  {| Patch.updated_at := now;
     Patch.name := when_truthy_str (Partial.name updates);
     Patch.email := when_truthy_str (Partial.email updates);
     Patch.employee_type := when_truthy_str (Partial.employeeType updates);
     Patch.start_date := when_truthy_str (Partial.startDate updates) |}.

Definition update (id : string) (updates : Partial.t) : M World User.t :=
  try_catch
    (requireConfigured ;;;
     let* now := Date_now in
     let* reply := update_single usersTable id (apply_patch (updateData now updates)) in
     match reply with
     | inl error =>
         logger_error "Failed to update user" "UserService" ;;;
         throw (BackendError error)
     | inr data =>
         let user := toUser data in
         logger_info "User updated" "UserService" ;;;
         ret user
     end)
    (fun error =>
       logger_error "Failed to update user" "UserService" ;;;
       throw error).

(** The schema declares [user_id ... REFERENCES users(id) ON DELETE
    CASCADE] on the three dependent tables. *)
Definition cascade (id : string) (w : World) : World :=
  with_leaves (filter (fun r => LeaveRow.user_id r ≠ id) (leaves w))
    (with_overtimes (filter (fun r => OvertimeRow.user_id r ≠ id) (overtimes w))
       (with_salaries (filter (fun r => SalaryRow.user_id r ≠ id) (salaries w)) w)).

Definition delete (id : string) : M World unit :=
  try_catch
    (requireConfigured ;;;
     let* existed := gets (fun w => bool_decide (Exists (fun r => UserRow.id r = id) (users w))) in
     let* error := delete_eq usersTable id in
     match error with
     | Some error =>
         logger_error "Failed to delete user" "UserService" ;;;
         throw (BackendError error)
     | None =>
         (if existed : bool then modify (cascade id) else ret tt) ;;;
         logger_info "User deleted" "UserService"
     end)
    (fun error =>
       logger_error "Failed to delete user" "UserService" ;;;
       throw error).

End UserService.

(** ** contexts/NanoDataContext.tsx *)

Module NanoDataContext.

(** [keyof NanoDataState['loadingStates']] *)
Module Entity.
Inductive t := users | salaries | overtimes | leaves.
#[global] Instance eq_dec : EqDecision t.
Proof. solve_decision. Defined.
End Entity.

Module LoadingStates.
Record t := { users : bool; salaries : bool; overtimes : bool; leaves : bool }.

Definition get (e : Entity.t) (l : t) : bool :=
  match e with
  | Entity.users => users l
  | Entity.salaries => salaries l
  | Entity.overtimes => overtimes l
  | Entity.leaves => leaves l
  end.

(** [{ ...l, [e]: b }] *)
Definition set (e : Entity.t) (b : bool) (l : t) : t :=
  match e with
  | Entity.users =>
      {| users := b; salaries := salaries l; overtimes := overtimes l; leaves := leaves l |}
  | Entity.salaries =>
      {| users := users l; salaries := b; overtimes := overtimes l; leaves := leaves l |}
  | Entity.overtimes =>
      {| users := users l; salaries := salaries l; overtimes := b; leaves := leaves l |}
  | Entity.leaves =>
      {| users := users l; salaries := salaries l; overtimes := overtimes l; leaves := b |}
  end.
End LoadingStates.

(** [errors]: [None] is an absent or [undefined] message. *)
Module Errors.
Record t := {
  users : option string;
  salaries : option string;
  overtimes : option string;
  leaves : option string }.

Definition empty : t :=
  {| users := None; salaries := None; overtimes := None; leaves := None |}.

Definition get (e : Entity.t) (l : t) : option string :=
  match e with
  | Entity.users => users l
  | Entity.salaries => salaries l
  | Entity.overtimes => overtimes l
  | Entity.leaves => leaves l
  end.

(** [{ ...l, [e]: m }] *)
Definition set (e : Entity.t) (m : option string) (l : t) : t :=
  match e with
  | Entity.users =>
      {| users := m; salaries := salaries l; overtimes := overtimes l; leaves := leaves l |}
  | Entity.salaries =>
      {| users := users l; salaries := m; overtimes := overtimes l; leaves := leaves l |}
  | Entity.overtimes =>
      {| users := users l; salaries := salaries l; overtimes := m; leaves := leaves l |}
  | Entity.leaves =>
      {| users := users l; salaries := salaries l; overtimes := overtimes l; leaves := m |}
  end.
End Errors.

Record NanoDataState := {
  users : list User.t;
  salaries : list Salary.t;
  overtimes : list Overtime.t;
  leaves : list Leave.t;
  loadingStates : LoadingStates.t;
  errors : Errors.t }.

Inductive NanoDataAction :=
| SET_LOADING (entity : Entity.t) (loading : bool)
| SET_ERROR (entity : Entity.t) (error : option string)
| SET_USERS (users : list User.t)
| SET_SALARIES (salaries : list Salary.t)
| SET_OVERTIMES (overtimes : list Overtime.t)
| SET_LEAVES (leaves : list Leave.t)
| ADD_USER (user : User.t)
| UPDATE_USER (user : User.t)
| REMOVE_USER (userId : string)
| ADD_SALARY (salary : Salary.t)
| UPDATE_SALARY (salary : Salary.t)
| REMOVE_SALARY (salaryId : string)
| ADD_OVERTIME (overtime : Overtime.t)
| UPDATE_OVERTIME (overtime : Overtime.t)
| REMOVE_OVERTIME (overtimeId : string)
| ADD_LEAVE (leave : Leave.t)
| UPDATE_LEAVE (leave : Leave.t)
| REMOVE_LEAVE (leaveId : string)
| CLEAR_ERRORS.

Definition initialState : NanoDataState :=
  {| users := []; salaries := []; overtimes := []; leaves := [];
     loadingStates :=
       {| LoadingStates.users := false; LoadingStates.salaries := false;
          LoadingStates.overtimes := false; LoadingStates.leaves := false |};
     errors := Errors.empty |}.

Definition with_users (l : list User.t) (s : NanoDataState) : NanoDataState :=
  {| users := l; salaries := salaries s; overtimes := overtimes s; leaves := leaves s;
     loadingStates := loadingStates s; errors := errors s |}.

Definition with_salaries (l : list Salary.t) (s : NanoDataState) : NanoDataState :=
  {| users := users s; salaries := l; overtimes := overtimes s; leaves := leaves s;
     loadingStates := loadingStates s; errors := errors s |}.

Definition with_overtimes (l : list Overtime.t) (s : NanoDataState) : NanoDataState :=
  {| users := users s; salaries := salaries s; overtimes := l; leaves := leaves s;
     loadingStates := loadingStates s; errors := errors s |}.

Definition with_leaves (l : list Leave.t) (s : NanoDataState) : NanoDataState :=
  {| users := users s; salaries := salaries s; overtimes := overtimes s; leaves := l;
     loadingStates := loadingStates s; errors := errors s |}.

Definition with_loadingStates (l : LoadingStates.t) (s : NanoDataState) : NanoDataState :=
  {| users := users s; salaries := salaries s; overtimes := overtimes s; leaves := leaves s;
     loadingStates := l; errors := errors s |}.

Definition with_errors (l : Errors.t) (s : NanoDataState) : NanoDataState :=
  {| users := users s; salaries := salaries s; overtimes := overtimes s; leaves := leaves s;
     loadingStates := loadingStates s; errors := l |}.

Definition nanoDataReducer (state : NanoDataState) (action : NanoDataAction)
  : NanoDataState :=
  match action with
  | SET_LOADING entity loading =>
      with_loadingStates (LoadingStates.set entity loading (loadingStates state)) state
  | SET_ERROR entity error =>
      with_errors (Errors.set entity error (errors state)) state
  | SET_USERS l => with_users l state
  | SET_SALARIES l => with_salaries l state
  | SET_OVERTIMES l => with_overtimes l state
  | SET_LEAVES l => with_leaves l state
  | ADD_USER user => with_users (users state ++ [user]) state
  | UPDATE_USER user =>
      with_users
        (map (fun u => if decide (User.id u = User.id user) then user else u) (users state))
        state
  | REMOVE_USER userId =>
      with_users (filter (fun u => User.id u ≠ userId) (users state)) state
  | ADD_SALARY salary => with_salaries (salaries state ++ [salary]) state
  | UPDATE_SALARY salary =>
      with_salaries
        (map (fun s => if decide (Salary.id s = Salary.id salary) then salary else s)
           (salaries state))
        state
  | REMOVE_SALARY salaryId =>
      with_salaries (filter (fun s => Salary.id s ≠ salaryId) (salaries state)) state
  | ADD_OVERTIME overtime => with_overtimes (overtimes state ++ [overtime]) state
  | UPDATE_OVERTIME overtime =>
      with_overtimes
        (map (fun o => if decide (Overtime.id o = Overtime.id overtime) then overtime else o)
           (overtimes state))
        state
  | REMOVE_OVERTIME overtimeId =>
      with_overtimes (filter (fun o => Overtime.id o ≠ overtimeId) (overtimes state)) state
  | ADD_LEAVE leave => with_leaves (leaves state ++ [leave]) state
  | UPDATE_LEAVE leave =>
      with_leaves
        (map (fun l => if decide (Leave.id l = Leave.id leave) then leave else l)
           (leaves state))
        state
  | REMOVE_LEAVE leaveId =>
      with_leaves (filter (fun l => Leave.id l ≠ leaveId) (leaves state)) state
  | CLEAR_ERRORS => with_errors Errors.empty state
  end.

(** The messages the provider stores. *)
Definition msg_refresh : string := "Veri yüklenemedi".
Definition msg_createUser : string := "Kullanıcı oluşturulamadı".
Definition msg_updateUser : string := "Kullanıcı güncellenemedi".
Definition msg_deleteUser : string := "Kullanıcı silinemedi".
Definition msg_createSalary : string := "Maaş kaydı oluşturulamadı".
Definition msg_updateSalary : string := "Maaş kaydı güncellenemedi".
Definition msg_deleteSalary : string := "Maaş kaydı silinemedi".
Definition msg_createOvertime : string := "Mesai kaydı oluşturulamadı".
Definition msg_updateOvertime : string := "Mesai kaydı güncellenemedi".
Definition msg_deleteOvertime : string := "Mesai kaydı silinemedi".
Definition msg_createLeave : string := "İzin kaydı oluşturulamadı".
Definition msg_updateLeave : string := "İzin kaydı güncellenemedi".
Definition msg_deleteLeave : string := "İzin kaydı silinemedi".

Module Services.
(** The service methods the provider calls.  A service that may
    answer [null] returns an [option]. *)
Record t {W : Type} := {
  getAllUsers : M W (list User.t);
  createUser : UserService.Data.t -> M W User.t;
  updateUser : string -> UserService.Partial.t -> M W (option User.t);
  deleteUser : string -> M W bool;
  getAllSalaries : M W (list Salary.t);
  createSalary : SalaryService.Data.t -> M W Salary.t;
  updateSalary : string -> SalaryService.Partial.t -> M W (option Salary.t);
  deleteSalary : string -> M W unit;
  getAllOvertimes : M W (list Overtime.t);
  createOvertime : OvertimeService.Data.t -> M W Overtime.t;
  updateOvertime : string -> OvertimeService.Partial.t -> M W (option Overtime.t);
  deleteOvertime : string -> M W unit;
  getAllLeaves : M W (list Leave.t);
  createLeave : LeaveService.Data.t -> M W Leave.t;
  updateLeave : string -> LeaveService.Partial.t -> M W (option Leave.t);
  deleteLeave : string -> M W unit }.
Arguments t : clear implicits.
End Services.

Section Provider.

(** The world of the service layer the provider is wired to. *)
Context {W : Type}.

(** What the provider's operations act on: the reducer state, the
    actions dispatched so far, the provider's own log lines, and the
    world of the services.  No operation reads the state: each only
    dispatches, and the reducer is applied to the actions in the order of
    dispatch. *)
Record Store := {
  state : NanoDataState;
  dispatched : list NanoDataAction;
  logged : list string;
  world : W }.

Definition dispatch (action : NanoDataAction) : M Store unit :=
  modify (fun st =>
    {| state := nanoDataReducer (state st) action;
       dispatched := dispatched st ++ [action];
       logged := logged st;
       world := world st |}).

Definition logger (text : string) : M Store unit :=
  modify (fun st =>
    {| state := state st; dispatched := dispatched st;
       logged := logged st ++ [text]; world := world st |}).

(** A call into the service layer. *)
Definition call {A} (m : M W A) : M Store A :=
  fun st =>
    let '(r, w) := m (world st) in
    (r, {| state := state st; dispatched := dispatched st;
           logged := logged st; world := w |}).

Variable svc : Services.t W.

Definition refreshData : M Store unit :=
  try_catch
    (dispatch (SET_LOADING Entity.users true) ;;;
     let* users := call (Services.getAllUsers svc) in
     dispatch (SET_USERS users) ;;;
     dispatch (SET_ERROR Entity.users None) ;;;
     dispatch (SET_LOADING Entity.salaries true) ;;;
     let* salaries := call (Services.getAllSalaries svc) in
     dispatch (SET_SALARIES salaries) ;;;
     dispatch (SET_ERROR Entity.salaries None) ;;;
     dispatch (SET_LOADING Entity.overtimes true) ;;;
     let* overtimes := call (Services.getAllOvertimes svc) in
     dispatch (SET_OVERTIMES overtimes) ;;;
     dispatch (SET_ERROR Entity.overtimes None) ;;;
     dispatch (SET_LOADING Entity.leaves true) ;;;
     let* leaves := call (Services.getAllLeaves svc) in
     dispatch (SET_LEAVES leaves) ;;;
     dispatch (SET_ERROR Entity.leaves None) ;;;
     logger "All data refreshed successfully")
    (fun error =>
       logger "Failed to refresh data" ;;;
       dispatch (SET_ERROR Entity.users (Some msg_refresh))).

Definition createUser (userData : UserService.Data.t) : M Store User.t :=
  try_catch
    (let* user := call (Services.createUser svc userData) in
     dispatch (ADD_USER user) ;;;
     ret user)
    (fun error =>
       dispatch (SET_ERROR Entity.users (Some msg_createUser)) ;;;
       logger "Failed to create user" ;;;
       throw error).

Definition updateUser (id : string) (userData : UserService.Partial.t)
  : M Store (option User.t) :=
  try_catch
    (let* user := call (Services.updateUser svc id userData) in
     match user with
     | Some user => dispatch (UPDATE_USER user) ;;; ret (Some user)
     | None => ret None
     end)
    (fun error =>
       dispatch (SET_ERROR Entity.users (Some msg_updateUser)) ;;;
       logger "Failed to update user" ;;;
       throw error).

Definition deleteUser (id : string) : M Store bool :=
  try_catch
    (let* success := call (Services.deleteUser svc id) in
     (if success : bool then dispatch (REMOVE_USER id) else ret tt) ;;;
     ret success)
    (fun error =>
       dispatch (SET_ERROR Entity.users (Some msg_deleteUser)) ;;;
       logger "Failed to delete user" ;;;
       throw error).

Definition createSalary (salaryData : SalaryService.Data.t) : M Store Salary.t :=
  try_catch
    (let* salary := call (Services.createSalary svc salaryData) in
     dispatch (ADD_SALARY salary) ;;;
     ret salary)
    (fun error =>
       dispatch (SET_ERROR Entity.salaries (Some msg_createSalary)) ;;;
       logger "Failed to create salary" ;;;
       throw error).

Definition updateSalary (id : string) (salaryData : SalaryService.Partial.t)
  : M Store (option Salary.t) :=
  try_catch
    (let* salary := call (Services.updateSalary svc id salaryData) in
     match salary with
     | Some salary => dispatch (UPDATE_SALARY salary) ;;; ret (Some salary)
     | None => ret None
     end)
    (fun error =>
       dispatch (SET_ERROR Entity.salaries (Some msg_updateSalary)) ;;;
       logger "Failed to update salary" ;;;
       throw error).

Definition deleteSalary (id : string) : M Store bool :=
  try_catch
    (call (Services.deleteSalary svc id) ;;;
     dispatch (REMOVE_SALARY id) ;;;
     ret true)
    (fun error =>
       dispatch (SET_ERROR Entity.salaries (Some msg_deleteSalary)) ;;;
       logger "Failed to delete salary" ;;;
       throw error).

Definition createOvertime (overtimeData : OvertimeService.Data.t)
  : M Store Overtime.t :=
  try_catch
    (let* overtime := call (Services.createOvertime svc overtimeData) in
     dispatch (ADD_OVERTIME overtime) ;;;
     ret overtime)
    (fun error =>
       dispatch (SET_ERROR Entity.overtimes (Some msg_createOvertime)) ;;;
       logger "Failed to create overtime" ;;;
       throw error).

Definition updateOvertime (id : string) (overtimeData : OvertimeService.Partial.t)
  : M Store (option Overtime.t) :=
  try_catch
    (let* overtime := call (Services.updateOvertime svc id overtimeData) in
     match overtime with
     | Some overtime => dispatch (UPDATE_OVERTIME overtime) ;;; ret (Some overtime)
     | None => ret None
     end)
    (fun error =>
       dispatch (SET_ERROR Entity.overtimes (Some msg_updateOvertime)) ;;;
       logger "Failed to update overtime" ;;;
       throw error).

Definition deleteOvertime (id : string) : M Store bool :=
  try_catch
    (call (Services.deleteOvertime svc id) ;;;
     dispatch (REMOVE_OVERTIME id) ;;;
     ret true)
    (fun error =>
       dispatch (SET_ERROR Entity.overtimes (Some msg_deleteOvertime)) ;;;
       logger "Failed to delete overtime" ;;;
       throw error).

(** [updateOvertime(id, { status })] *)
Definition updateOvertimeStatus (id status : string) : M Store (option Overtime.t) :=
  updateOvertime id
    {| OvertimeService.Partial.date := None;
       OvertimeService.Partial.hours := None;
       OvertimeService.Partial.description := None;
       OvertimeService.Partial.status := Some status |}.

Definition createLeave (leaveData : LeaveService.Data.t) : M Store Leave.t :=
  try_catch
    (let* leave := call (Services.createLeave svc leaveData) in
     dispatch (ADD_LEAVE leave) ;;;
     ret leave)
    (fun error =>
       dispatch (SET_ERROR Entity.leaves (Some msg_createLeave)) ;;;
       logger "Failed to create leave" ;;;
       throw error).

Definition updateLeave (id : string) (leaveData : LeaveService.Partial.t)
  : M Store (option Leave.t) :=
  try_catch
    (let* leave := call (Services.updateLeave svc id leaveData) in
     match leave with
     | Some leave => dispatch (UPDATE_LEAVE leave) ;;; ret (Some leave)
     | None => ret None
     end)
    (fun error =>
       dispatch (SET_ERROR Entity.leaves (Some msg_updateLeave)) ;;;
       logger "Failed to update leave" ;;;
       throw error).

Definition deleteLeave (id : string) : M Store bool :=
  try_catch
    (call (Services.deleteLeave svc id) ;;;
     dispatch (REMOVE_LEAVE id) ;;;
     ret true)
    (fun error =>
       dispatch (SET_ERROR Entity.leaves (Some msg_deleteLeave)) ;;;
       logger "Failed to delete leave" ;;;
       throw error).

(** [updateLeave(id, { status })] *)
Definition updateLeaveStatus (id status : string) : M Store (option Leave.t) :=
  updateLeave id
    {| LeaveService.Partial.startDate := None;
       LeaveService.Partial.endDate := None;
       LeaveService.Partial.type := None;
       LeaveService.Partial.status := Some status |}.

Definition clearErrors : M Store unit := dispatch CLEAR_ERRORS.

End Provider.

Arguments Store : clear implicits.

End NanoDataContext.


(** ** database/browserDatabase.ts

    The adapter wraps the browser's IndexedDB.  A database is a finite map
    from object-store names to object stores; every store the adapter
    creates has [keyPath: 'id'], so a record is filed under the value of
    its own [id] property.  [getAll] of the engine lists records by
    ascending key; the model lists them in the map's own order, and no
    statement below depends on the order. *)

Module NanoDatabase.

(** Property values of the stored objects. *)
Inductive value :=
| VNull
| VBool (b : bool)
| VNum (z : Z)
| VStr (s : string).

#[global] Instance value_eq_dec : EqDecision value.
Proof. solve_decision. Defined.

(** A plain object: property name to value. *)
Abbreviation object := (gmap string value).

(** A valid key: a string or a number. *)
Abbreviation key := (string + Z)%type.

Abbreviation IDBObjectStore := (gmap key object).

Abbreviation IDBDatabase := (gmap string IDBObjectStore).

Inductive IDBTransactionMode := readonly | readwrite.

(** The adapter and the browser it runs in.  [db] is [this.db] together
    with the content reached through it; [persisted] is what the browser
    already holds under [dbName] before the first [init]; [openError] is
    the browser's refusal to open the database, if any. *)
Record t := {
  db : option IDBDatabase;
  persisted : option IDBDatabase;
  openError : option string;
  logs : list string }.

Definition dbName : string := "mesi_takip_db".
Definition version : Z := 1.

Definition with_db (d : option IDBDatabase) (n : t) : t :=
  {| db := d; persisted := persisted n; openError := openError n; logs := logs n |}.

Definition with_log (text : string) (n : t) : t :=
  {| db := db n; persisted := persisted n; openError := openError n;
     logs := logs n ++ [text] |}.

Definition logger (text : string) : M t unit := modify (with_log text).

(** [if (!db.objectStoreNames.contains(name)) db.createObjectStore(name, { keyPath: 'id' })] *)
Definition ensureStore (name : string) (d : IDBDatabase) : IDBDatabase :=
  match d !! name with
  | Some _ => d
  | None => <[name := ∅]> d
  end.

(** [request.onupgradeneeded] *)
Definition onupgradeneeded (d : IDBDatabase) : IDBDatabase :=
  ensureStore "holidays"
    (ensureStore "leaves"
       (ensureStore "overtimes"
          (ensureStore "salaries"
             (ensureStore "users" d)))).

(** [indexedDB.open(dbName, version)]: the upgrade runs when no database
    of that name exists yet, before [onsuccess] stores the connection.
    The [catch] of [init] guards the construction of the promise only
    and sees neither outcome of the request. *)
Definition init : M t unit :=
  logger "Initializing Nano Database (IndexedDB)" ;;;
  let* refusal := gets openError in
  match refusal with
  | Some name =>
      logger "Failed to open database" ;;;
      throw (DOMException name)
  | None =>
      let* current := gets db in
      let* stored := gets persisted in
      match current, stored with
      | Some d, _ => modify (with_db (Some d))
      | None, Some d => modify (with_db (Some d))
      | None, None =>
          modify (with_db (Some (onupgradeneeded ∅))) ;;;
          logger "Database schema created"
      end ;;;
      logger "Nano Database initialized successfully"
  end.

(** [getStore]: the name of the store, once the transaction on it could
    be opened. *)
Definition getStore (storeName : string) (mode : IDBTransactionMode) : M t string :=
  let* current := gets db in
  match current with
  | None => throw (JsError "Database not initialized")
  | Some d =>
      match d !! storeName with
      | None => throw (DOMException "NotFoundError")
      | Some _ => ret storeName
      end
  end.

(** The key of a record under [keyPath: 'id']. *)
Definition key_of (data : object) : option key :=
  match data !! "id" with
  | Some (VStr s) => Some (inl s)
  | Some (VNum z) => Some (inr z)
  | _ => None
  end.

Definition records (storeName : string) (n : t) : IDBObjectStore :=
  default ∅ (db n ≫= (.!! storeName)).

Definition with_records (storeName : string) (s : IDBObjectStore) (n : t) : t :=
  with_db ((fun d => <[storeName := s]> d) <$> db n) n.

(** [store.add(data)] *)
Definition add (storeName : string) (data : object) : M t unit :=
  match key_of data with
  | None => throw (DOMException "DataError")
  | Some k =>
      let* s := gets (records storeName) in
      match s !! k with
      | Some _ => throw (DOMException "ConstraintError")
      | None => modify (with_records storeName (<[k := data]> s))
      end
  end.

(** [store.put(data)] *)
Definition put (storeName : string) (data : object) : M t unit :=
  match key_of data with
  | None => throw (DOMException "DataError")
  | Some k =>
      let* s := gets (records storeName) in
      modify (with_records storeName (<[k := data]> s))
  end.

(** In each method the [try] covers [getStore] only: the request runs in
    the returned promise, whose rejection the [catch] does not see. *)

Definition create (storeName : string) (data : object) : M t object :=
  let* store :=
    try_catch (getStore storeName readwrite)
      (fun error => logger ("Failed to create in " ++ storeName) ;;; throw error) in
  add store data ;;;
  ret data.

(** [resolve(request.result || null)]: a stored object is truthy. *)
Definition get (storeName id : string) : M t (option object) :=
  let* store :=
    try_catch (getStore storeName readonly)
      (fun error => logger ("Failed to get from " ++ storeName) ;;; throw error) in
  let* s := gets (records store) in
  ret (s !! inl id).

(** [resolve(request.result || [])] *)
Definition getAll (storeName : string) : M t (list object) :=
  let* store :=
    try_catch (getStore storeName readonly)
      (fun error => logger ("Failed to get all from " ++ storeName) ;;; throw error) in
  let* s := gets (records store) in
  ret ((map_to_list s).*2).

Definition update (storeName : string) (data : object) : M t object :=
  let* store :=
    try_catch (getStore storeName readwrite)
      (fun error => logger ("Failed to update in " ++ storeName) ;;; throw error) in
  put store data ;;;
  ret data.

Definition delete (storeName id : string) : M t unit :=
  let* store :=
    try_catch (getStore storeName readwrite)
      (fun error => logger ("Failed to delete from " ++ storeName) ;;; throw error) in
  let* s := gets (records store) in
  modify (with_records store (base.delete (inl id : key) s)).

Definition clear (storeName : string) : M t unit :=
  let* store :=
    try_catch (getStore storeName readwrite)
      (fun error => logger ("Failed to clear " ++ storeName) ;;; throw error) in
  modify (with_records store ∅).

Definition isInitialized (n : t) : bool := bool_decide (is_Some (db n)).

(** A browser that has never opened the database. *)
Definition fresh : t :=
  {| db := None; persisted := None; openError := None; logs := [] |}.

(** Every record is filed under its own [id]: what [keyPath: 'id']
    guarantees of any database the engine hands out. *)
Definition keyed (d : IDBDatabase) : Prop :=
  map_Forall
    (fun (_ : string) (s : IDBObjectStore) =>
       map_Forall (fun (k : key) (o : object) => key_of o = Some k) s)
    d.

Definition wf (n : t) : Prop :=
  from_option keyed True (db n) ∧ from_option keyed True (persisted n).

#[global] Instance wf_dec (n : t) : Decision (wf n).
Proof. unfold wf, keyed. destruct (db n), (persisted n); simpl; apply _. Defined.

End NanoDatabase.


(** ** The provider wired to the Supabase services

    [database/services/index.ts] exports the four Supabase services, and
    these are the objects the provider imports.  The salary, overtime and
    leave methods the provider calls are the ones modelled above.  The
    four user methods it calls, [getAllUsers], [createUser], [updateUser]
    and [deleteUser], are not methods of the [UserService] class, which
    has [create], [getById], [getAll], [update], [delete] and
    [createDemoUsers]: each of these calls finds [undefined] where it
    expects a function and throws a [TypeError] before anything is sent. *)

Module App.

(** [userService.getAllUsers()] and the like: the call of a property that
    is [undefined]. *)
Definition not_a_function {A} (method : string) : M Supabase.World A :=
  throw (JsError ("userService." ++ method ++ " is not a function")).

Section Wiring.

Variable parseInt : string -> option Z.

Definition services : NanoDataContext.Services.t Supabase.World :=
  {| NanoDataContext.Services.getAllUsers := not_a_function "getAllUsers";
     NanoDataContext.Services.createUser := fun _ => not_a_function "createUser";
     NanoDataContext.Services.updateUser := fun _ _ => not_a_function "updateUser";
     NanoDataContext.Services.deleteUser := fun _ => not_a_function "deleteUser";
     NanoDataContext.Services.getAllSalaries := SalaryService.getAllSalaries;
     NanoDataContext.Services.createSalary := SalaryService.createSalary;
     NanoDataContext.Services.updateSalary :=
       fun id updates =>
         let* salary := SalaryService.updateSalary parseInt id updates in ret (Some salary);
     NanoDataContext.Services.deleteSalary := SalaryService.deleteSalary;
     NanoDataContext.Services.getAllOvertimes := OvertimeService.getAllOvertimes;
     NanoDataContext.Services.createOvertime := OvertimeService.createOvertime;
     NanoDataContext.Services.updateOvertime :=
       fun id updates =>
         let* overtime := OvertimeService.updateOvertime id updates in ret (Some overtime);
     NanoDataContext.Services.deleteOvertime := OvertimeService.deleteOvertime;
     NanoDataContext.Services.getAllLeaves := LeaveService.getAllLeaves;
     NanoDataContext.Services.createLeave := LeaveService.createLeave;
     NanoDataContext.Services.updateLeave :=
       fun id updates =>
         let* leave := LeaveService.updateLeave id updates in ret (Some leave);
     NanoDataContext.Services.deleteLeave := LeaveService.deleteLeave |}.

End Wiring.

End App.

(** ** Concrete inputs for running the model *)

Module Sample.

(** A reading of plain decimal numerals ([-12], [2024]); it stands for
    [parseInt] and for the backend's integer cast on such input. *)
Definition digit_of (a : Ascii.ascii) : option Z :=
  let n := Z.of_nat (Ascii.nat_of_ascii a) in
  if (48 <=? n) && (n <=? 57) then Some (n - 48) else None.

Fixpoint digits (s : string) (acc : Z) (seen : bool) : option Z :=
  match s with
  | EmptyString => if seen then Some acc else None
  | String a s' =>
      match digit_of a with
      | Some d => digits s' (10 * acc + d) true
      | None => if seen then Some acc else None
      end
  end.

Definition parseDecimal (s : string) : option Z :=
  match s with
  | String "-"%char s' => Z.opp <$> digits s' 0 false
  | String "+"%char s' => digits s' 0 false
  | _ => digits s 0 false
  end.

Definition numeral (n : nat) : string := NilZero.string_of_uint (Nat.to_uint n).

(** A configured backend with empty tables that accepts every request. *)
Definition emptyWorld : Supabase.World :=
  {| Supabase.isConfigured := true;
     Supabase.clock := fun n => "2024-01-01T00:00:" ++ numeral n;
     Supabase.ticks := 10;
     Supabase.idgen := fun n => "row-" ++ numeral n;
     Supabase.issued := 0;
     Supabase.int4in := parseDecimal;
     Supabase.faults := [];
     Supabase.requests := [];
     Supabase.users := [];
     Supabase.salaries := [];
     Supabase.overtimes := [];
     Supabase.leaves := [];
     Supabase.logs := [] |}.

(** The same backend about to refuse its next request. *)
Definition refusal : PostgrestError :=
  {| pg_code := "42501"; pg_message := "permission denied for table" |}.

Definition with_faults (f : list (option PostgrestError)) (w : Supabase.World)
  : Supabase.World :=
  {| Supabase.isConfigured := Supabase.isConfigured w;
     Supabase.clock := Supabase.clock w;
     Supabase.ticks := Supabase.ticks w;
     Supabase.idgen := Supabase.idgen w;
     Supabase.issued := Supabase.issued w;
     Supabase.int4in := Supabase.int4in w;
     Supabase.faults := f;
     Supabase.requests := Supabase.requests w;
     Supabase.users := Supabase.users w;
     Supabase.salaries := Supabase.salaries w;
     Supabase.overtimes := Supabase.overtimes w;
     Supabase.leaves := Supabase.leaves w;
     Supabase.logs := Supabase.logs w |}.

(** [{ userId: 'demo-user-1', baseSalary: 15000, overtimePay: 2000, ... }] *)
Definition salaryData : SalaryService.Data.t :=
  {| SalaryService.Data.userId := "demo-user-1";
     SalaryService.Data.baseSalary := 15000;
     SalaryService.Data.overtimePay := Some 2000;
     SalaryService.Data.paymentDate := "2024-01-31";
     SalaryService.Data.month := "1";
     SalaryService.Data.year := "2024" |}.

Definition overtimeData : OvertimeService.Data.t :=
  {| OvertimeService.Data.userId := "demo-user-1";
     OvertimeService.Data.date := "2024-01-15";
     OvertimeService.Data.hours := 8;
     OvertimeService.Data.description := Some "Project deadline";
     OvertimeService.Data.status := Some "pending" |}.

Definition leaveData : LeaveService.Data.t :=
  {| LeaveService.Data.userId := "demo-user-1";
     LeaveService.Data.startDate := "2024-02-01";
     LeaveService.Data.endDate := "2024-02-05";
     LeaveService.Data.type := "annual";
     LeaveService.Data.status := Some "pending" |}.

(** The first demo salary of [createDemoData] in the adapter. *)
Definition demoSalary : NanoDatabase.object :=
  list_to_map
    [ ("id", NanoDatabase.VStr "salary-1");
      ("userId", NanoDatabase.VStr "demo-user-1");
      ("baseSalary", NanoDatabase.VNum 25000);
      ("overtimePay", NanoDatabase.VNum 2000);
      ("paymentDate", NanoDatabase.VStr "2024-11-30");
      ("month", NanoDatabase.VNum 11);
      ("year", NanoDatabase.VNum 2024) ].

(** A second salary of the same user, for the month after. *)
Definition laterSalary : NanoDatabase.object :=
  list_to_map
    [ ("id", NanoDatabase.VStr "salary-2");
      ("userId", NanoDatabase.VStr "demo-user-1");
      ("baseSalary", NanoDatabase.VNum 25000);
      ("overtimePay", NanoDatabase.VNum 0);
      ("paymentDate", NanoDatabase.VStr "2024-12-31");
      ("month", NanoDatabase.VNum 12);
      ("year", NanoDatabase.VNum 2024) ].

Definition demoOvertime : NanoDatabase.object :=
  list_to_map
    [ ("id", NanoDatabase.VStr "overtime-1");
      ("userId", NanoDatabase.VStr "demo-user-1");
      ("date", NanoDatabase.VStr "2024-11-15");
      ("hours", NanoDatabase.VNum 8);
      ("reason", NanoDatabase.VStr "Proje teslimi");
      ("status", NanoDatabase.VStr "approved") ].

End Sample.


(** * Vocabulary of the statements *)

(** ** The browser database *)

Module Browser.

(** The adapter after [init] in a browser that never held the database. *)
Definition ready : NanoDatabase.t := snd (NanoDatabase.init NanoDatabase.fresh).

(** ... and after the demo salary and the demo overtime were created. *)
Definition stocked : NanoDatabase.t :=
  snd ((NanoDatabase.create "salaries" Sample.demoSalary ;;;
        NanoDatabase.create "overtimes" Sample.demoOvertime) ready).

(** ... and after the second salary was created as well. *)
Definition paired : NanoDatabase.t :=
  snd (NanoDatabase.create "salaries" Sample.laterSalary stocked).

End Browser.

(** ** The service layer *)

Module Backend.
Import Supabase.

Definition same_tables (w w' : World) : Prop :=
  users w' = users w ∧ salaries w' = salaries w ∧
  overtimes w' = overtimes w ∧ leaves w' = leaves w.

(** [op] answers a refused request by throwing the backend's error
    object itself, after exactly one round trip and without touching any
    table. *)
Definition rethrows_verbatim {A} (op : M World A) (table : string) (verb : Verb)
  : Prop :=
  ∀ (w : World) (e : PostgrestError) (rest : list (option PostgrestError)),
    isConfigured w = true →
    faults w = Some e :: rest →
    ∃ w',
      op w = (Throw (BackendError e), w') ∧
      requests w' = (requests w ++ [{| req_table := table; req_verb := verb |}])%list ∧
      faults w' = rest ∧
      same_tables w w'.

(** On a configured client every run of [op] makes exactly one request,
    and whatever it throws is an error object of the backend. *)
Definition one_round_trip {A} (op : M World A) (table : string) (verb : Verb)
  : Prop :=
  ∀ (w w' : World) (r : Result A),
    isConfigured w = true →
    op w = (r, w') →
    requests w' = (requests w ++ [{| req_table := table; req_verb := verb |}])%list ∧
    ∀ ex, r = Throw ex → ∃ e, ex = BackendError e.

Definition passes_errors_through {A} (op : M World A) (table : string) (verb : Verb)
  : Prop :=
  rethrows_verbatim op table verb ∧ one_round_trip op table verb.

(** The next request is accepted. *)
Definition accepts (w : World) : Prop := mjoin (head (faults w)) = None.

(** A column keeps its value on every row. *)
Definition unchanged {Row C : Type} (column : Row → C) (before after : list Row)
  : Prop :=
  Forall2 (fun r r' => column r' = column r) before after.

(** [r'] is [r], or differs from it in [status] alone, and this only
    where the row has the given id. *)
Definition overtime_status_frame (id : string) (r r' : OvertimeRow.t) : Prop :=
  OvertimeRow.id r' = OvertimeRow.id r ∧
  OvertimeRow.user_id r' = OvertimeRow.user_id r ∧
  OvertimeRow.date r' = OvertimeRow.date r ∧
  OvertimeRow.hours r' = OvertimeRow.hours r ∧
  OvertimeRow.reason r' = OvertimeRow.reason r ∧
  OvertimeRow.created_at r' = OvertimeRow.created_at r ∧
  (OvertimeRow.id r ≠ id → r' = r).

Definition leave_status_frame (id : string) (r r' : LeaveRow.t) : Prop :=
  LeaveRow.id r' = LeaveRow.id r ∧
  LeaveRow.user_id r' = LeaveRow.user_id r ∧
  LeaveRow.start_date r' = LeaveRow.start_date r ∧
  LeaveRow.end_date r' = LeaveRow.end_date r ∧
  LeaveRow.type r' = LeaveRow.type r ∧
  LeaveRow.created_at r' = LeaveRow.created_at r ∧
  (LeaveRow.id r ≠ id → r' = r).

(** [{ status }] as a [Partial<Overtime>] and as a [Partial<Leave>]. *)
Definition overtimeStatus (status : string) : OvertimeService.Partial.t :=
  {| OvertimeService.Partial.date := None;
     OvertimeService.Partial.hours := None;
     OvertimeService.Partial.description := None;
     OvertimeService.Partial.status := Some status |}.

Definition leaveStatus (status : string) : LeaveService.Partial.t :=
  {| LeaveService.Partial.startDate := None;
     LeaveService.Partial.endDate := None;
     LeaveService.Partial.type := None;
     LeaveService.Partial.status := Some status |}.

(** The invariant of the derived field. *)
Definition gross_is_sum (s : Salary.t) : Prop :=
  Salary.grossSalary s = Salary.baseSalary s + Salary.overtimePay s ∧
  Salary.grossSalary s = Salary.baseSalary s + Salary.overtimePay s + Salary.bonus s.

(** What a status update may do to the world, as seen from any run of
    [op]: the other tables are as they were, every row of the table is as
    it was except for the [status] of the rows with the id, and after a
    successful run with a non-empty status those rows, and the record
    returned, carry the new status. *)
Definition touches_only_overtime_status (id status : string)
    (op : M World Overtime.t) : Prop :=
  ∀ (w w' : World) (r : Result Overtime.t),
    op w = (r, w') →
    users w' = users w ∧ salaries w' = salaries w ∧ leaves w' = leaves w ∧
    Forall2 (overtime_status_frame id) (overtimes w) (overtimes w') ∧
    (∀ o, r = Ok o → status ≠ "" →
       Overtime.id o = id ∧ Overtime.status o = status ∧
       Forall (fun row => OvertimeRow.id row = id → OvertimeRow.status row = status)
         (overtimes w')).

Definition touches_only_leave_status (id status : string)
    (op : M World Leave.t) : Prop :=
  ∀ (w w' : World) (r : Result Leave.t),
    op w = (r, w') →
    users w' = users w ∧ salaries w' = salaries w ∧ overtimes w' = overtimes w ∧
    Forall2 (leave_status_frame id) (leaves w) (leaves w') ∧
    (∀ o, r = Ok o → status ≠ "" →
       Leave.id o = id ∧ Leave.status o = status ∧
       Forall (fun row => LeaveRow.id row = id → LeaveRow.status row = status)
         (leaves w')).

(** The sample backend after one salary, one overtime and one leave were
    created: their ids are [row-0], [row-1] and [row-2]. *)
Definition seeded : World :=
  snd ((SalaryService.create Sample.salaryData ;;;
        OvertimeService.create Sample.overtimeData ;;;
        LeaveService.create Sample.leaveData) Sample.emptyWorld).

End Backend.

(** ** The state store *)

Module Provider.
Import NanoDataContext.

(** The operations the provider hands to its consumers (the members of
    [value]), with their arguments. *)
Inductive Operation :=
| RefreshData
| CreateUser (userData : UserService.Data.t)
| UpdateUser (id : string) (userData : UserService.Partial.t)
| DeleteUser (id : string)
| CreateSalary (salaryData : SalaryService.Data.t)
| UpdateSalary (id : string) (salaryData : SalaryService.Partial.t)
| DeleteSalary (id : string)
| CreateOvertime (overtimeData : OvertimeService.Data.t)
| UpdateOvertime (id : string) (overtimeData : OvertimeService.Partial.t)
| DeleteOvertime (id : string)
| UpdateOvertimeStatus (id status : string)
| CreateLeave (leaveData : LeaveService.Data.t)
| UpdateLeave (id : string) (leaveData : LeaveService.Partial.t)
| DeleteLeave (id : string)
| UpdateLeaveStatus (id status : string)
| ClearErrors.

(** The exception an operation ends with, if any, next to the state it
    leaves. *)
Definition thrown {A S : Type} (r : Result A * S) : option exn * S :=
  match r with
  | (Ok _, s) => (None, s)
  | (Throw e, s) => (Some e, s)
  end.

Definition run {W : Type} (svc : Services.t W) (op : Operation) (st : Store W)
  : option exn * Store W :=
  match op with
  | RefreshData => thrown (refreshData svc st)
  | CreateUser d => thrown (createUser svc d st)
  | UpdateUser id d => thrown (updateUser svc id d st)
  | DeleteUser id => thrown (deleteUser svc id st)
  | CreateSalary d => thrown (createSalary svc d st)
  | UpdateSalary id d => thrown (updateSalary svc id d st)
  | DeleteSalary id => thrown (deleteSalary svc id st)
  | CreateOvertime d => thrown (createOvertime svc d st)
  | UpdateOvertime id d => thrown (updateOvertime svc id d st)
  | DeleteOvertime id => thrown (deleteOvertime svc id st)
  | UpdateOvertimeStatus id s => thrown (updateOvertimeStatus svc id s st)
  | CreateLeave d => thrown (createLeave svc d st)
  | UpdateLeave id d => thrown (updateLeave svc id d st)
  | DeleteLeave id => thrown (deleteLeave svc id st)
  | UpdateLeaveStatus id s => thrown (updateLeaveStatus svc id s st)
  | ClearErrors => thrown (clearErrors st)
  end.

(** The store an operation leaves behind, whatever it returns. *)
Definition exec {W : Type} (svc : Services.t W) (op : Operation) (st : Store W)
  : Store W :=
  snd (run svc op st).

(** [{ type: 'SET_LOADING', loading: false }] *)
Definition resets_loading (a : NanoDataAction) : bool :=
  match a with
  | SET_LOADING _ false => true
  | _ => false
  end.

(** The entity whose service an operation calls, and the message it
    stores when that call throws ([refreshData] is treated apart). *)
Definition failure_slot (op : Operation) : option (Entity.t * string) :=
  match op with
  | RefreshData | ClearErrors => None
  | CreateUser _ => Some (Entity.users, msg_createUser)
  | UpdateUser _ _ => Some (Entity.users, msg_updateUser)
  | DeleteUser _ => Some (Entity.users, msg_deleteUser)
  | CreateSalary _ => Some (Entity.salaries, msg_createSalary)
  | UpdateSalary _ _ => Some (Entity.salaries, msg_updateSalary)
  | DeleteSalary _ => Some (Entity.salaries, msg_deleteSalary)
  | CreateOvertime _ => Some (Entity.overtimes, msg_createOvertime)
  | UpdateOvertime _ _ | UpdateOvertimeStatus _ _ =>
      Some (Entity.overtimes, msg_updateOvertime)
  | DeleteOvertime _ => Some (Entity.overtimes, msg_deleteOvertime)
  | CreateLeave _ => Some (Entity.leaves, msg_createLeave)
  | UpdateLeave _ _ | UpdateLeaveStatus _ _ => Some (Entity.leaves, msg_updateLeave)
  | DeleteLeave _ => Some (Entity.leaves, msg_deleteLeave)
  end.

(** The exception, if any, thrown by the service call an operation makes
    from the given world. *)
Definition service_failure {W : Type} (svc : Services.t W) (op : Operation) (w : W)
  : option exn :=
  let failure {A} (r : Result A * W) : option exn :=
    match r with
    | (Throw e, _) => Some e
    | (Ok _, _) => None
    end in
  match op with
  | RefreshData | ClearErrors => None
  | CreateUser d => failure (Services.createUser svc d w)
  | UpdateUser id d => failure (Services.updateUser svc id d w)
  | DeleteUser id => failure (Services.deleteUser svc id w)
  | CreateSalary d => failure (Services.createSalary svc d w)
  | UpdateSalary id d => failure (Services.updateSalary svc id d w)
  | DeleteSalary id => failure (Services.deleteSalary svc id w)
  | CreateOvertime d => failure (Services.createOvertime svc d w)
  | UpdateOvertime id d => failure (Services.updateOvertime svc id d w)
  | DeleteOvertime id => failure (Services.deleteOvertime svc id w)
  | UpdateOvertimeStatus id s =>
      failure (Services.updateOvertime svc id (Backend.overtimeStatus s) w)
  | CreateLeave d => failure (Services.createLeave svc d w)
  | UpdateLeave id d => failure (Services.updateLeave svc id d w)
  | DeleteLeave id => failure (Services.deleteLeave svc id w)
  | UpdateLeaveStatus id s =>
      failure (Services.updateLeave svc id (Backend.leaveStatus s) w)
  end.

(** [s'] is [s] except that the error field of [entity] holds [msg]. *)
Definition only_error_set (entity : Entity.t) (msg : string)
    (s s' : NanoDataState) : Prop :=
  users s' = users s ∧ salaries s' = salaries s ∧
  overtimes s' = overtimes s ∧ leaves s' = leaves s ∧
  loadingStates s' = loadingStates s ∧
  Errors.get entity (errors s') = Some msg ∧
  ∀ e', e' ≠ entity → Errors.get e' (errors s') = Errors.get e' (errors s).

(** The loading flag of [entity] in a state. *)
Definition loading (entity : Entity.t) (s : NanoDataState) : bool :=
  LoadingStates.get entity (loadingStates s).

(** The error field of [entity] in a state. *)
Definition error (entity : Entity.t) (s : NanoDataState) : option string :=
  Errors.get entity (errors s).

(** A store that has dispatched nothing yet. *)
Definition mount {W : Type} (w : W) : Store W :=
  {| state := initialState; dispatched := []; logged := []; world := w |}.

(** The provider as the repository wires it, with the sample reading of
    numerals for [parseInt]. *)
Definition services : Services.t Supabase.World :=
  App.services Sample.parseDecimal.

(** The sample backend about to refuse its first request. *)
Definition refusing : Supabase.World :=
  Sample.with_faults [Some Sample.refusal] Sample.emptyWorld.

End Provider.

(** * The rest of the data layer *)

(** ** utils/logger.ts

    The logger every module above writes to: a level threshold, a buffer
    of the last [maxLogs] entries, and console output in development
    builds.  [Data] is the type of the optional [data] argument. *)

Module Logger.

Inductive LogLevel := DEBUG | INFO | WARN | ERROR | NONE.

#[global] Instance LogLevel_eq_dec : EqDecision LogLevel.
Proof. solve_decision. Defined.

(** The numeric value of an enum member. *)
Definition value (l : LogLevel) : Z :=
  match l with
  | DEBUG => 0
  | INFO => 1
  | WARN => 2
  | ERROR => 3
  | NONE => 4
  end.

(** [array.slice(-n)] for [n >= 0]: the last [n] elements, and the whole
    array for [n = 0] (the start index is then [-0], that is [0]). *)
Definition slice_last {A} (n : nat) (l : list A) : list A :=
  match n with
  | O => l
  | S _ => drop (length l - n) l
  end.

Definition levelNames : list string := ["DEBUG"; "INFO"; "WARN"; "ERROR"].

Definition levelColors : list string := ["#6B7280"; "#3B82F6"; "#F59E0B"; "#EF4444"].

(** [names[level]] inside a template literal: a missing element prints as
    [undefined]. *)
Definition at_level (names : list string) (l : LogLevel) : string :=
  default "undefined" (names !! Z.to_nat (value l)).

Section WithData.

Context {Data : Type}.

(** Truthiness of a [data] value, for [entry.data || '']. *)
Variable truthy : Data -> bool.

Record LogEntry := {
  timestamp : string;
  level : LogLevel;
  message : string;
  data : option Data;
  source : string }.

(** One call of [console.log]: the format string, the style, and the
    third argument ([None] is the empty string). *)
Record ConsoleCall := {
  format : string;
  style : string;
  shown : option Data }.

(** The singleton, with [import.meta.env.DEV] and the clock it reads. *)
Record t := {
  logLevel : LogLevel;
  logs : list LogEntry;
  maxLogs : nat;
  DEV : bool;
  clock : nat -> string;
  ticks : nat;
  console : list ConsoleCall }.

(** [new Logger()] *)
Definition create (dev : bool) (clock : nat -> string) : t :=
  {| logLevel := if dev then DEBUG else WARN;
     logs := [];
     maxLogs := 1000;
     DEV := dev;
     clock := clock;
     ticks := O;
     console := [] |}.

Definition shouldLog (level : LogLevel) (g : t) : bool :=
  bool_decide (value (logLevel g) ≤ value level).

(** [formatMessage] reads the clock once. *)
Definition formatMessage (level : LogLevel) (message : string) (data : option Data)
    (source : option string) (g : t) : LogEntry * t :=
  ({| timestamp := clock g (ticks g);
      level := level;
      message := message;
      data := data;
      source := str_or source "App" |},
   {| logLevel := logLevel g; logs := logs g; maxLogs := maxLogs g; DEV := DEV g;
      clock := clock g; ticks := S (ticks g); console := console g |}).

Definition consoleCall (entry : LogEntry) : ConsoleCall :=
  {| format :=
       "%c[" ++ timestamp entry ++ "] " ++ at_level levelNames (level entry)
       ++ " [" ++ source entry ++ "]: " ++ message entry;
     style := "color: " ++ at_level levelColors (level entry) ++ "; font-weight: bold";
     shown :=
       match data entry with
       | Some d => if truthy d then Some d else None
       | None => None
       end |}.

Definition log (entry : LogEntry) (g : t) : t :=
  let pushed := (logs g ++ [entry])%list in
  {| logLevel := logLevel g;
     logs :=
       if decide (maxLogs g < length pushed)%nat
       then slice_last (maxLogs g) pushed
       else pushed;
     maxLogs := maxLogs g;
     DEV := DEV g;
     clock := clock g;
     ticks := ticks g;
     console :=
       if DEV g then (console g ++ [consoleCall entry])%list else console g |}.

Definition debug (message : string) (data : option Data) (source : option string)
    (g : t) : t :=
  if shouldLog DEBUG g
  then let '(entry, g') := formatMessage DEBUG message data source g in log entry g'
  else g.

Definition info (message : string) (data : option Data) (source : option string)
    (g : t) : t :=
  if shouldLog INFO g
  then let '(entry, g') := formatMessage INFO message data source g in log entry g'
  else g.

Definition warn (message : string) (data : option Data) (source : option string)
    (g : t) : t :=
  if shouldLog WARN g
  then let '(entry, g') := formatMessage WARN message data source g in log entry g'
  else g.

Definition error (message : string) (data : option Data) (source : option string)
    (g : t) : t :=
  if shouldLog ERROR g
  then let '(entry, g') := formatMessage ERROR message data source g in log entry g'
  else g.

(** [getLogs(level?)]: [None] is a call without argument. *)
Definition getLogs (atLeast : option LogLevel) (g : t) : list LogEntry :=
  match atLeast with
  | Some l => filter (fun entry => value l ≤ value (level entry)) (logs g)
  | None => logs g
  end.

Definition clearLogs (g : t) : t :=
  {| logLevel := logLevel g; logs := []; maxLogs := maxLogs g; DEV := DEV g;
     clock := clock g; ticks := ticks g; console := console g |}.

Definition setLogLevel (level : LogLevel) (g : t) : t :=
  {| logLevel := level; logs := logs g; maxLogs := maxLogs g; DEV := DEV g;
     clock := clock g; ticks := ticks g; console := console g |}.

(** The calls a client can make on the logger. *)
Inductive Call :=
| CallDebug (message : string) (data : option Data) (source : option string)
| CallInfo (message : string) (data : option Data) (source : option string)
| CallWarn (message : string) (data : option Data) (source : option string)
| CallError (message : string) (data : option Data) (source : option string)
| CallClearLogs
| CallSetLogLevel (level : LogLevel).

Definition call (c : Call) (g : t) : t :=
  match c with
  | CallDebug m d s => debug m d s g
  | CallInfo m d s => info m d s g
  | CallWarn m d s => warn m d s g
  | CallError m d s => error m d s g
  | CallClearLogs => clearLogs g
  | CallSetLogLevel l => setLogLevel l g
  end.

Definition calls (cs : list Call) (g : t) : t :=
  fold_left (fun g c => call c g) cs g.

(** The level a logging call writes at. *)
Definition written_at (c : Call) : option LogLevel :=
  match c with
  | CallDebug _ _ _ => Some DEBUG
  | CallInfo _ _ _ => Some INFO
  | CallWarn _ _ _ => Some WARN
  | CallError _ _ _ => Some ERROR
  | CallClearLogs | CallSetLogLevel _ => None
  end.

Definition changes_level (c : Call) : bool :=
  match c with
  | CallSetLogLevel _ => true
  | _ => false
  end.

End WithData.

Arguments LogEntry : clear implicits.
Arguments ConsoleCall : clear implicits.
Arguments t : clear implicits.
Arguments Call : clear implicits.

End Logger.

(** A development logger with string data and a clock that numbers its
    readings. *)
Module LoggerSample.

Definition truthy (d : string) : bool := negb (String.eqb d "").

Definition dev : Logger.t string :=
  Logger.create true (fun n => "t" ++ Sample.numeral n).

Definition prod : Logger.t string :=
  Logger.create false (fun n => "t" ++ Sample.numeral n).

(** The four calls of the test 'should respect log levels'. *)
Definition fourCalls : list (Logger.Call string) :=
  [ Logger.CallDebug "Debug message" None None;
    Logger.CallInfo "Info message" None None;
    Logger.CallWarn "Warning message" None None;
    Logger.CallError "Error message" None None ].

(** A logger whose buffer holds three entries of at most three. *)
Definition full : Logger.t string :=
  Logger.calls truthy
    [ Logger.CallInfo "Message 0" None None;
      Logger.CallInfo "Message 1" None None;
      Logger.CallInfo "Message 2" None None ]
    {| Logger.logLevel := Logger.DEBUG; Logger.logs := []; Logger.maxLogs := 3;
       Logger.DEV := true; Logger.clock := fun n => "t" ++ Sample.numeral n;
       Logger.ticks := O; Logger.console := [] |}.

End LoggerSample.

(** ** database/browserDatabase.ts: the demo data *)

(** [for (const x of l) await f(x)] *)
Fixpoint for_each {S A} (l : list A) (f : A -> M S unit) : M S unit :=
  match l with
  | [] => ret tt
  | x :: l' => f x ;;; for_each l' f
  end.

Module DemoData.
Import NanoDatabase.

(** The object stores [onupgradeneeded] creates, and the four of them
    [createDemoData] fills. *)
Definition schemaStores : list string :=
  ["users"; "salaries"; "overtimes"; "leaves"; "holidays"].

Definition demoStores : list string :=
  ["users"; "salaries"; "overtimes"; "leaves"].

(** The database is open and has an object store of that name. *)
Definition opened (storeName : string) (n : t) : Prop :=
  is_Some (db n ≫= (.!! storeName)).

Section WithClock.

(** The successive readings of [new Date().toISOString()] taken while
    the four arrays are built. *)
Variable clock : nat -> string.

Definition demoUsers : list object :=
  [ list_to_map
      [ ("id", VStr "demo-user-1");
        ("email", VStr "ahmet@company.com");
        ("name", VStr "Ahmet Yılmaz");
        ("role", VStr "user");
        ("created_at", VStr (clock 0%nat));
        ("updated_at", VStr (clock 1%nat)) ];
    list_to_map
      [ ("id", VStr "demo-user-2");
        ("email", VStr "admin@company.com");
        ("name", VStr "Admin User");
        ("role", VStr "admin");
        ("created_at", VStr (clock 2%nat));
        ("updated_at", VStr (clock 3%nat)) ] ].

Definition demoSalaries : list object :=
  [ list_to_map
      [ ("id", VStr "salary-1");
        ("userId", VStr "demo-user-1");
        ("baseSalary", VNum 25000);
        ("overtimePay", VNum 2000);
        ("paymentDate", VStr "2024-11-30");
        ("month", VNum 11);
        ("year", VNum 2024);
        ("created_at", VStr (clock 4%nat)) ] ].

Definition demoOvertimes : list object :=
  [ list_to_map
      [ ("id", VStr "overtime-1");
        ("userId", VStr "demo-user-1");
        ("date", VStr "2024-11-15");
        ("hours", VNum 8);
        ("reason", VStr "Proje teslimi");
        ("status", VStr "approved");
        ("created_at", VStr (clock 5%nat)) ] ].

Definition demoLeaves : list object :=
  [ list_to_map
      [ ("id", VStr "leave-1");
        ("userId", VStr "demo-user-1");
        ("startDate", VStr "2024-12-01");
        ("endDate", VStr "2024-12-03");
        ("type", VStr "annual");
        ("status", VStr "approved");
        ("created_at", VStr (clock 6%nat)) ] ].

(** Here every call is awaited inside the [try], so the [catch] sees the
    rejections as well. *)
Definition createDemoData : M t unit :=
  try_catch
    (logger "Creating demo data" ;;;
     clear "users" ;;;
     clear "salaries" ;;;
     clear "overtimes" ;;;
     clear "leaves" ;;;
     for_each demoUsers (fun user => create "users" user ;;; ret tt) ;;;
     for_each demoSalaries (fun salary => create "salaries" salary ;;; ret tt) ;;;
     for_each demoOvertimes (fun overtime => create "overtimes" overtime ;;; ret tt) ;;;
     for_each demoLeaves (fun leave => create "leaves" leave ;;; ret tt) ;;;
     logger "Demo data created successfully")
    (fun error =>
       logger "Failed to create demo data" ;;;
       throw error).

End WithClock.

End DemoData.

(** ** The service layer: configuration, reads and missing rows *)

Module Behaviour.
Import Supabase.

(** [new Error('Supabase is not configured. ...')] *)
Definition not_configured : exn :=
  JsError "Supabase is not configured. Please check your environment variables.".

(** Without a configured client [op] throws that error before any
    request is made, and no table changes. *)
Definition needs_configuration {A} (op : M World A) : Prop :=
  ∀ w : World,
    isConfigured w = false →
    ∃ w',
      op w = (Throw not_configured, w') ∧
      requests w' = requests w ∧
      faults w' = faults w ∧
      Backend.same_tables w w'.

(** A list is in descending order of the given timestamp. *)
Definition newest_first_by {A} (created_at : A → string) (l : list A) : Prop :=
  Sorted (fun a b => Is_true (String.leb (created_at b) (created_at a))) l.

(** [op] fails with the error of [.single()] and writes nothing. *)
Definition finds_no_row {A} (op : M World A) (w : World) : Prop :=
  ∃ w',
    op w = (Throw (BackendError PGRST116), w') ∧ Backend.same_tables w w'.

(** [op] succeeds and writes nothing. *)
Definition succeeds_without_change (op : M World unit) (w : World) : Prop :=
  ∃ w', op w = (Ok tt, w') ∧ Backend.same_tables w w'.

End Behaviour.

(** ** The state store: what its lists hold *)

Module StoreView.
Import NanoDataContext Provider.

(** The ids of the records of the four lists, in the order of the
    lists. *)
Definition ids (s : NanoDataState) : list string * list string * list string * list string :=
  (map User.id (users s), map Salary.id (salaries s),
   map Overtime.id (overtimes s), map Leave.id (leaves s)).

(** The six operations that update a record. *)
Definition is_update (op : Operation) : bool :=
  match op with
  | UpdateUser _ _ | UpdateSalary _ _ | UpdateOvertime _ _ | UpdateOvertimeStatus _ _
  | UpdateLeave _ _ | UpdateLeaveStatus _ _ => true
  | _ => false
  end.

(** The operations that call one service method and store a message of
    their own when it throws: all but [refreshData] and [clearErrors]. *)
Definition is_single_call (op : Operation) : bool :=
  match op with
  | RefreshData | ClearErrors => false
  | _ => true
  end.


End StoreView.

(** ** utils/errorHandler.ts: retries, messages and the global handler *)

(** [String.prototype.includes] with one argument: [t] occurs in [s] at
    some position. *)
Module JsString.

Fixpoint includes (s t : string) : bool :=
  String.prefix t s ||
  match s with
  | EmptyString => false
  | String _ s' => includes s' t
  end.

End JsString.

Module Retry.

(** What a [throw] statement throws: a caught value, or [undefined]
    when [lastError] was never assigned. *)
Inductive Thrown :=
| Caught (error : exn)
| JsUndefined.

(** The calls [retryWithBackoff] makes on the logger. *)
Inductive LogCall :=
| LogError (message : string) (error : exn)
| LogDebug (message : string) (error : exn).

Section WithOperation.

(** The operation [fn] and the state it acts on. *)
Context {S A : Type}.
Variable fn : M S A.

(** The state of [fn], the number of times [fn] was called, the delays
    waited for with [setTimeout] and the logger calls, in order. *)
Record Env := {
  inner : S;
  calls : nat;
  slept : list Z;
  logged : list LogCall }.

(** [await fn()] *)
Definition attempt (env : Env) : Result A * Env :=
  let '(r, s) := fn (inner env) in
  (r, {| inner := s; calls := Datatypes.S (calls env); slept := slept env;
         logged := logged env |}).

Definition sleep (delay : Z) (env : Env) : Env :=
  {| inner := inner env; calls := calls env;
     slept := (slept env ++ [delay])%list; logged := logged env |}.

Definition log (c : LogCall) (env : Env) : Env :=
  {| inner := inner env; calls := calls env; slept := slept env;
     logged := (logged env ++ [c])%list |}.

(** The [for] loop, entered with [attempt] and [lastError]; [left] is
    the number of iterations its header still admits,
    [maxRetries - attempt + 1]. *)
Fixpoint loop (left : nat) (attempt_no maxRetries baseDelay : Z) (lastError : Thrown)
    (env : Env) : (A + Thrown) * Env :=
  match left with
  | O => (inr lastError, env)
  | Datatypes.S left' =>
      match attempt env with
      | (Ok a, env) => (inl a, env)
      | (Throw error, env) =>
          if decide (attempt_no = maxRetries)
          then
            (inr (Caught error),
             log (LogError ("Max retries (" ++ pretty maxRetries ++ ") reached") error)
               env)
          else
            let delay := baseDelay * 2 ^ (attempt_no - 1) in
            loop left' (attempt_no + 1) maxRetries baseDelay (Caught error)
              (sleep delay
                 (log (LogDebug
                         ("Retry attempt " ++ pretty attempt_no ++ "/"
                          ++ pretty maxRetries ++ " failed, retrying in "
                          ++ pretty delay ++ "ms")
                         error)
                    env))
      end
  end.

(** [retryWithBackoff(fn, maxRetries, baseDelay)] for whole numbers. *)
Definition retryWithBackoff (maxRetries baseDelay : Z) (env : Env)
  : (A + Thrown) * Env :=
  loop (Z.to_nat maxRetries) 1 maxRetries baseDelay JsUndefined env.

(** [retryOperation(operation, maxRetries, delay)] *)
Definition retryOperation (maxRetries delay : Z) (env : Env) : (A + Thrown) * Env :=
  retryWithBackoff maxRetries delay env.

(** [fn] throws whenever it is called. *)
Definition always_throws : Prop :=
  ∀ s, ∃ e s', fn s = (Throw e, s').

(** The delays of [n] failed attempts that were followed by a retry. *)
Definition backoff (baseDelay : Z) (n : nat) : list Z :=
  map (fun k => baseDelay * 2 ^ Z.of_nat k) (seq 0 n).

End WithOperation.

Arguments Env : clear implicits.

End Retry.

Module RetrySample.

(** An operation that counts its calls and always fails. *)
Definition failing : M nat unit :=
  fun n => (Throw (JsError "unavailable"), S n).

Definition idle : Retry.Env nat :=
  {| Retry.inner := O; Retry.calls := O; Retry.slept := []; Retry.logged := [] |}.

End RetrySample.

Module ErrorReport.
Import ErrorHandler.

(** [isNetworkError(error)] as a condition; [onLine] is
    [navigator.onLine]. *)
Definition isNetworkError (onLine : bool) (error : ErrorLike) : bool :=
  bool_decide (code error = Some "NETWORK_ERROR") ||
  from_option (fun m => JsString.includes m "fetch") false (message error) ||
  from_option (fun m => JsString.includes m "network") false (message error) ||
  negb onLine.

Definition msg_network : string :=
  "İnternet bağlantınızda bir sorun var. Lütfen bağlantınızı kontrol edin.".
Definition msg_login : string :=
  "Email veya şifreniz hatalı. Lütfen kontrol edip tekrar deneyin.".
Definition msg_permission : string :=
  "Bu işlemi gerçekleştirmek için yetkiniz bulunmuyor.".
Definition msg_unexpected : string :=
  "Beklenmeyen bir hata oluştu. Lütfen tekrar deneyin.".

Definition getUserFriendlyMessage (onLine : bool) (error : ErrorLike) : string :=
  if isNetworkError onLine error then msg_network
  else if from_option (fun m => JsString.includes m "Invalid login credentials") false
            (message error)
  then msg_login
  else if from_option (fun m => JsString.includes m "Permission denied") false
            (message error)
  then msg_permission
  else str_or (message error) msg_unexpected.

(** The [data] arguments [handleGlobalError] gives the logger:
    [{ error, errorInfo }] and [errorInfo]. *)
Inductive Payload :=
| Report (error : ErrorLike) (errorInfo : option string)
| Info (errorInfo : string).

(** Both are truthy where they are logged: an object, and an
    [errorInfo] that passed [&& errorInfo]. *)
Definition truthy (p : Payload) : bool := true.

Record Handled := {
  type : Classification;
  message : string;
  originalError : ErrorLike }.

Section HandleGlobalError.

Variable toLowerCase : string -> string.

(** [handleGlobalError(error, errorInfo)] on the logger singleton, whose
    [DEV] is the [import.meta.env.DEV] read here. *)
Definition handleGlobalError (error : ErrorLike) (errorInfo : option string)
    (g : Logger.t Payload) : Handled * Logger.t Payload :=
  let g := Logger.error truthy "Application Error" (Some (Report error errorInfo))
             (Some "GlobalErrorHandler") g in
  let g :=
    if negb (Logger.DEV g) && truthy_str errorInfo
    then Logger.info truthy "Error would be sent to tracking service in production"
           (Info <$> errorInfo) (Some "GlobalErrorHandler") g
    else g in
  ({| type := classifyError toLowerCase JsString.includes error;
      message := str_or (ErrorHandler.message error) "Bilinmeyen bir hata oluştu";
      originalError := error |},
   g).

End HandleGlobalError.

End ErrorReport.

Module ErrorSample.
Import ErrorHandler.

(** [toLowerCase] on text written in ASCII. *)
Definition lower (c : Ascii.ascii) : Ascii.ascii :=
  let n := Ascii.nat_of_ascii c in
  if bool_decide (65 ≤ n ≤ 90)%nat then Ascii.ascii_of_nat (n + 32) else c.

Fixpoint toLowerCase (s : string) : string :=
  match s with
  | EmptyString => EmptyString
  | String c s' => String (lower c) (toLowerCase s')
  end.

Definition unauthorized : ErrorLike :=
  {| code := None; message := Some "Unauthorized request" |}.

Definition denied : ErrorLike :=
  {| code := None; message := Some "Permission denied for table salaries" |}.

(** A production logger for [handleGlobalError]. *)
Definition prod : Logger.t ErrorReport.Payload :=
  Logger.create false (fun n => "t" ++ Sample.numeral n).

End ErrorSample.


(** * Properties *)

Ltac unfold_m :=
  unfold try_catch, bind, ret, throw, gets, modify.

(** ** Lists *)

Lemma Forall2_map_self {A} (P : A → A → Prop) (f : A → A) (l : list A) :
  (∀ a, a ∈ l → P a (f a)) → Forall2 P l (map f l).
Proof.
  induction l as [|a l IH]; intros H; simpl; constructor.
  - apply H. left.
  - apply IH. intros b Hb. apply H. by right.
Qed.

Lemma Forall2_diag_refl {A} (P : A → A → Prop) (l : list A) :
  (∀ a, P a a) → Forall2 P l l.
Proof. intros H. induction l; constructor; auto. Qed.

Lemma filter_single {A} (P : A → Prop) `{∀ a, Decision (P a)}
    (l : list A) (old r : A) :
  filter P l = [old] → r ∈ l → P r → r = old.
Proof.
  intros Hf Hr HP.
  assert (r ∈ filter P l) as Hin by (by apply list_elem_of_filter).
  rewrite Hf in Hin. by apply list_elem_of_singleton in Hin.
Qed.

Lemma filter_single_holds {A} (P : A → Prop) `{∀ a, Decision (P a)}
    (l : list A) (old : A) :
  filter P l = [old] → P old ∧ old ∈ l.
Proof.
  intros Hf. apply (list_elem_of_filter P l old). rewrite Hf. left.
Qed.

Lemma elem_of_map {A B} (f : A → B) (l : list A) (a : A) :
  a ∈ l → f a ∈ map f l.
Proof.
  induction 1; simpl; [left | by right].
Qed.

Lemma Forall_map_all {A B} (P : B → Prop) (f : A → B) (l : list A) :
  (∀ a, P (f a)) → Forall P (map f l).
Proof. intros H. induction l; simpl; constructor; auto. Qed.

(** ** utils/errorHandler.ts *)

Section ErrorHandlerFacts.
Import ErrorHandler.

(** A code of the table is classified as tabulated. *)
Lemma mapSupabaseError_tabulated (errorCode : string) (t : ErrorType) :
  errorMap !! errorCode = Some t → mapSupabaseError errorCode = Classified t.
Proof.
  intros H. unfold mapSupabaseError, get_property. by rewrite H.
Qed.

Example mapSupabaseError_42501 : mapSupabaseError "42501" = Classified AUTHORIZATION.
Proof. by vm_compute. Qed.

Example mapSupabaseError_PGRST116 : mapSupabaseError "PGRST116" = Classified NOT_FOUND.
Proof. by vm_compute. Qed.

Example mapSupabaseError_other : mapSupabaseError "57014" = Classified UNKNOWN.
Proof. by vm_compute. Qed.

Example mapSupabaseError_toString :
  mapSupabaseError "toString" = PrototypeMember "toString".
Proof. by vm_compute. Qed.

(** A code that is neither in the table nor a property name of
    [Object.prototype] is classified [UNKNOWN]. *)
Lemma mapSupabaseError_unlisted (errorCode : string) :
  errorMap !! errorCode = None → errorCode ∉ objectPrototype →
  mapSupabaseError errorCode = Classified UNKNOWN.
Proof.
  intros H Hp. unfold mapSupabaseError, get_property. rewrite H.
  by rewrite bool_decide_false.
Qed.

(** A property name of [Object.prototype] is in no case classified: the
    inherited member itself comes back. *)
Lemma mapSupabaseError_inherited (errorCode : string) :
  errorCode ∈ objectPrototype →
  mapSupabaseError errorCode = PrototypeMember errorCode.
Proof.
  intros Hp. unfold mapSupabaseError, get_property.
  assert (errorMap !! errorCode = None) as ->.
  { unfold objectPrototype in Hp.
    repeat (apply elem_of_cons in Hp as [-> | Hp]; [by vm_compute|]).
    by apply elem_of_nil in Hp. }
  by rewrite bool_decide_true.
Qed.

(** [classifyError] goes through the table whenever the error carries a
    truthy code. *)
Lemma classifyError_code toLowerCase includes (c : string) (m : option string) :
  c ≠ "" →
  classifyError toLowerCase includes {| code := Some c; message := m |}
  = mapSupabaseError c.
Proof.
  intros Hc. unfold classifyError, truthy_str. simpl.
  by destruct (String.eqb_spec c "").
Qed.

(** C7, at the code ['constructor']: the table has no such entry, yet the
    function does not answer [UNKNOWN], nor any member of the taxonomy; it
    returns [Object.prototype.constructor]. *)
Theorem mapSupabaseError_constructor :
  errorMap !! "constructor" = None ∧
  mapSupabaseError "constructor" = PrototypeMember "constructor" ∧
  ∀ t : ErrorType, mapSupabaseError "constructor" ≠ Classified t.
Proof.
  split; [by vm_compute|]. split; [by vm_compute|].
  intros t H. vm_compute in H. discriminate.
Qed.

End ErrorHandlerFacts.

(** ** database/browserDatabase.ts *)

Section NanoDatabaseFacts.
Import NanoDatabase.

Lemma key_of_str (o : object) (id : string) :
  key_of o = Some (inl id) ↔ o !! "id" = Some (VStr id).
Proof.
  unfold key_of. destruct (o !! "id") as [[]|]; naive_solver.
Qed.

Lemma elem_of_listing (s : IDBObjectStore) (o : object) :
  o ∈ (map_to_list s).*2 ↔ ∃ k, s !! k = Some o.
Proof.
  rewrite list_elem_of_fmap. split.
  - intros [[k o'] [-> H]]. exists k. by apply elem_of_map_to_list.
  - intros [k H]. exists (k, o). split; [done|]. by apply elem_of_map_to_list.
Qed.

Lemma keyed_empty : keyed ∅.
Proof. apply map_Forall_empty. Qed.

Lemma keyed_ensureStore (name : string) (d : IDBDatabase) :
  keyed d → keyed (ensureStore name d).
Proof.
  intros H. unfold ensureStore. destruct (d !! name); [done|].
  apply map_Forall_insert_2; [apply map_Forall_empty | done].
Qed.

Lemma keyed_records (storeName : string) (n : t) :
  wf n → map_Forall (fun (k : key) (o : object) => key_of o = Some k) (records storeName n).
Proof.
  intros [H _]. unfold records. destruct (db n) as [d|]; simpl in *.
  - destruct (d !! storeName) as [s|] eqn:Hs; simpl; [|apply map_Forall_empty].
    by apply (H storeName s).
  - apply map_Forall_empty.
Qed.

Lemma wf_with_records (storeName : string) (s : IDBObjectStore) (n : t) :
  wf n →
  map_Forall (fun (k : key) (o : object) => key_of o = Some k) s →
  wf (with_records storeName s n).
Proof.
  intros [H1 H2] Hs. split; [|done]. simpl.
  destruct (db n) as [d|]; simpl in *; [|done].
  by apply map_Forall_insert_2.
Qed.

Lemma wf_with_log (text : string) (n : t) : wf n → wf (with_log text n).
Proof. by intros [H1 H2]. Qed.

Lemma wf_fresh : wf fresh.
Proof. by split. Qed.

(** [init] and the five writers keep every record under its own key. *)
Lemma wf_init (n n' : t) (r : Result unit) :
  init n = (r, n') → wf n → wf n'.
Proof.
  unfold init, wf. unfold_m. simpl. intros Hrun [H1 H2].
  destruct (openError n); simpl in Hrun.
  { injection Hrun as <- <-. by split. }
  destruct (db n) as [d|] eqn:Hd; simpl in *.
  { injection Hrun as <- <-. by split. }
  destruct (persisted n) as [d|] eqn:Hp; simpl in *.
  { injection Hrun as <- <-. split; simpl; [done|]. by rewrite Hp. }
  injection Hrun as <- <-. split; simpl; [|by rewrite Hp].
  unfold onupgradeneeded. repeat apply keyed_ensureStore. apply keyed_empty.
Qed.

Lemma getStore_inv (storeName : string) (mode : IDBTransactionMode) (n n' : t)
    (r : Result string) :
  getStore storeName mode n = (r, n') →
  n' = n ∧ (∀ store, r = Ok store → store = storeName).
Proof.
  unfold getStore. unfold_m. simpl.
  destruct (db n) as [d|]; simpl; [|by intros [= <- <-]].
  destruct (d !! storeName); simpl; intros [= <- <-]; split; congruence.
Qed.

Lemma wf_create (storeName : string) (data : object) (n n' : t) (r : Result object) :
  create storeName data n = (r, n') → wf n → wf n'.
Proof.
  unfold create, add. unfold_m. intros Hrun Hwf.
  destruct (getStore storeName readwrite n) as [[store|e] n0] eqn:Hg;
    apply getStore_inv in Hg as [-> Hg]; simpl in Hrun.
  2:{ injection Hrun as <- <-. by apply wf_with_log. }
  destruct (key_of data) as [k|] eqn:Hk; simpl in Hrun.
  2:{ by injection Hrun as <- <-. }
  destruct (records store n !! k); simpl in Hrun; injection Hrun as <- <-; [done|].
  apply wf_with_records; [done|].
  apply map_Forall_insert_2; [done | by apply keyed_records].
Qed.

Lemma wf_update (storeName : string) (data : object) (n n' : t) (r : Result object) :
  update storeName data n = (r, n') → wf n → wf n'.
Proof.
  unfold update, put. unfold_m. intros Hrun Hwf.
  destruct (getStore storeName readwrite n) as [[store|e] n0] eqn:Hg;
    apply getStore_inv in Hg as [-> Hg]; simpl in Hrun.
  2:{ injection Hrun as <- <-. by apply wf_with_log. }
  destruct (key_of data) as [k|] eqn:Hk; simpl in Hrun; injection Hrun as <- <-; [|done].
  apply wf_with_records; [done|].
  apply map_Forall_insert_2; [done | by apply keyed_records].
Qed.

Lemma wf_delete (storeName id : string) (n n' : t) (r : Result unit) :
  delete storeName id n = (r, n') → wf n → wf n'.
Proof.
  unfold delete. unfold_m. intros Hrun Hwf.
  destruct (getStore storeName readwrite n) as [[store|e] n0] eqn:Hg;
    apply getStore_inv in Hg as [-> Hg]; simpl in Hrun; injection Hrun as <- <-.
  2:{ by apply wf_with_log. }
  apply wf_with_records; [done|].
  apply map_Forall_delete. by apply keyed_records.
Qed.

Lemma wf_clear (storeName : string) (n n' : t) (r : Result unit) :
  clear storeName n = (r, n') → wf n → wf n'.
Proof.
  unfold clear. unfold_m. intros Hrun Hwf.
  destruct (getStore storeName readwrite n) as [[store|e] n0] eqn:Hg;
    apply getStore_inv in Hg as [-> Hg]; simpl in Hrun; injection Hrun as <- <-.
  2:{ by apply wf_with_log. }
  apply wf_with_records; [done | apply map_Forall_empty].
Qed.

(** C5.  In any state of the adapter and for any store name: when
    [create(storeName, o)] succeeds for an object [o] whose [id] is the
    string [id], it returns [o], and [get(storeName, id)] in the state it
    leaves returns exactly [o]. *)
Theorem create_then_get (storeName id : string) (o o' : object) (n n1 : t) :
  o !! "id" = Some (VStr id) →
  create storeName o n = (Ok o', n1) →
  o' = o ∧ get storeName id n1 = (Ok (Some o), n1).
Proof.
  intros Hid. unfold create, get, add, getStore, key_of. rewrite Hid.
  unfold_m. simpl.
  destruct (db n) as [d|] eqn:Hd; simpl; [|done].
  destruct (d !! storeName) as [s|] eqn:Hs; simpl; [|done].
  destruct (records storeName n !! inl id) eqn:Hk; simpl; [done|].
  intros [= <- <-]. split; [done|].
  unfold with_records, with_db, records. simpl. rewrite Hd. simpl.
  rewrite lookup_insert_eq. simpl. rewrite Hs. simpl.
  rewrite lookup_insert_eq. simpl. by rewrite lookup_insert_eq.
Qed.

Lemma create_then_get_witness :
  get "salaries" "salary-1" (snd (create "salaries" Sample.demoSalary Browser.ready))
  = (Ok (Some Sample.demoSalary),
     snd (create "salaries" Sample.demoSalary Browser.ready)).
Proof.
  assert (is_ok (fst (create "salaries" Sample.demoSalary Browser.ready)) = true)
    as Hok.
  { vm_compute. reflexivity. }
  destruct (create "salaries" Sample.demoSalary Browser.ready) as [[o'|e] n1] eqn:Hrun.
  - apply (create_then_get "salaries" "salary-1" Sample.demoSalary o' Browser.ready n1).
    + vm_compute. reflexivity.
    + exact Hrun.
  - discriminate Hok.
Defined.

(** C6.  In any state of the adapter whose records are filed under their
    own ids, and for any store name and id: when [delete(storeName, id)]
    succeeds, [getAll(storeName)] in the state it leaves lists no record
    with that id and lists every record with another id: every record
    that [getAll] listed before, every record that [get] of another id
    returned before (and [get] of that id still returns it), and nothing
    but the records the store held under other keys.  If the store held a
    record under the id the listing is one record shorter, and if it held
    none the listing is the same. *)
Theorem delete_then_getAll (storeName id : string) (n n1 : t) :
  wf n →
  delete storeName id n = (Ok tt, n1) →
  ∃ before after : list object,
    getAll storeName n = (Ok before, n) ∧
    getAll storeName n1 = (Ok after, n1) ∧
    (∀ o, o ∈ after → o !! "id" ≠ Some (VStr id)) ∧
    (∀ o, o ∈ before → o !! "id" ≠ Some (VStr id) → o ∈ after) ∧
    (∀ id' o,
       id' ≠ id →
       fst (get storeName id' n) = Ok (Some o) →
       o ∈ after ∧ fst (get storeName id' n1) = Ok (Some o)) ∧
    (∀ k o, k ≠ inl id → records storeName n !! k = Some o → o ∈ after) ∧
    (∀ o, o ∈ after → ∃ k, k ≠ inl id ∧ records storeName n !! k = Some o) ∧
    (∀ o, fst (get storeName id n) = Ok (Some o) →
          length before = S (length after)) ∧
    (fst (get storeName id n) = Ok None → after = before).
Proof.
  intros [Hwf _]. unfold delete, getAll, get, getStore. unfold_m. simpl.
  destruct (db n) as [d|] eqn:Hd; simpl in *; [|done].
  destruct (d !! storeName) as [s|] eqn:Hs; simpl; [|done].
  intros [= <-]. unfold records, with_records, with_db. simpl. rewrite Hd. simpl.
  rewrite Hs. simpl. rewrite !lookup_insert_eq. simpl.
  eexists _, _. split; [done|]. split; [done|].
  rewrite !lookup_insert_eq. simpl.
  split_and!.
  - intros o [k Hk]%elem_of_listing Hid.
    apply key_of_str in Hid.
    destruct (decide (k = inl id)) as [->|Hne].
    + by rewrite lookup_delete_eq in Hk.
    + rewrite lookup_delete_ne in Hk by done.
      specialize (Hwf storeName s Hs k o Hk). simpl in Hwf. congruence.
  - intros o [k Hk]%elem_of_listing Hid. apply elem_of_listing. exists k.
    rewrite lookup_delete_ne; [done|].
    intros <-. apply Hid, key_of_str. by apply (Hwf storeName s Hs).
  - intros id' o Hne [= Hget].
    assert ((inl id : key) ≠ inl id') as Hk by congruence.
    split; [|by rewrite lookup_delete_ne, Hget].
    apply elem_of_listing. exists (inl id'). by rewrite lookup_delete_ne.
  - intros k o Hne Hk. apply elem_of_listing. exists k. by rewrite lookup_delete_ne.
  - intros o [k Hk]%elem_of_listing. exists k.
    destruct (decide (k = inl id)) as [->|Hne].
    + by rewrite lookup_delete_eq in Hk.
    + by rewrite lookup_delete_ne in Hk.
  - intros o [= Hget]. rewrite !length_fmap.
    by rewrite <- (Permutation_length (map_to_list_delete s (inl id) o Hget)).
  - intros [= Hget]. by rewrite delete_id.
Qed.

Lemma delete_then_getAll_witness :
  ∃ before after : list object,
    getAll "salaries" Browser.paired = (Ok before, Browser.paired) ∧
    getAll "salaries" (snd (delete "salaries" "salary-1" Browser.paired))
    = (Ok after, snd (delete "salaries" "salary-1" Browser.paired)) ∧
    (∃ o, o ∈ after ∧ o !! "id" = Some (VStr "salary-2")) ∧
    length before = S (length after) ∧
    (∀ o, o ∈ after → o !! "id" ≠ Some (VStr "salary-1")).
Proof.
  assert (fst (delete "salaries" "salary-1" Browser.paired) = Ok tt) as Hrun.
  { vm_compute. reflexivity. }
  assert (match fst (get "salaries" "salary-2" Browser.paired) with
          | Ok (Some o) => bool_decide (o !! "id" = Some (VStr "salary-2"))
          | _ => false
          end = true) as Hkept.
  { vm_compute. reflexivity. }
  assert (match fst (get "salaries" "salary-1" Browser.paired) with
          | Ok (Some o) => true
          | _ => false
          end = true) as Hheld.
  { vm_compute. reflexivity. }
  destruct (delete_then_getAll "salaries" "salary-1" Browser.paired
              (snd (delete "salaries" "salary-1" Browser.paired)))
    as (before & after & Hb & Ha & Hnot & _ & Hget & _ & _ & Hlen & _).
  - apply (bool_decide_unpack _). vm_compute. exact I.
  - rewrite <- Hrun. apply surjective_pairing.
  - exists before, after. split; [exact Hb|]. split; [exact Ha|]. split_and!.
    + destruct (fst (get "salaries" "salary-2" Browser.paired)) as [[o|]|] eqn:Hg;
        try discriminate Hkept.
      exists o. split; [|exact (bool_decide_eq_true_1 _ Hkept)].
      by apply (Hget "salary-2" o).
    + destruct (fst (get "salaries" "salary-1" Browser.paired)) as [[o|]|] eqn:Hg;
        try discriminate Hheld.
      by apply (Hlen o).
    + exact Hnot.
Defined.

End NanoDatabaseFacts.

(** ** database/services *)

Section ServiceFacts.
Import Supabase Backend.

Ltac unfold_supabase :=
  unfold select_all, select_eq, insert_single, update_single, delete_eq,
    UserService.select_by_id, requireConfigured, send, Date_now, fresh_id,
    logger_error, logger_info.

(** Runs a service on a configured backend that refuses the request. *)
Ltac refused Hc Hf :=
  unfold_supabase; unfold_m; cbn; rewrite ?Hc; cbn; rewrite ?Hf; cbn;
  eexists; split; [reflexivity|]; cbn; rewrite ?Hf; cbn; repeat split; reflexivity.

Lemma SalaryService_rethrows :
  rethrows_verbatim SalaryService.getAll "salaries" SELECT ∧
  (∀ u, rethrows_verbatim (SalaryService.getByUserId u) "salaries" SELECT) ∧
  (∀ d, rethrows_verbatim (SalaryService.create d) "salaries" INSERT) ∧
  (∀ p id u, rethrows_verbatim (SalaryService.update p id u) "salaries" UPDATE) ∧
  (∀ id, rethrows_verbatim (SalaryService.delete id) "salaries" DELETE).
Proof.
  split_and!; intros; intros w e rest Hc Hf.
  - unfold SalaryService.getAll. refused Hc Hf.
  - unfold SalaryService.getByUserId. refused Hc Hf.
  - unfold SalaryService.create. refused Hc Hf.
  - unfold SalaryService.update. refused Hc Hf.
  - unfold SalaryService.delete. refused Hc Hf.
Qed.

Lemma OvertimeService_rethrows :
  rethrows_verbatim OvertimeService.getAll "overtimes" SELECT ∧
  (∀ u, rethrows_verbatim (OvertimeService.getByUserId u) "overtimes" SELECT) ∧
  (∀ d, rethrows_verbatim (OvertimeService.create d) "overtimes" INSERT) ∧
  (∀ id u, rethrows_verbatim (OvertimeService.update id u) "overtimes" UPDATE) ∧
  (∀ id s, rethrows_verbatim (OvertimeService.updateStatus id s) "overtimes" UPDATE) ∧
  (∀ id, rethrows_verbatim (OvertimeService.delete id) "overtimes" DELETE).
Proof.
  split_and!; intros; intros w e rest Hc Hf.
  - unfold OvertimeService.getAll. refused Hc Hf.
  - unfold OvertimeService.getByUserId. refused Hc Hf.
  - unfold OvertimeService.create. refused Hc Hf.
  - unfold OvertimeService.update. refused Hc Hf.
  - unfold OvertimeService.updateStatus. refused Hc Hf.
  - unfold OvertimeService.delete. refused Hc Hf.
Qed.

Lemma LeaveService_rethrows :
  rethrows_verbatim LeaveService.getAll "leaves" SELECT ∧
  (∀ u, rethrows_verbatim (LeaveService.getByUserId u) "leaves" SELECT) ∧
  (∀ d, rethrows_verbatim (LeaveService.create d) "leaves" INSERT) ∧
  (∀ id u, rethrows_verbatim (LeaveService.update id u) "leaves" UPDATE) ∧
  (∀ id s, rethrows_verbatim (LeaveService.updateStatus id s) "leaves" UPDATE) ∧
  (∀ id, rethrows_verbatim (LeaveService.delete id) "leaves" DELETE).
Proof.
  split_and!; intros; intros w e rest Hc Hf.
  - unfold LeaveService.getAll. refused Hc Hf.
  - unfold LeaveService.getByUserId. refused Hc Hf.
  - unfold LeaveService.create. refused Hc Hf.
  - unfold LeaveService.update. refused Hc Hf.
  - unfold LeaveService.updateStatus. refused Hc Hf.
  - unfold LeaveService.delete. refused Hc Hf.
Qed.

Lemma UserService_rethrows :
  rethrows_verbatim UserService.getAll "users" SELECT ∧
  (∀ d, rethrows_verbatim (UserService.create d) "users" INSERT) ∧
  (∀ id u, rethrows_verbatim (UserService.update id u) "users" UPDATE) ∧
  (∀ id, rethrows_verbatim (UserService.delete id) "users" DELETE).
Proof.
  split_and!; intros; intros w e rest Hc Hf.
  - unfold UserService.getAll. refused Hc Hf.
  - unfold UserService.create. refused Hc Hf.
  - unfold UserService.update. refused Hc Hf.
  - unfold UserService.delete. refused Hc Hf.
Qed.

(** [getById], which is not one of the five operations of the contract,
    is the one method that swallows the backend's error. *)
Lemma UserService_getById_swallows (id : string) (w : World) (e : PostgrestError)
    (rest : list (option PostgrestError)) :
  isConfigured w = true →
  faults w = Some e :: rest →
  fst (UserService.getById id w) = Ok None.
Proof.
  intros Hc Hf. unfold UserService.getById. unfold_supabase. unfold_m. cbn.
  rewrite Hc. cbn. rewrite Hf. reflexivity.
Qed.

(** The error [.single()] raises when no row carries the id travels the
    same way. *)
Lemma OvertimeService_update_no_row (id : string) (u : OvertimeService.Partial.t)
    (w : World) :
  isConfigured w = true →
  accepts w →
  filter (fun r => OvertimeRow.id r = id) (overtimes w) = [] →
  fst (OvertimeService.update id u w) = Throw (BackendError PGRST116).
Proof.
  intros Hc Ha Hf. unfold OvertimeService.update. unfold_supabase. unfold_m. cbn.
  rewrite Hc. cbn. unfold accepts in Ha. rewrite Ha. cbn. rewrite Hf. reflexivity.
Qed.

Ltac case_reply :=
  match goal with
  | |- context [mjoin (head (faults ?w))] =>
      destruct (mjoin (head (faults w))) eqn:?
  | |- context [match filter ?P ?l with _ => _ end] =>
      destruct (filter P l) as [|? [|? ?]] eqn:?
  | |- context [SalaryService.insertPayload ?a ?b ?c ?d] =>
      destruct (SalaryService.insertPayload a b c d) eqn:?
  | |- context [SalaryService.apply_patch ?p ?o] =>
      destruct (SalaryService.apply_patch p o) eqn:?
  | |- context [if bool_decide ?P then _ else _] =>
      destruct (bool_decide P) eqn:?
  end; cbn.

Ltac round_trip Hc :=
  unfold_supabase; unfold_m; cbn; rewrite ?Hc; cbn;
  repeat case_reply;
  intros [= <- <-]; cbn; (split; [reflexivity|]); intros ex [= <-]; eauto.

Lemma SalaryService_one_round_trip :
  one_round_trip SalaryService.getAll "salaries" SELECT ∧
  (∀ u, one_round_trip (SalaryService.getByUserId u) "salaries" SELECT) ∧
  (∀ d, one_round_trip (SalaryService.create d) "salaries" INSERT) ∧
  (∀ p id u, one_round_trip (SalaryService.update p id u) "salaries" UPDATE) ∧
  (∀ id, one_round_trip (SalaryService.delete id) "salaries" DELETE).
Proof.
  split_and!; intros; intros w w' r Hc.
  - unfold SalaryService.getAll. round_trip Hc.
  - unfold SalaryService.getByUserId. round_trip Hc.
  - unfold SalaryService.create. round_trip Hc.
  - unfold SalaryService.update. round_trip Hc.
  - unfold SalaryService.delete. round_trip Hc.
Qed.

Lemma OvertimeService_one_round_trip :
  one_round_trip OvertimeService.getAll "overtimes" SELECT ∧
  (∀ u, one_round_trip (OvertimeService.getByUserId u) "overtimes" SELECT) ∧
  (∀ d, one_round_trip (OvertimeService.create d) "overtimes" INSERT) ∧
  (∀ id u, one_round_trip (OvertimeService.update id u) "overtimes" UPDATE) ∧
  (∀ id s, one_round_trip (OvertimeService.updateStatus id s) "overtimes" UPDATE) ∧
  (∀ id, one_round_trip (OvertimeService.delete id) "overtimes" DELETE).
Proof.
  split_and!; intros; intros w w' r Hc.
  - unfold OvertimeService.getAll. round_trip Hc.
  - unfold OvertimeService.getByUserId. round_trip Hc.
  - unfold OvertimeService.create. round_trip Hc.
  - unfold OvertimeService.update. round_trip Hc.
  - unfold OvertimeService.updateStatus. round_trip Hc.
  - unfold OvertimeService.delete. round_trip Hc.
Qed.

Lemma LeaveService_one_round_trip :
  one_round_trip LeaveService.getAll "leaves" SELECT ∧
  (∀ u, one_round_trip (LeaveService.getByUserId u) "leaves" SELECT) ∧
  (∀ d, one_round_trip (LeaveService.create d) "leaves" INSERT) ∧
  (∀ id u, one_round_trip (LeaveService.update id u) "leaves" UPDATE) ∧
  (∀ id s, one_round_trip (LeaveService.updateStatus id s) "leaves" UPDATE) ∧
  (∀ id, one_round_trip (LeaveService.delete id) "leaves" DELETE).
Proof.
  split_and!; intros; intros w w' r Hc.
  - unfold LeaveService.getAll. round_trip Hc.
  - unfold LeaveService.getByUserId. round_trip Hc.
  - unfold LeaveService.create. round_trip Hc.
  - unfold LeaveService.update. round_trip Hc.
  - unfold LeaveService.updateStatus. round_trip Hc.
  - unfold LeaveService.delete. round_trip Hc.
Qed.

Lemma UserService_one_round_trip :
  one_round_trip UserService.getAll "users" SELECT ∧
  (∀ d, one_round_trip (UserService.create d) "users" INSERT) ∧
  (∀ id u, one_round_trip (UserService.update id u) "users" UPDATE) ∧
  (∀ id, one_round_trip (UserService.delete id) "users" DELETE).
Proof.
  split_and!; intros; intros w w' r Hc.
  - unfold UserService.getAll. round_trip Hc.
  - unfold UserService.create. round_trip Hc.
  - unfold UserService.update. round_trip Hc.
  - unfold UserService.delete. round_trip Hc.
Qed.

(** C8.  For each of [getAll], [getByUserId], [create], [update] and
    [delete] (and [updateStatus]) of the salary, overtime, leave and user
    services, on a configured client: when the backend refuses the request
    with an error, the operation throws that very error object, after one
    round trip and with every table as it was; and in every run, refused or
    not, exactly one request is made (no retry) and nothing but an error
    object of the backend is ever thrown (no wrapping). *)
Theorem services_rethrow_verbatim :
  (passes_errors_through SalaryService.getAll "salaries" SELECT ∧
   (∀ u, passes_errors_through (SalaryService.getByUserId u) "salaries" SELECT) ∧
   (∀ d, passes_errors_through (SalaryService.create d) "salaries" INSERT) ∧
   (∀ p id u, passes_errors_through (SalaryService.update p id u) "salaries" UPDATE) ∧
   (∀ id, passes_errors_through (SalaryService.delete id) "salaries" DELETE)) ∧
  (passes_errors_through OvertimeService.getAll "overtimes" SELECT ∧
   (∀ u, passes_errors_through (OvertimeService.getByUserId u) "overtimes" SELECT) ∧
   (∀ d, passes_errors_through (OvertimeService.create d) "overtimes" INSERT) ∧
   (∀ id u, passes_errors_through (OvertimeService.update id u) "overtimes" UPDATE) ∧
   (∀ id s,
      passes_errors_through (OvertimeService.updateStatus id s) "overtimes" UPDATE) ∧
   (∀ id, passes_errors_through (OvertimeService.delete id) "overtimes" DELETE)) ∧
  (passes_errors_through LeaveService.getAll "leaves" SELECT ∧
   (∀ u, passes_errors_through (LeaveService.getByUserId u) "leaves" SELECT) ∧
   (∀ d, passes_errors_through (LeaveService.create d) "leaves" INSERT) ∧
   (∀ id u, passes_errors_through (LeaveService.update id u) "leaves" UPDATE) ∧
   (∀ id s, passes_errors_through (LeaveService.updateStatus id s) "leaves" UPDATE) ∧
   (∀ id, passes_errors_through (LeaveService.delete id) "leaves" DELETE)) ∧
  (passes_errors_through UserService.getAll "users" SELECT ∧
   (∀ d, passes_errors_through (UserService.create d) "users" INSERT) ∧
   (∀ id u, passes_errors_through (UserService.update id u) "users" UPDATE) ∧
   (∀ id, passes_errors_through (UserService.delete id) "users" DELETE)).
Proof.
  destruct SalaryService_rethrows as (s1 & s2 & s3 & s4 & s5).
  destruct SalaryService_one_round_trip as (s1' & s2' & s3' & s4' & s5').
  destruct OvertimeService_rethrows as (o1 & o2 & o3 & o4 & o5 & o6).
  destruct OvertimeService_one_round_trip as (o1' & o2' & o3' & o4' & o5' & o6').
  destruct LeaveService_rethrows as (l1 & l2 & l3 & l4 & l5 & l6).
  destruct LeaveService_one_round_trip as (l1' & l2' & l3' & l4' & l5' & l6').
  destruct UserService_rethrows as (u1 & u2 & u3 & u4).
  destruct UserService_one_round_trip as (u1' & u2' & u3' & u4').
  split_and!; intros; split; auto.
Qed.

Lemma services_rethrow_verbatim_witness :
  ∃ w',
    OvertimeService.create Sample.overtimeData
      (Sample.with_faults [Some Sample.refusal] Sample.emptyWorld)
    = (Throw (BackendError Sample.refusal), w') ∧
    requests w' = [{| req_table := "overtimes"; req_verb := INSERT |}] ∧
    faults w' = [] ∧
    same_tables (Sample.with_faults [Some Sample.refusal] Sample.emptyWorld) w'.
Proof.
  destruct services_rethrow_verbatim as (_ & (_ & _ & H & _) & _).
  destruct (H Sample.overtimeData) as (Hrethrows & _).
  apply (Hrethrows
           (Sample.with_faults [Some Sample.refusal] Sample.emptyWorld)
           Sample.refusal []).
  - reflexivity.
  - reflexivity.
Defined.

(** *** The derived salary fields *)

Lemma toSalary_gross (data : SalaryRow.t) : gross_is_sum (SalaryService.toSalary data).
Proof. unfold gross_is_sum. simpl. lia. Qed.

Lemma SalaryService_getAll_rows (w w' : World) (l : list Salary.t) :
  SalaryService.getAll w = (Ok l, w') →
  l = map SalaryService.toSalary (newest_first salariesTable (salaries w)).
Proof.
  unfold SalaryService.getAll. unfold_supabase. unfold_m. cbn.
  destruct (isConfigured w); cbn; [|done].
  destruct (mjoin (head (faults w))); cbn; [done|].
  by intros [= <- <-].
Qed.

Lemma SalaryService_getByUserId_rows (userId : string) (w w' : World)
    (l : list Salary.t) :
  SalaryService.getByUserId userId w = (Ok l, w') →
  l = map SalaryService.toSalary
        (newest_first salariesTable
           (filter (fun r => SalaryRow.user_id r = userId) (salaries w))).
Proof.
  unfold SalaryService.getByUserId. unfold_supabase. unfold_m. cbn.
  destruct (isConfigured w); cbn; [|done].
  destruct (mjoin (head (faults w))); cbn; [done|].
  by intros [= <- <-].
Qed.

Lemma SalaryService_create_row (d : SalaryService.Data.t) (w w' : World) (s : Salary.t) :
  SalaryService.create d w = (Ok s, w') →
  ∃ row, s = SalaryService.toSalary row ∧ salaries w' = (salaries w ++ [row])%list.
Proof.
  unfold SalaryService.create. unfold_supabase. unfold_m. cbn.
  destruct (isConfigured w); cbn; [|done].
  destruct (mjoin (head (faults w))); cbn; [done|].
  destruct (SalaryService.insertPayload _ _ _ _) as [e|row]; cbn; [done|].
  intros [= <- <-]. by exists row.
Qed.

Lemma SalaryService_update_row parseInt (id : string) (u : SalaryService.Partial.t)
    (w w' : World) (s : Salary.t) :
  SalaryService.update parseInt id u w = (Ok s, w') →
  ∃ row, s = SalaryService.toSalary row ∧ row ∈ salaries w'.
Proof.
  unfold SalaryService.update. unfold_supabase. unfold_m. cbn.
  destruct (isConfigured w); cbn; [|done].
  destruct (mjoin (head (faults w))); cbn; [done|].
  destruct (filter _ (salaries w)) as [|old [|? ?]] eqn:Hf; cbn; [done| |done].
  destruct (SalaryService.apply_patch _ old) as [e|row]; cbn; [done|].
  intros [= <- <-]. exists row. split; [done|]. cbn.
  apply filter_single_holds in Hf as [Hid Hin].
  apply (elem_of_map (fun r => if decide (SalaryRow.id r = id) then row else r)) in Hin.
  by rewrite decide_True in Hin.
Qed.

Lemma newest_first_elem {Row} (T : Table Row) (l : list Row) (r : Row) :
  r ∈ newest_first T l ↔ r ∈ l.
Proof. unfold newest_first. by rewrite merge_sort_Permutation. Qed.

(** C1.  Every [Salary] that [getAll], [getByUserId], [create] or
    [update] returns has [grossSalary = baseSalary + overtimePay], which
    is also [baseSalary + overtimePay + bonus].  And on a configured
    backend that accepts the requests and can read the month and the year:
    creating a salary with [baseSalary = 15000] and [overtimePay = 2000]
    returns a salary with [grossSalary = 17000], and that same salary is
    in what [getAll] and [getByUserId] of its user then return. *)
Theorem salary_gross_is_sum :
  (∀ w w' l, SalaryService.getAll w = (Ok l, w') → Forall gross_is_sum l) ∧
  (∀ userId w w' l,
     SalaryService.getByUserId userId w = (Ok l, w') → Forall gross_is_sum l) ∧
  (∀ d w w' s, SalaryService.create d w = (Ok s, w') → gross_is_sum s) ∧
  (∀ parseInt id u w w' s,
     SalaryService.update parseInt id u w = (Ok s, w') → gross_is_sum s) ∧
  (∀ d w,
     isConfigured w = true →
     accepts w →
     is_Some (int4in w (SalaryService.Data.month d)) →
     is_Some (int4in w (SalaryService.Data.year d)) →
     SalaryService.Data.baseSalary d = 15000 →
     SalaryService.Data.overtimePay d = Some 2000 →
     ∃ s w',
       SalaryService.create d w = (Ok s, w') ∧
       Salary.grossSalary s = 17000 ∧
       (accepts w' →
        ∃ l w'', SalaryService.getAll w' = (Ok l, w'') ∧ s ∈ l) ∧
       (accepts w' →
        ∃ l w'',
          SalaryService.getByUserId (SalaryService.Data.userId d) w' = (Ok l, w'') ∧
          s ∈ l)).
Proof.
  split_and!.
  - intros w w' l ->%SalaryService_getAll_rows.
    apply Forall_map_all, toSalary_gross.
  - intros userId w w' l ->%SalaryService_getByUserId_rows.
    apply Forall_map_all, toSalary_gross.
  - intros d w w' s (row & -> & _)%SalaryService_create_row. apply toSalary_gross.
  - intros parseInt id u w w' s (row & -> & _)%SalaryService_update_row.
    apply toSalary_gross.
  - intros d w Hc Ha [m Hm] [y Hy] Hb Ho.
    unfold SalaryService.create, SalaryService.insertPayload.
    unfold_supabase. unfold_m. cbn.
    rewrite Hc. cbn. unfold accepts in Ha. rewrite Ha. cbn.
    rewrite Hm, Hy. cbn. eexists _, _. split; [reflexivity|].
    split; [cbn; rewrite Hb, Ho; reflexivity|].
    split; unfold accepts; cbn; intros Ha'.
    + unfold SalaryService.getAll. unfold_supabase. unfold_m. cbn.
      rewrite Hc. cbn. rewrite Ha'. cbn.
      eexists _, _. split; [reflexivity|].
      apply elem_of_map, (newest_first_elem salariesTable), elem_of_app.
      right. left.
    + unfold SalaryService.getByUserId. unfold_supabase. unfold_m. cbn.
      rewrite Hc. cbn. rewrite Ha'. cbn.
      eexists _, _. split; [reflexivity|].
      apply elem_of_map, (newest_first_elem salariesTable), list_elem_of_filter.
      split; [done|].
      apply elem_of_app. right. left.
Qed.

Lemma salary_gross_is_sum_witness :
  ∃ s w',
    SalaryService.create Sample.salaryData Sample.emptyWorld = (Ok s, w') ∧
    Salary.grossSalary s = 17000 ∧
    (accepts w' → ∃ l w'', SalaryService.getAll w' = (Ok l, w'') ∧ s ∈ l) ∧
    (accepts w' →
     ∃ l w'', SalaryService.getByUserId "demo-user-1" w' = (Ok l, w'') ∧ s ∈ l).
Proof.
  destruct salary_gross_is_sum as (_ & _ & _ & _ & H).
  apply (H Sample.salaryData Sample.emptyWorld).
  - reflexivity.
  - reflexivity.
  - exists 1. reflexivity.
  - exists 2024. reflexivity.
  - reflexivity.
  - reflexivity.
Defined.

(** *** What an update writes *)

(** The effect of [update] on the world: the other tables are as they
    were, and the table is either as it was or has exactly the one row
    with the id replaced by the patched row. *)
Lemma SalaryService_update_effect parseInt (id : string)
    (u : SalaryService.Partial.t) (w w' : World) (r : Result Salary.t) :
  SalaryService.update parseInt id u w = (r, w') →
  users w' = users w ∧ overtimes w' = overtimes w ∧ leaves w' = leaves w ∧
  (salaries w' = salaries w ∨
   ∃ old new,
     filter (fun r => SalaryRow.id r = id) (salaries w) = [old] ∧
     SalaryService.apply_patch
       (SalaryService.updateData parseInt (clock w (ticks w)) u) old = inr new ∧
     salaries w' =
       map (fun r => if decide (SalaryRow.id r = id) then new else r) (salaries w)).
Proof.
  unfold SalaryService.update. unfold_supabase. unfold_m. cbn.
  destruct (isConfigured w); cbn; [|intros [= <- <-]; cbn; auto].
  destruct (mjoin (head (faults w))); cbn; [intros [= <- <-]; cbn; auto|].
  destruct (filter _ (salaries w)) as [|old [|? ?]] eqn:Hf; cbn;
    [intros [= <- <-]; cbn; auto | | intros [= <- <-]; cbn; auto].
  destruct (SalaryService.apply_patch _ old) as [e|new] eqn:Hp; cbn;
    intros [= <- <-]; cbn; [auto|].
  split_and!; try done. right. by exists old, new.
Qed.

Lemma OvertimeService_patch_effect (id : string) (p : OvertimeService.Patch.t)
    (w : World) :
  let w' := snd (update_single overtimesTable id (OvertimeService.apply_patch p) w) in
  users w' = users w ∧ salaries w' = salaries w ∧ leaves w' = leaves w ∧
  (overtimes w' = overtimes w ∨
   ∃ old,
     filter (fun r => OvertimeRow.id r = id) (overtimes w) = [old] ∧
     mjoin (head (faults w)) = None ∧
     overtimes w' =
       map (fun r => if decide (OvertimeRow.id r = id)
                     then match OvertimeService.apply_patch p old with
                          | inr new => new
                          | inl _ => old
                          end
                     else r) (overtimes w)).
Proof.
  unfold_supabase. unfold_m. cbn.
  destruct (mjoin (head (faults w))) eqn:Hfault; cbn; [auto|].
  destruct (filter _ (overtimes w)) as [|old [|? ?]] eqn:Hf; cbn; auto.
  split_and!; try done. right. by exists old.
Qed.

Lemma LeaveService_patch_effect (id : string) (p : LeaveService.Patch.t) (w : World) :
  let w' := snd (update_single leavesTable id (LeaveService.apply_patch p) w) in
  users w' = users w ∧ salaries w' = salaries w ∧ overtimes w' = overtimes w ∧
  (leaves w' = leaves w ∨
   ∃ old,
     filter (fun r => LeaveRow.id r = id) (leaves w) = [old] ∧
     mjoin (head (faults w)) = None ∧
     leaves w' =
       map (fun r => if decide (LeaveRow.id r = id)
                     then match LeaveService.apply_patch p old with
                          | inr new => new
                          | inl _ => old
                          end
                     else r) (leaves w)).
Proof.
  unfold_supabase. unfold_m. cbn.
  destruct (mjoin (head (faults w))) eqn:Hfault; cbn; [auto|].
  destruct (filter _ (leaves w)) as [|old [|? ?]] eqn:Hf; cbn; auto.
  split_and!; try done. right. by exists old.
Qed.

Lemma UserService_patch_effect (id : string) (p : UserService.Patch.t) (w : World) :
  let w' := snd (update_single usersTable id (UserService.apply_patch p) w) in
  salaries w' = salaries w ∧ overtimes w' = overtimes w ∧ leaves w' = leaves w ∧
  (users w' = users w ∨
   ∃ old,
     filter (fun r => UserRow.id r = id) (users w) = [old] ∧
     users w' =
       map (fun r => if decide (UserRow.id r = id)
                     then match UserService.apply_patch p old with
                          | inr new => new
                          | inl _ => old
                          end
                     else r) (users w)).
Proof.
  unfold_supabase. unfold_m. cbn.
  destruct (mjoin (head (faults w))) eqn:Hfault; cbn; [auto|].
  destruct (filter _ (users w)) as [|old [|? ?]] eqn:Hf; cbn; auto.
  split_and!; try done. right. by exists old.
Qed.

(** The tables a service leaves are those its one request leaves. *)
Lemma OvertimeService_update_tables (id : string) (u : OvertimeService.Partial.t)
    (w : World) :
  let w' := snd (OvertimeService.update id u w) in
  let w1 := snd (update_single overtimesTable id
                   (OvertimeService.apply_patch (OvertimeService.updateData u)) w) in
  same_tables w w' ∨ same_tables w1 w'.
Proof.
  unfold OvertimeService.update. unfold_supabase. unfold_m. cbn.
  destruct (isConfigured w); cbn; [|by left].
  right.
  destruct (mjoin (head (faults w))); cbn; [done|].
  destruct (filter _ (overtimes w)) as [|old [|? ?]]; cbn; done.
Qed.

Lemma OvertimeService_updateStatus_tables (id status : string) (w : World) :
  let w' := snd (OvertimeService.updateStatus id status w) in
  let w1 := snd (update_single overtimesTable id
                   (OvertimeService.apply_patch (OvertimeService.statusOnly status)) w) in
  same_tables w w' ∨ same_tables w1 w'.
Proof.
  unfold OvertimeService.updateStatus. unfold_supabase. unfold_m. cbn.
  destruct (isConfigured w); cbn; [|by left].
  right.
  destruct (mjoin (head (faults w))); cbn; [done|].
  destruct (filter _ (overtimes w)) as [|old [|? ?]]; cbn; done.
Qed.

Lemma LeaveService_update_tables (id : string) (u : LeaveService.Partial.t) (w : World) :
  let w' := snd (LeaveService.update id u w) in
  let w1 := snd (update_single leavesTable id
                   (LeaveService.apply_patch (LeaveService.updateData u)) w) in
  same_tables w w' ∨ same_tables w1 w'.
Proof.
  unfold LeaveService.update. unfold_supabase. unfold_m. cbn.
  destruct (isConfigured w); cbn; [|by left].
  right.
  destruct (mjoin (head (faults w))); cbn; [done|].
  destruct (filter _ (leaves w)) as [|old [|? ?]]; cbn; done.
Qed.

Lemma LeaveService_updateStatus_tables (id status : string) (w : World) :
  let w' := snd (LeaveService.updateStatus id status w) in
  let w1 := snd (update_single leavesTable id
                   (LeaveService.apply_patch (LeaveService.statusOnly status)) w) in
  same_tables w w' ∨ same_tables w1 w'.
Proof.
  unfold LeaveService.updateStatus. unfold_supabase. unfold_m. cbn.
  destruct (isConfigured w); cbn; [|by left].
  right.
  destruct (mjoin (head (faults w))); cbn; [done|].
  destruct (filter _ (leaves w)) as [|old [|? ?]]; cbn; done.
Qed.

Lemma UserService_update_tables (id : string) (u : UserService.Partial.t) (w : World) :
  let w' := snd (UserService.update id u w) in
  let w1 := snd (update_single usersTable id
                   (UserService.apply_patch
                      (UserService.updateData (clock w (ticks w)) u)) w) in
  same_tables w w' ∨ same_tables w1 w'.
Proof.
  unfold UserService.update. unfold_supabase. unfold_m. cbn.
  destruct (isConfigured w); cbn; [|by left].
  right.
  destruct (mjoin (head (faults w))); cbn; [done|].
  destruct (filter _ (users w)) as [|old [|? ?]]; cbn; done.
Qed.

Lemma Forall_map_replace {A} (P Q : A → Prop) `{∀ a, Decision (Q a)}
    (new : A) (l : list A) :
  P new → (∀ a, ¬ Q a → P a) →
  Forall P (map (fun r => if decide (Q r) then new else r) l).
Proof.
  intros Hn Ho. induction l as [|a l IH]; simpl; constructor; [|done].
  destruct (decide (Q a)); auto.
Qed.

(** *** Status updates *)

Ltac status_frame_tac tbl status :=
  let Hf := fresh "Hf" in
  unfold_supabase; unfold_m; cbn;
  intros w w' r;
  destruct (isConfigured w); cbn;
    [|intros [= <- <-]; cbn; split_and!; try done;
      apply Forall2_diag_refl; intros a; by repeat split];
  destruct (mjoin (head (faults w))); cbn;
    [intros [= <- <-]; cbn; split_and!; try done;
     apply Forall2_diag_refl; intros a; by repeat split|];
  destruct (filter _ (tbl w)) as [|old [|? ?]] eqn:Hf; cbn;
    [intros [= <- <-]; cbn; split_and!; try done;
     apply Forall2_diag_refl; intros a; by repeat split
    | 
    |intros [= <- <-]; cbn; split_and!; try done;
     apply Forall2_diag_refl; intros a; by repeat split];
  intros [= <- <-]; cbn; split_and!; try done;
    [ apply Forall2_map_self; intros a Ha;
      destruct (decide (_ a = _)) as [Heq|Hne];
        [ assert (a = old) as -> by (eapply filter_single; eauto);
          by repeat split
        | by repeat split ]
    | intros o [= <-] Hs; cbn;
      apply filter_single_holds in Hf as [Hid Hin];
      unfold when_truthy_str, truthy_str; cbn;
      destruct (String.eqb_spec status ""); [done|]; cbn; split_and!; try done;
      apply Forall_map_replace; cbn; [done | intros a Hne Heq; done] ].

Lemma OvertimeService_update_status_frame (id status : string) :
  touches_only_overtime_status id status
    (OvertimeService.update id (overtimeStatus status)).
Proof.
  unfold touches_only_overtime_status, OvertimeService.update.
  status_frame_tac overtimes status.
Qed.

Lemma OvertimeService_updateStatus_frame (id status : string) :
  touches_only_overtime_status id status (OvertimeService.updateStatus id status).
Proof.
  unfold touches_only_overtime_status, OvertimeService.updateStatus.
  status_frame_tac overtimes status.
Qed.

Lemma LeaveService_update_status_frame (id status : string) :
  touches_only_leave_status id status (LeaveService.update id (leaveStatus status)).
Proof.
  unfold touches_only_leave_status, LeaveService.update.
  status_frame_tac leaves status.
Qed.

Lemma LeaveService_updateStatus_frame (id status : string) :
  touches_only_leave_status id status (LeaveService.updateStatus id status).
Proof.
  unfold touches_only_leave_status, LeaveService.updateStatus.
  status_frame_tac leaves status.
Qed.

Lemma OvertimeService_updateData_status (status : string) :
  status ≠ "" →
  OvertimeService.updateData (overtimeStatus status) = OvertimeService.statusOnly status.
Proof.
  intros Hs. unfold OvertimeService.updateData, OvertimeService.statusOnly.
  unfold when_truthy_str, truthy_str. cbn.
  by destruct (String.eqb_spec status "").
Qed.

Lemma LeaveService_updateData_status (status : string) :
  status ≠ "" →
  LeaveService.updateData (leaveStatus status) = LeaveService.statusOnly status.
Proof.
  intros Hs. unfold LeaveService.updateData, LeaveService.statusOnly.
  unfold when_truthy_str, truthy_str. cbn.
  by destruct (String.eqb_spec status "").
Qed.

(** The provider's [updateOvertimeStatus] and [updateLeaveStatus] are
    [update(id, { status })]. *)
Lemma updateOvertimeStatus_is_update {W} (svc : NanoDataContext.Services.t W)
    (id status : string) :
  NanoDataContext.updateOvertimeStatus svc id status
  = NanoDataContext.updateOvertime svc id (overtimeStatus status).
Proof. reflexivity. Qed.

Lemma updateLeaveStatus_is_update {W} (svc : NanoDataContext.Services.t W)
    (id status : string) :
  NanoDataContext.updateLeaveStatus svc id status
  = NanoDataContext.updateLeave svc id (leaveStatus status).
Proof. reflexivity. Qed.

(** C3.  For every id and status, and from every world: a run of
    [update(id, { status })] or of [updateStatus(id, status)] of the
    overtime service, and likewise of the leave service, leaves the users,
    the salaries and the other of the two tables as they were and changes
    no column but [status], and this on no row but those with the id; when
    the run succeeds with a non-empty status, the rows with the id and the
    returned record carry it.  For a non-empty status the two calls leave
    the same tables. *)
Theorem status_update_frame (id status : string) :
  touches_only_overtime_status id status
    (OvertimeService.update id (overtimeStatus status)) ∧
  touches_only_overtime_status id status (OvertimeService.updateStatus id status) ∧
  touches_only_leave_status id status (LeaveService.update id (leaveStatus status)) ∧
  touches_only_leave_status id status (LeaveService.updateStatus id status) ∧
  (status ≠ "" →
   ∀ w,
     same_tables (snd (OvertimeService.updateStatus id status w))
       (snd (OvertimeService.update id (overtimeStatus status) w)) ∧
     same_tables (snd (LeaveService.updateStatus id status w))
       (snd (LeaveService.update id (leaveStatus status) w))).
Proof.
  split_and!.
  - apply OvertimeService_update_status_frame.
  - apply OvertimeService_updateStatus_frame.
  - apply LeaveService_update_status_frame.
  - apply LeaveService_updateStatus_frame.
  - intros Hs w. split.
    + unfold OvertimeService.update, OvertimeService.updateStatus.
      rewrite (OvertimeService_updateData_status status Hs).
      unfold_supabase. unfold_m. cbn.
      destruct (isConfigured w); cbn; [|done].
      destruct (mjoin (head (faults w))); cbn; [done|].
      destruct (filter _ (overtimes w)) as [|old [|? ?]]; cbn; done.
    + unfold LeaveService.update, LeaveService.updateStatus.
      rewrite (LeaveService_updateData_status status Hs).
      unfold_supabase. unfold_m. cbn.
      destruct (isConfigured w); cbn; [|done].
      destruct (mjoin (head (faults w))); cbn; [done|].
      destruct (filter _ (leaves w)) as [|old [|? ?]]; cbn; done.
Qed.

(** *** Falsy fields *)

Lemma SalaryService_apply_patch_keeps (p : SalaryService.Patch.t)
    (old new : SalaryRow.t) :
  SalaryService.apply_patch p old = inr new →
  (SalaryService.Patch.base_salary p = None →
   SalaryRow.base_salary new = SalaryRow.base_salary old) ∧
  (SalaryService.Patch.overtime_pay p = None →
   SalaryRow.overtime_pay new = SalaryRow.overtime_pay old) ∧
  (SalaryService.Patch.payment_date p = None →
   SalaryRow.payment_date new = SalaryRow.payment_date old) ∧
  (SalaryService.Patch.month p = None → SalaryRow.month new = SalaryRow.month old) ∧
  (SalaryService.Patch.year p = None → SalaryRow.year new = SalaryRow.year old).
Proof.
  unfold SalaryService.apply_patch.
  destruct (SalaryService.Patch.month p) as [[m|]|],
    (SalaryService.Patch.year p) as [[y|]|];
    intros [= <-]; cbn; split_and!; intros Hn; try done; by rewrite Hn.
Qed.

Lemma SalaryService_column_unchanged {C} (column : SalaryRow.t → C) parseInt
    (id : string) (u : SalaryService.Partial.t) (w : World) :
  (∀ now old new,
     SalaryService.apply_patch (SalaryService.updateData parseInt now u) old = inr new →
     column new = column old) →
  unchanged column (salaries w) (salaries (snd (SalaryService.update parseInt id u w))).
Proof.
  intros Hcol.
  destruct (SalaryService.update parseInt id u w) as [r w'] eqn:Hrun.
  apply SalaryService_update_effect in Hrun
    as (_ & _ & _ & [Heq | (old & new & Hf & Hp & Heq)]); cbn; rewrite Heq.
  - by apply Forall2_diag_refl.
  - apply Forall2_map_self. intros a Ha. destruct (decide _) as [Hid|]; [|done].
    assert (a = old) as -> by (eapply filter_single; eauto).
    by eapply Hcol.
Qed.

Lemma OvertimeService_column_unchanged {C} (column : OvertimeRow.t → C)
    (id : string) (u : OvertimeService.Partial.t) (w : World) :
  (∀ old new,
     OvertimeService.apply_patch (OvertimeService.updateData u) old = inr new →
     column new = column old) →
  unchanged column (overtimes w) (overtimes (snd (OvertimeService.update id u w))).
Proof.
  intros Hcol.
  destruct (OvertimeService_update_tables id u w) as [(_ & _ & -> & _) | (_ & _ & -> & _)].
  { by apply Forall2_diag_refl. }
  destruct (OvertimeService_patch_effect id (OvertimeService.updateData u) w)
    as (_ & _ & _ & [-> | (old & Hf & _ & ->)]).
  - by apply Forall2_diag_refl.
  - apply Forall2_map_self. intros a Ha. destruct (decide _) as [Hid|]; [|done].
    assert (a = old) as -> by (eapply filter_single; eauto).
    by eapply Hcol.
Qed.

Lemma LeaveService_column_unchanged {C} (column : LeaveRow.t → C)
    (id : string) (u : LeaveService.Partial.t) (w : World) :
  (∀ old new,
     LeaveService.apply_patch (LeaveService.updateData u) old = inr new →
     column new = column old) →
  unchanged column (leaves w) (leaves (snd (LeaveService.update id u w))).
Proof.
  intros Hcol.
  destruct (LeaveService_update_tables id u w) as [(_ & _ & _ & ->) | (_ & _ & _ & ->)].
  { by apply Forall2_diag_refl. }
  destruct (LeaveService_patch_effect id (LeaveService.updateData u) w)
    as (_ & _ & _ & [-> | (old & Hf & _ & ->)]).
  - by apply Forall2_diag_refl.
  - apply Forall2_map_self. intros a Ha. destruct (decide _) as [Hid|]; [|done].
    assert (a = old) as -> by (eapply filter_single; eauto).
    by eapply Hcol.
Qed.

Lemma UserService_column_unchanged {C} (column : UserRow.t → C)
    (id : string) (u : UserService.Partial.t) (w : World) :
  (∀ now old new,
     UserService.apply_patch (UserService.updateData now u) old = inr new →
     column new = column old) →
  unchanged column (users w) (users (snd (UserService.update id u w))).
Proof.
  intros Hcol.
  destruct (UserService_update_tables id u w) as [(-> & _) | (-> & _)].
  { by apply Forall2_diag_refl. }
  destruct (UserService_patch_effect id
              (UserService.updateData (clock w (ticks w)) u) w)
    as (_ & _ & _ & [-> | (old & Hf & ->)]).
  - by apply Forall2_diag_refl.
  - apply Forall2_map_self. intros a Ha. destruct (decide _) as [Hid|]; [|done].
    assert (a = old) as -> by (eapply filter_single; eauto).
    by eapply Hcol.
Qed.

Lemma status_update_frame_witness :
  Forall2 (overtime_status_frame "row-1") (overtimes seeded)
    (overtimes (snd (OvertimeService.update "row-1" (overtimeStatus "approved") seeded))) ∧
  Forall (fun row => OvertimeRow.id row = "row-1" → OvertimeRow.status row = "approved")
    (overtimes (snd (OvertimeService.update "row-1" (overtimeStatus "approved") seeded))).
Proof.
  destruct (status_update_frame "row-1" "approved") as (H & _).
  destruct (H seeded
              (snd (OvertimeService.update "row-1" (overtimeStatus "approved") seeded))
              (fst (OvertimeService.update "row-1" (overtimeStatus "approved") seeded)))
    as (_ & _ & _ & Hframe & Hset).
  - apply surjective_pairing.
  - split; [exact Hframe|].
    eapply Hset.
    + vm_compute. reflexivity.
    + discriminate.
Defined.

Ltac dropped Hf :=
  split;
  [ intros; cbn; unfold when_truthy_num, when_truthy_str; by rewrite Hf
  | ].

(** C9.  For [update] of the salary, overtime, leave and user services,
    from every world and for every field the method guards with
    [if (updates.field)]: when the value supplied for the field is falsy
    ([undefined], [0] or the empty string), the write set has no entry for
    the field's column, and the column keeps its stored value on every row
    of the table. *)
Theorem update_drops_falsy_fields :
  (∀ parseInt id u w,
     let w' := snd (SalaryService.update parseInt id u w) in
     (truthy_num (SalaryService.Partial.baseSalary u) = false →
      (∀ now, SalaryService.Patch.base_salary
                (SalaryService.updateData parseInt now u) = None) ∧
      unchanged SalaryRow.base_salary (salaries w) (salaries w')) ∧
     (truthy_num (SalaryService.Partial.overtimePay u) = false →
      (∀ now, SalaryService.Patch.overtime_pay
                (SalaryService.updateData parseInt now u) = None) ∧
      unchanged SalaryRow.overtime_pay (salaries w) (salaries w')) ∧
     (truthy_str (SalaryService.Partial.paymentDate u) = false →
      (∀ now, SalaryService.Patch.payment_date
                (SalaryService.updateData parseInt now u) = None) ∧
      unchanged SalaryRow.payment_date (salaries w) (salaries w')) ∧
     (truthy_str (SalaryService.Partial.month u) = false →
      (∀ now, SalaryService.Patch.month
                (SalaryService.updateData parseInt now u) = None) ∧
      unchanged SalaryRow.month (salaries w) (salaries w')) ∧
     (truthy_str (SalaryService.Partial.year u) = false →
      (∀ now, SalaryService.Patch.year
                (SalaryService.updateData parseInt now u) = None) ∧
      unchanged SalaryRow.year (salaries w) (salaries w'))) ∧
  (∀ id u w,
     let w' := snd (OvertimeService.update id u w) in
     (truthy_str (OvertimeService.Partial.date u) = false →
      OvertimeService.Patch.date (OvertimeService.updateData u) = None ∧
      unchanged OvertimeRow.date (overtimes w) (overtimes w')) ∧
     (truthy_num (OvertimeService.Partial.hours u) = false →
      OvertimeService.Patch.hours (OvertimeService.updateData u) = None ∧
      unchanged OvertimeRow.hours (overtimes w) (overtimes w')) ∧
     (truthy_str (OvertimeService.Partial.description u) = false →
      OvertimeService.Patch.reason (OvertimeService.updateData u) = None ∧
      unchanged OvertimeRow.reason (overtimes w) (overtimes w')) ∧
     (truthy_str (OvertimeService.Partial.status u) = false →
      OvertimeService.Patch.status (OvertimeService.updateData u) = None ∧
      unchanged OvertimeRow.status (overtimes w) (overtimes w'))) ∧
  (∀ id u w,
     let w' := snd (LeaveService.update id u w) in
     (truthy_str (LeaveService.Partial.startDate u) = false →
      LeaveService.Patch.start_date (LeaveService.updateData u) = None ∧
      unchanged LeaveRow.start_date (leaves w) (leaves w')) ∧
     (truthy_str (LeaveService.Partial.endDate u) = false →
      LeaveService.Patch.end_date (LeaveService.updateData u) = None ∧
      unchanged LeaveRow.end_date (leaves w) (leaves w')) ∧
     (truthy_str (LeaveService.Partial.type u) = false →
      LeaveService.Patch.type (LeaveService.updateData u) = None ∧
      unchanged LeaveRow.type (leaves w) (leaves w')) ∧
     (truthy_str (LeaveService.Partial.status u) = false →
      LeaveService.Patch.status (LeaveService.updateData u) = None ∧
      unchanged LeaveRow.status (leaves w) (leaves w'))) ∧
  (∀ id u w,
     let w' := snd (UserService.update id u w) in
     (truthy_str (UserService.Partial.name u) = false →
      (∀ now, UserService.Patch.name (UserService.updateData now u) = None) ∧
      unchanged UserRow.name (users w) (users w')) ∧
     (truthy_str (UserService.Partial.email u) = false →
      (∀ now, UserService.Patch.email (UserService.updateData now u) = None) ∧
      unchanged UserRow.email (users w) (users w')) ∧
     (truthy_str (UserService.Partial.employeeType u) = false →
      (∀ now, UserService.Patch.employee_type (UserService.updateData now u) = None) ∧
      unchanged UserRow.employee_type (users w) (users w')) ∧
     (truthy_str (UserService.Partial.startDate u) = false →
      (∀ now, UserService.Patch.start_date (UserService.updateData now u) = None) ∧
      unchanged UserRow.start_date (users w) (users w'))).
Proof.
  split_and!.
  - intros parseInt id u w w'. subst w'. split_and!; intros Hf; dropped Hf;
      apply SalaryService_column_unchanged; intros now old new Hp;
      apply SalaryService_apply_patch_keeps in Hp as (H1 & H2 & H3 & H4 & H5);
      [apply H1 | apply H2 | apply H3 | apply H4 | apply H5];
      cbn; unfold when_truthy_num, when_truthy_str; by rewrite Hf.
  - intros id u w w'. subst w'. split_and!; intros Hf; dropped Hf;
      apply OvertimeService_column_unchanged; intros old new [= <-]; cbn;
      unfold when_truthy_num, when_truthy_str; by rewrite Hf.
  - intros id u w w'. subst w'. split_and!; intros Hf; dropped Hf;
      apply LeaveService_column_unchanged; intros old new [= <-]; cbn;
      unfold when_truthy_num, when_truthy_str; by rewrite Hf.
  - intros id u w w'. subst w'. split_and!; intros Hf; dropped Hf;
      apply UserService_column_unchanged; intros now old new [= <-]; cbn;
      unfold when_truthy_num, when_truthy_str; by rewrite Hf.
Qed.

Lemma update_drops_falsy_fields_witness :
  unchanged SalaryRow.base_salary (salaries seeded)
    (salaries (snd (SalaryService.update Sample.parseDecimal "row-0"
                      {| SalaryService.Partial.baseSalary := Some 0;
                         SalaryService.Partial.overtimePay := Some 500;
                         SalaryService.Partial.paymentDate := None;
                         SalaryService.Partial.month := None;
                         SalaryService.Partial.year := None |} seeded))) ∧
  unchanged OvertimeRow.hours (overtimes seeded)
    (overtimes (snd (OvertimeService.update "row-1"
                       {| OvertimeService.Partial.date := None;
                          OvertimeService.Partial.hours := Some 0;
                          OvertimeService.Partial.description := Some "";
                          OvertimeService.Partial.status := Some "approved" |}
                       seeded))).
Proof.
  destruct update_drops_falsy_fields as (Hs & Ho & _).
  split.
  - destruct (Hs Sample.parseDecimal "row-0"
                {| SalaryService.Partial.baseSalary := Some 0;
                   SalaryService.Partial.overtimePay := Some 500;
                   SalaryService.Partial.paymentDate := None;
                   SalaryService.Partial.month := None;
                   SalaryService.Partial.year := None |} seeded) as (H & _).
    apply H. reflexivity.
  - destruct (Ho "row-1"
                {| OvertimeService.Partial.date := None;
                   OvertimeService.Partial.hours := Some 0;
                   OvertimeService.Partial.description := Some "";
                   OvertimeService.Partial.status := Some "approved" |} seeded)
      as (_ & H & _).
    apply H. reflexivity.
Defined.

(** [update('row-0', { baseSalary: 0, overtimePay: 500 })] on the seeded
    backend: the base salary stays 15000, the overtime pay becomes 500. *)
Example update_baseSalary_zero :
  map (fun r => (SalaryRow.base_salary r, SalaryRow.overtime_pay r))
    (salaries (snd (SalaryService.update Sample.parseDecimal "row-0"
                      {| SalaryService.Partial.baseSalary := Some 0;
                         SalaryService.Partial.overtimePay := Some 500;
                         SalaryService.Partial.paymentDate := None;
                         SalaryService.Partial.month := None;
                         SalaryService.Partial.year := None |} seeded)))
  = [(15000, Some 500)].
Proof. vm_compute. reflexivity. Qed.

(** [update('row-1', { hours: 0, description: '', status: 'approved' })]:
    hours and reason stay, the status is written. *)
Example update_hours_zero :
  map (fun r => (OvertimeRow.hours r, OvertimeRow.reason r, OvertimeRow.status r))
    (overtimes (snd (OvertimeService.update "row-1"
                       {| OvertimeService.Partial.date := None;
                          OvertimeService.Partial.hours := Some 0;
                          OvertimeService.Partial.description := Some "";
                          OvertimeService.Partial.status := Some "approved" |}
                       seeded)))
  = [(8, Some "Project deadline", "approved")].
Proof. vm_compute. reflexivity. Qed.

(** The seeded salary read back. *)
Example seeded_salary :
  fst (SalaryService.getByUserId "demo-user-1" seeded)
  = Ok [ {| Salary.id := "row-0";
            Salary.userId := "demo-user-1";
            Salary.month := "1";
            Salary.year := "2024";
            Salary.grossSalary := 17000;
            Salary.netSalary := 17000;
            Salary.baseSalary := 15000;
            Salary.overtimePay := 2000;
            Salary.bonus := 0;
            Salary.besDeduction := 0;
            Salary.paymentDate := "2024-01-31";
            Salary.created_at := "2024-01-01T00:00:10" |} ].
Proof. vm_compute. reflexivity. Qed.

End ServiceFacts.

(** ** contexts/NanoDataContext.tsx *)

Section ProviderFacts.
Import NanoDataContext Provider.

Context {W : Type} (svc : Services.t W).

Ltac unfold_provider :=
  unfold updateOvertimeStatus, updateLeaveStatus;
  unfold refreshData, createUser, updateUser, deleteUser, createSalary,
    updateSalary, deleteSalary, createOvertime, updateOvertime, deleteOvertime,
    createLeave, updateLeave, deleteLeave, clearErrors, call, dispatch, logger.

(** Case analysis on the outcome of the service call the goal runs. *)
Ltac case_call :=
  match goal with
  | |- context [Services.getAllUsers ?s ?w] =>
      destruct (Services.getAllUsers s w) as [[?|?] ?] eqn:?
  | |- context [Services.getAllSalaries ?s ?w] =>
      destruct (Services.getAllSalaries s w) as [[?|?] ?] eqn:?
  | |- context [Services.getAllOvertimes ?s ?w] =>
      destruct (Services.getAllOvertimes s w) as [[?|?] ?] eqn:?
  | |- context [Services.getAllLeaves ?s ?w] =>
      destruct (Services.getAllLeaves s w) as [[?|?] ?] eqn:?
  | |- context [Services.createUser ?s ?a ?w] =>
      destruct (Services.createUser s a w) as [[?|?] ?] eqn:?
  | |- context [Services.updateUser ?s ?a ?b ?w] =>
      destruct (Services.updateUser s a b w) as [[[?|]|?] ?] eqn:?
  | |- context [Services.deleteUser ?s ?a ?w] =>
      destruct (Services.deleteUser s a w) as [[[|]|?] ?] eqn:?
  | |- context [Services.createSalary ?s ?a ?w] =>
      destruct (Services.createSalary s a w) as [[?|?] ?] eqn:?
  | |- context [Services.updateSalary ?s ?a ?b ?w] =>
      destruct (Services.updateSalary s a b w) as [[[?|]|?] ?] eqn:?
  | |- context [Services.deleteSalary ?s ?a ?w] =>
      destruct (Services.deleteSalary s a w) as [[?|?] ?] eqn:?
  | |- context [Services.createOvertime ?s ?a ?w] =>
      destruct (Services.createOvertime s a w) as [[?|?] ?] eqn:?
  | |- context [Services.updateOvertime ?s ?a ?b ?w] =>
      destruct (Services.updateOvertime s a b w) as [[[?|]|?] ?] eqn:?
  | |- context [Services.deleteOvertime ?s ?a ?w] =>
      destruct (Services.deleteOvertime s a w) as [[?|?] ?] eqn:?
  | |- context [Services.createLeave ?s ?a ?w] =>
      destruct (Services.createLeave s a w) as [[?|?] ?] eqn:?
  | |- context [Services.updateLeave ?s ?a ?b ?w] =>
      destruct (Services.updateLeave s a b w) as [[[?|]|?] ?] eqn:?
  | |- context [Services.deleteLeave ?s ?a ?w] =>
      destruct (Services.deleteLeave s a w) as [[?|?] ?] eqn:?
  end; cbn -[nanoDataReducer].

Ltac run_provider :=
  unfold exec, run, thrown; unfold_provider; unfold_m; cbn -[nanoDataReducer].

(** Every operation only dispatches: the state it leaves is the reducer
    folded over the actions it appended to the log, none of which is
    [SET_LOADING] with [loading: false]. *)
Lemma exec_dispatches (op : Operation) (st : Store W) :
  ∃ new : list NanoDataAction,
    dispatched (exec svc op st) = (dispatched st ++ new)%list ∧
    state (exec svc op st) = fold_left nanoDataReducer new (state st) ∧
    forallb (fun a => negb (resets_loading a)) new = true.
Proof.
  destruct op; run_provider;
    repeat case_call; rewrite <- ?app_assoc;
    try (eexists; split; [reflexivity|]; split; reflexivity);
    exists []; rewrite app_nil_r; done.
Qed.

Lemma reducer_keeps_loading (a : NanoDataAction) (s : NanoDataState) (e : Entity.t) :
  resets_loading a = false →
  loading e s = true →
  loading e (nanoDataReducer s a) = true.
Proof.
  unfold loading.
  destruct a as [e' [|]| | | | | | | | | | | | | | | | | |]; try done;
    intros _ H; try exact H.
  destruct e, e'; cbn; done.
Qed.

Lemma fold_keeps_loading (new : list NanoDataAction) (s : NanoDataState)
    (e : Entity.t) :
  forallb (fun a => negb (resets_loading a)) new = true →
  loading e s = true →
  loading e (fold_left nanoDataReducer new s) = true.
Proof.
  revert s. induction new as [|a new IH]; intros s Hall H; [done|].
  cbn in Hall. apply andb_true_iff in Hall as [Ha Hall].
  cbn [fold_left]. apply IH; [done|].
  apply reducer_keeps_loading; [|done]. by destruct (resets_loading a).
Qed.

(** What [refreshData] does with a service layer whose fetches answer:
    it asks for the users in the world it starts from, for the salaries in
    the world the users' fetch left, then for the overtimes, then for the
    leaves, and the collection of an entity whose fetch was reached and
    succeeded is exactly the list that fetch returned.  The services the
    repository wires in never meet the first hypothesis: see
    [refreshData_fetches_nothing] below. *)
Lemma refreshData_replaces_wholesale (st : Store W) :
  ∀ us w1,
    Services.getAllUsers svc (world st) = (Ok us, w1) →
    users (state (exec svc RefreshData st)) = us ∧
    ∀ ss w2,
      Services.getAllSalaries svc w1 = (Ok ss, w2) →
      salaries (state (exec svc RefreshData st)) = ss ∧
      ∀ os w3,
        Services.getAllOvertimes svc w2 = (Ok os, w3) →
        overtimes (state (exec svc RefreshData st)) = os ∧
        ∀ ls w4,
          Services.getAllLeaves svc w3 = (Ok ls, w4) →
          leaves (state (exec svc RefreshData st)) = ls ∧
          world (exec svc RefreshData st) = w4 ∧
          dispatched (exec svc RefreshData st) =
            (dispatched st ++
             [SET_LOADING Entity.users true; SET_USERS us;
              SET_ERROR Entity.users None;
              SET_LOADING Entity.salaries true; SET_SALARIES ss;
              SET_ERROR Entity.salaries None;
              SET_LOADING Entity.overtimes true; SET_OVERTIMES os;
              SET_ERROR Entity.overtimes None;
              SET_LOADING Entity.leaves true; SET_LEAVES ls;
              SET_ERROR Entity.leaves None])%list.
Proof.
  intros us w1 H1. run_provider. rewrite H1. cbn -[nanoDataReducer].
  split; [repeat case_call; reflexivity|].
  intros ss w2 H2. rewrite H2. cbn -[nanoDataReducer].
  split; [repeat case_call; reflexivity|].
  intros os w3 H3. rewrite H3. cbn -[nanoDataReducer].
  split; [repeat case_call; reflexivity|].
  intros ls w4 H4. rewrite H4. cbn -[nanoDataReducer].
  split; [reflexivity|]. split; [reflexivity|].
  by rewrite <- !app_assoc.
Qed.

Lemma exec_keeps_loading (op : Operation) (st : Store W) (e : Entity.t) :
  loading e (state st) = true → loading e (state (exec svc op st)) = true.
Proof.
  intros He. destruct (exec_dispatches op st) as (new & _ & -> & Hnew).
  by apply fold_keeps_loading.
Qed.

Lemma execs_keep_loading (ops : list Operation) (st : Store W) (e : Entity.t) :
  loading e (state st) = true →
  loading e (state (fold_left (fun s o => exec svc o s) ops st)) = true.
Proof.
  revert st. induction ops as [|op ops IH]; intros st He; [done|].
  cbn [fold_left]. by apply IH, exec_keeps_loading.
Qed.

(** C10.  Whatever operation of the provider runs, from whatever store:
    none of the actions it dispatches is [SET_LOADING] with
    [loading: false], so a loading flag that is [true] stays [true]
    through it and through whatever operations run later.  And after
    [refreshData], and from then on, the flag of the users is [true], and
    so is the flag of every entity whose fetch was reached: the salaries'
    once the users' fetch succeeded, the overtimes' once the salaries'
    did, the leaves' once the overtimes' did, whether or not that fetch
    itself succeeds. *)
Theorem loading_flags_never_reset (op : Operation) (later : list Operation)
    (st : Store W) :
  (∃ new : list NanoDataAction,
     dispatched (exec svc op st) = (dispatched st ++ new)%list ∧
     state (exec svc op st) = fold_left nanoDataReducer new (state st) ∧
     forallb (fun a => negb (resets_loading a)) new = true) ∧
  (∀ e,
     loading e (state st) = true →
     loading e (state (fold_left (fun s o => exec svc o s) later (exec svc op st)))
     = true) ∧
  (op = RefreshData →
   loading Entity.users
     (state (fold_left (fun s o => exec svc o s) later (exec svc op st))) = true ∧
   ∀ us w1,
     Services.getAllUsers svc (world st) = (Ok us, w1) →
     loading Entity.salaries
       (state (fold_left (fun s o => exec svc o s) later (exec svc op st))) = true ∧
     ∀ ss w2,
       Services.getAllSalaries svc w1 = (Ok ss, w2) →
       loading Entity.overtimes
         (state (fold_left (fun s o => exec svc o s) later (exec svc op st))) = true ∧
       ∀ os w3,
         Services.getAllOvertimes svc w2 = (Ok os, w3) →
         loading Entity.leaves
           (state (fold_left (fun s o => exec svc o s) later (exec svc op st))) = true).
Proof.
  split_and!.
  - apply exec_dispatches.
  - intros e He. by apply execs_keep_loading, exec_keeps_loading.
  - intros ->.
    split; [apply execs_keep_loading; unfold loading; run_provider;
            repeat case_call; reflexivity|].
    intros us w1 H1.
    split; [apply execs_keep_loading; unfold loading; run_provider;
            rewrite H1; cbn -[nanoDataReducer]; repeat case_call; reflexivity|].
    intros ss w2 H2.
    split; [apply execs_keep_loading; unfold loading; run_provider;
            rewrite H1; cbn -[nanoDataReducer]; rewrite H2; cbn -[nanoDataReducer];
            repeat case_call; reflexivity|].
    intros os w3 H3.
    apply execs_keep_loading; unfold loading; run_provider.
    rewrite H1; cbn -[nanoDataReducer]; rewrite H2; cbn -[nanoDataReducer].
    rewrite H3; cbn -[nanoDataReducer]. repeat case_call; reflexivity.
Qed.

Lemma only_error_set_reducer (entity : Entity.t) (msg : string) (s : NanoDataState) :
  only_error_set entity msg s (nanoDataReducer s (SET_ERROR entity (Some msg))).
Proof.
  unfold only_error_set. cbn. split_and!; try done.
  - by destruct entity.
  - intros e' Hne. destruct entity, e'; done.
Qed.

(** C2, as amended.  For every create, update and delete operation of
    the provider and every entity: when the service call throws, the
    operation rethrows the same exception, dispatches the single action
    [SET_ERROR] for its entity with its own message, and so leaves a state
    that differs from the prior one in that error field alone.
    [refreshData] gives less.  It does not rethrow; and when its first
    fetch, the users', throws, it makes no other fetch and dispatches two
    actions: the four collections, the error fields and the loading flags
    of the other three entities are as before, the users' error field
    holds the message of [refreshData], and the users' loading flag is
    [true]. *)
Theorem failed_call_sets_only_error (st : Store W) :
  (∀ op e entity msg,
     failure_slot op = Some (entity, msg) →
     service_failure svc op (world st) = Some e →
     fst (run svc op st) = Some e ∧
     only_error_set entity msg (state st) (state (exec svc op st)) ∧
     dispatched (exec svc op st) = (dispatched st ++ [SET_ERROR entity (Some msg)])%list) ∧
  (∀ e w1,
     Services.getAllUsers svc (world st) = (Throw e, w1) →
     fst (run svc RefreshData st) = None ∧
     world (exec svc RefreshData st) = w1 ∧
     users (state (exec svc RefreshData st)) = users (state st) ∧
     salaries (state (exec svc RefreshData st)) = salaries (state st) ∧
     overtimes (state (exec svc RefreshData st)) = overtimes (state st) ∧
     leaves (state (exec svc RefreshData st)) = leaves (state st) ∧
     loading Entity.users (state (exec svc RefreshData st)) = true ∧
     error Entity.users (state (exec svc RefreshData st)) = Some msg_refresh ∧
     (∀ x, x ≠ Entity.users →
        loading x (state (exec svc RefreshData st)) = loading x (state st) ∧
        error x (state (exec svc RefreshData st)) = error x (state st)) ∧
     dispatched (exec svc RefreshData st)
     = (dispatched st
        ++ [SET_LOADING Entity.users true;
            SET_ERROR Entity.users (Some msg_refresh)])%list).
Proof.
  split.
  - intros op e entity msg Hslot Hfail.
    destruct op; cbn in Hslot; try discriminate Hslot;
      injection Hslot as <- <-; cbn in Hfail;
      unfold Backend.overtimeStatus, Backend.leaveStatus in Hfail; revert Hfail;
      run_provider; case_call; intros [= <-];
      (split; [reflexivity|]); (split; [apply only_error_set_reducer | reflexivity]).
  - intros e w1 H1. unfold loading, error. run_provider. rewrite H1.
    cbn. split_and!; try reflexivity; [by intros [] Hx | by rewrite <- app_assoc].
Qed.

End ProviderFacts.

(** ** The provider over the sample backend *)

Section ProviderRuns.
Import NanoDataContext Provider.

(** C4.  With the services the repository wires in, [refreshData]
    fetches nothing and replaces nothing: its first call,
    [userService.getAllUsers()], throws before any request is sent, the
    [catch] stores the message under [users], and the salaries', the
    overtimes' and the leaves' services are never called.  Whatever the
    store held, the four collections are as before, the backend has
    received no request, the two actions dispatched are [SET_LOADING] for
    the users and [SET_ERROR] for the users, and the call does not
    throw. *)
Theorem refreshData_fetches_nothing (parseInt : string → option Z)
    (st : Store Supabase.World) :
  fst (run (App.services parseInt) RefreshData st) = None ∧
  users (state (exec (App.services parseInt) RefreshData st)) = users (state st) ∧
  salaries (state (exec (App.services parseInt) RefreshData st)) = salaries (state st) ∧
  overtimes (state (exec (App.services parseInt) RefreshData st)) = overtimes (state st) ∧
  leaves (state (exec (App.services parseInt) RefreshData st)) = leaves (state st) ∧
  world (exec (App.services parseInt) RefreshData st) = world st ∧
  Supabase.requests (world (exec (App.services parseInt) RefreshData st))
  = Supabase.requests (world st) ∧
  dispatched (exec (App.services parseInt) RefreshData st)
  = (dispatched st
     ++ [SET_LOADING Entity.users true;
         SET_ERROR Entity.users (Some msg_refresh)])%list.
Proof.
  unfold exec, run, thrown, refreshData, call, dispatch, logger, App.services,
    App.not_a_function.
  unfold_m. cbn. split_and!; try reflexivity. by rewrite <- app_assoc.
Qed.

(** C2 as stated, at [refreshData] with the services the repository
    wires in: the users' fetch throws, and the state left is not the prior
    state with only one error field set to a message, whichever entity
    and message are taken: next to the users' error field, the users'
    loading flag has changed. *)
Lemma refreshData_failure_not_local :
  Services.getAllUsers services (world (mount Sample.emptyWorld))
  = (Throw (JsError "userService.getAllUsers is not a function"), Sample.emptyWorld) ∧
  error Entity.users (state (exec services RefreshData (mount Sample.emptyWorld)))
  = Some msg_refresh ∧
  loading Entity.users (state (mount Sample.emptyWorld)) = false ∧
  loading Entity.users (state (exec services RefreshData (mount Sample.emptyWorld)))
  = true ∧
  ¬ ∃ entity msg,
      only_error_set entity msg (state (mount Sample.emptyWorld))
        (state (exec services RefreshData (mount Sample.emptyWorld))).
Proof.
  split; [reflexivity|]. split; [vm_compute; reflexivity|].
  split; [reflexivity|]. split; [vm_compute; reflexivity|].
  intros (entity & msg & _ & _ & _ & _ & Hl & _).
  vm_compute in Hl. discriminate Hl.
Qed.

Lemma failed_call_sets_only_error_witness :
  fst (run services (CreateSalary Sample.salaryData) (mount refusing))
  = Some (BackendError Sample.refusal) ∧
  only_error_set Entity.salaries msg_createSalary (state (mount refusing))
    (state (exec services (CreateSalary Sample.salaryData) (mount refusing))) ∧
  dispatched (exec services (CreateSalary Sample.salaryData) (mount refusing))
  = [SET_ERROR Entity.salaries (Some msg_createSalary)].
Proof.
  destruct (failed_call_sets_only_error services (mount refusing)) as (H & _).
  apply (H (CreateSalary Sample.salaryData) (BackendError Sample.refusal)
           Entity.salaries msg_createSalary).
  - reflexivity.
  - vm_compute. reflexivity.
Defined.

Lemma loading_flags_never_reset_witness :
  loading Entity.users
    (state (exec services ClearErrors
              (exec services (DeleteSalary "row-0")
                 (exec services RefreshData (mount refusing))))) = true ∧
  loading Entity.users
    (state (exec services (CreateSalary Sample.salaryData)
              (exec services ClearErrors
                 (exec services RefreshData (mount Sample.emptyWorld))))) = true.
Proof.
  split.
  - destruct (loading_flags_never_reset services RefreshData
                [DeleteSalary "row-0"; ClearErrors] (mount refusing))
      as (_ & _ & H).
    destruct (H eq_refl) as (Hu & _). exact Hu.
  - destruct (loading_flags_never_reset services ClearErrors
                [CreateSalary Sample.salaryData]
                (exec services RefreshData (mount Sample.emptyWorld)))
      as (_ & H & _).
    apply (H Entity.users). vm_compute. reflexivity.
Defined.

End ProviderRuns.

(** ** utils/logger.ts *)

Section LoggerFacts.
Import Logger.

Context {Data : Type} (truthy : Data → bool).

Lemma slice_last_length {A} (n : nat) (l : list A) :
  (0 < n)%nat → length (slice_last n l) = Nat.min (length l) n.
Proof.
  intros Hn. unfold slice_last. destruct n as [|n]; [lia|].
  rewrite length_drop. lia.
Qed.

Lemma slice_last_short {A} (n : nat) (l : list A) :
  (length l ≤ n)%nat → slice_last n l = l.
Proof.
  intros Hl. unfold slice_last. destruct n as [|n]; [done|].
  replace (length l - S n)%nat with O by lia. done.
Qed.

Lemma log_logs (entry : LogEntry Data) (g : t Data) :
  logs (log truthy entry g) = slice_last (maxLogs g) (logs g ++ [entry]).
Proof.
  unfold log. cbn. case_decide as Hlen; [done|].
  symmetry. apply slice_last_short. lia.
Qed.

Lemma call_maxLogs (c : Call Data) (g : t Data) :
  maxLogs (call truthy c g) = maxLogs g.
Proof.
  destruct c; cbn; unfold debug, info, warn, error, formatMessage;
    try destruct (shouldLog _ g); reflexivity.
Qed.

Lemma call_DEV (c : Call Data) (g : t Data) : DEV (call truthy c g) = DEV g.
Proof.
  destruct c; cbn; unfold debug, info, warn, error, formatMessage;
    try destruct (shouldLog _ g); reflexivity.
Qed.

Lemma call_bounded (c : Call Data) (g : t Data) :
  (0 < maxLogs g)%nat →
  (length (logs g) ≤ maxLogs g)%nat →
  (length (logs (call truthy c g)) ≤ maxLogs g)%nat.
Proof.
  intros Hpos Hlen.
  destruct c; cbn; unfold debug, info, warn, error, formatMessage;
    try (destruct (shouldLog _ g); [|done]; rewrite log_logs; cbn;
         rewrite slice_last_length by done; lia);
    cbn; lia.
Qed.

(** X1.  With a positive [maxLogs], a buffer that holds at most
    [maxLogs] entries holds at most [maxLogs] entries after any sequence
    of calls of the logger. *)
Theorem logger_buffer_bounded (cs : list (Call Data)) (g : t Data) :
  (0 < maxLogs g)%nat →
  (length (logs g) ≤ maxLogs g)%nat →
  (length (logs (calls truthy cs g)) ≤ maxLogs g)%nat ∧
  maxLogs (calls truthy cs g) = maxLogs g.
Proof.
  revert g. induction cs as [|c cs IH]; intros g Hpos Hlen; [done|].
  unfold calls in *. cbn [fold_left].
  destruct (IH (call truthy c g)) as [H1 H2].
  - by rewrite call_maxLogs.
  - rewrite call_maxLogs. by apply call_bounded.
  - rewrite call_maxLogs in H1, H2. done.
Qed.

(** X2.  A logging call below the current level leaves the logger
    exactly as it was (no entry, no console output, no clock reading);
    and at level [NONE] this holds for every sequence of logging calls. *)
Theorem logger_below_level_is_silent (g : t Data) :
  (∀ c lvl,
     written_at c = Some lvl →
     value lvl < value (logLevel g) →
     call truthy c g = g) ∧
  (∀ cs,
     logLevel g = NONE →
     Forall (fun c => is_Some (written_at c)) cs →
     calls truthy cs g = g).
Proof.
  assert (Hone : ∀ (g : t Data) c lvl,
            written_at c = Some lvl → value lvl < value (logLevel g) →
            call truthy c g = g).
  { intros g' c lvl Hw Hlt.
    destruct c; cbn in Hw; try discriminate Hw; injection Hw as <-; cbn;
      unfold debug, info, warn, error, shouldLog;
      rewrite bool_decide_false by lia; reflexivity. }
  split; [apply Hone|].
  intros cs Hnone Hall. induction Hall as [|c cs [lvl Hw] Hall IH]; [done|].
  unfold calls in *. cbn [fold_left].
  rewrite (Hone g c lvl Hw); [exact IH|].
  rewrite Hnone. destruct c; cbn in Hw; try discriminate Hw;
    injection Hw as <-; cbn; lia.
Qed.

(** X3.  A logging call at or above the current level appends one
    entry with the call's message, level and data, with the clock reading
    as timestamp and ['App'] for a missing or empty source.  With a
    positive [maxLogs] the new entry is the last of the buffer; the
    entries before it are kept while there is room, and when the buffer is
    full the oldest one is dropped. *)
Theorem logger_keeps_newest (g : t Data) (lvl : LogLevel) (message : string)
    (data : option Data) (source : option string) :
  let c :=
    match lvl with
    | DEBUG => CallDebug message data source
    | INFO => CallInfo message data source
    | WARN => CallWarn message data source
    | _ => CallError message data source
    end in
  let entry :=
    {| timestamp := clock g (ticks g); level := lvl; message := message;
       data := data; source := str_or source "App" |} in
  lvl ≠ NONE →
  value (logLevel g) ≤ value lvl →
  (0 < maxLogs g)%nat →
  last (logs (call truthy c g)) = Some entry ∧
  ((length (logs g) < maxLogs g)%nat →
   logs (call truthy c g) = (logs g ++ [entry])%list) ∧
  (length (logs g) = maxLogs g →
   logs (call truthy c g) = (drop 1 (logs g) ++ [entry])%list).
Proof.
  intros c entry Hlvl Hle Hpos.
  assert (logs (call truthy c g) = slice_last (maxLogs g) (logs g ++ [entry])) as ->.
  { subst c entry. destruct lvl; try done; cbn [call];
      unfold debug, info, warn, error, shouldLog, formatMessage;
      rewrite bool_decide_true by done; by rewrite log_logs. }
  unfold slice_last. destruct (maxLogs g) as [|n] eqn:Hn; [lia|].
  rewrite length_app. cbn [length].
  split_and!.
  - rewrite drop_app_le by lia. by rewrite last_snoc.
  - intros Hlt. by replace (length (logs g) + 1 - S n)%nat with O by lia.
  - intros Hfull. replace (length (logs g) + 1 - S n)%nat with 1%nat by lia.
    rewrite drop_app_le by lia. done.
Qed.

(** X4.  In a production build no sequence of calls writes to the
    console; in a development build each logging call at or above the
    level writes exactly one line. *)
Theorem logger_console_only_in_dev (g : t Data) :
  (∀ cs, DEV g = false → console (calls truthy cs g) = console g) ∧
  (∀ c lvl,
     DEV g = true →
     written_at c = Some lvl →
     value (logLevel g) ≤ value lvl →
     length (console (call truthy c g)) = S (length (console g))).
Proof.
  split.
  - intros cs. revert g. induction cs as [|c cs IH]; intros g Hdev; [done|].
    unfold calls in *. cbn [fold_left]. rewrite IH by (by rewrite call_DEV).
    destruct c; cbn; unfold debug, info, warn, error, formatMessage, log;
      try destruct (shouldLog _ g); cbn; rewrite ?Hdev; reflexivity.
  - intros c lvl Hdev Hw Hle.
    destruct c; cbn in Hw; try discriminate Hw; injection Hw as <-; cbn;
      unfold debug, info, warn, error, shouldLog;
      rewrite bool_decide_true by done; cbn; rewrite Hdev;
      rewrite length_app; cbn; lia.
Qed.

Lemma call_levels (c : Call Data) (g : t Data) :
  Forall (fun entry => level entry ≠ NONE) (logs g) →
  Forall (fun entry => level entry ≠ NONE) (logs (call truthy c g)).
Proof.
  intros Hall.
  assert (∀ (entry : LogEntry Data) g',
            logs g' = logs g → level entry ≠ NONE →
            Forall (fun entry => level entry ≠ NONE) (logs (log truthy entry g')))
    as Hlog.
  { intros entry g' Hg' He. rewrite log_logs, Hg'. unfold slice_last.
    destruct (maxLogs g'); [|apply Forall_drop];
      (apply Forall_app; split; [done | by constructor]). }
  destruct c; cbn; unfold debug, info, warn, error, formatMessage;
    try (destruct (shouldLog _ g); [|done]; by apply Hlog); [constructor | done].
Qed.

(** X5.  [getLogs(LogLevel.DEBUG)] returns the whole buffer, as
    [getLogs()] does (level [0] is not taken for a missing argument);
    [getLogs(level)] is a sublist of the buffer; and after any sequence of
    calls on a buffer whose entries were written by the logger,
    [getLogs(LogLevel.NONE)] is empty. *)
Theorem getLogs_thresholds (cs : list (Call Data)) (g : t Data) :
  Forall (fun entry => level entry ≠ NONE) (logs g) →
  getLogs (Some DEBUG) (calls truthy cs g) = getLogs None (calls truthy cs g) ∧
  (∀ l, getLogs (Some l) (calls truthy cs g) `sublist_of` logs (calls truthy cs g)) ∧
  getLogs (Some NONE) (calls truthy cs g) = [].
Proof.
  intros Hall.
  assert (Forall (fun entry => level entry ≠ NONE) (logs (calls truthy cs g))) as Hinv.
  { revert g Hall. induction cs as [|c cs IH]; intros g Hall; [done|].
    unfold calls in *. cbn [fold_left]. by apply IH, call_levels. }
  split_and!.
  - cbn. generalize (logs (calls truthy cs g)). clear.
    induction l as [|e l IH]; [done|].
    rewrite filter_cons_True by (destruct (level e); cbn; lia). by rewrite IH.
  - intros l. apply sublist_filter.
  - cbn. induction Hinv as [|e l He Hl IH]; [done|].
    rewrite filter_cons_False; [done|]. destruct (level e); cbn; try lia. done.
Qed.

End LoggerFacts.

Section LoggerRuns.
Import Logger.

Lemma logger_buffer_bounded_witness :
  (length (logs (calls LoggerSample.truthy LoggerSample.fourCalls LoggerSample.full))
   ≤ 3)%nat.
Proof.
  apply (logger_buffer_bounded LoggerSample.truthy LoggerSample.fourCalls
           LoggerSample.full).
  - vm_compute. lia.
  - vm_compute. lia.
Defined.

Lemma logger_below_level_is_silent_witness :
  call LoggerSample.truthy (CallInfo "Info message" None None) LoggerSample.prod
  = LoggerSample.prod.
Proof.
  destruct (logger_below_level_is_silent LoggerSample.truthy LoggerSample.prod)
    as (H & _).
  apply (H (CallInfo "Info message" None None) INFO).
  - reflexivity.
  - vm_compute. reflexivity.
Defined.

Lemma logger_keeps_newest_witness :
  map message
    (logs (call LoggerSample.truthy (CallInfo "Message 3" None None) LoggerSample.full))
  = (map message (drop 1 (logs LoggerSample.full)) ++ ["Message 3"])%list.
Proof.
  destruct (logger_keeps_newest LoggerSample.truthy LoggerSample.full INFO
              "Message 3" None None) as (_ & _ & H).
  - discriminate.
  - vm_compute. discriminate.
  - vm_compute. lia.
  - cbn zeta in H. rewrite H by (vm_compute; reflexivity).
    rewrite map_app. reflexivity.
Defined.

Lemma logger_console_only_in_dev_witness :
  console (calls LoggerSample.truthy LoggerSample.fourCalls LoggerSample.prod) = [].
Proof.
  destruct (logger_console_only_in_dev LoggerSample.truthy LoggerSample.prod)
    as (H & _).
  apply (H LoggerSample.fourCalls). reflexivity.
Defined.

Lemma getLogs_thresholds_witness :
  getLogs (Some NONE) (calls LoggerSample.truthy LoggerSample.fourCalls LoggerSample.dev)
  = [].
Proof.
  apply (getLogs_thresholds LoggerSample.truthy LoggerSample.fourCalls LoggerSample.dev).
  constructor.
Defined.

(** The test 'should respect log levels': at level [WARN] the four calls
    leave the warning and the error. *)
Example logger_respects_levels :
  map message
    (getLogs None
       (calls LoggerSample.truthy LoggerSample.fourCalls
          (setLogLevel WARN LoggerSample.dev)))
  = ["Warning message"; "Error message"].
Proof. vm_compute. reflexivity. Qed.

End LoggerRuns.

(** ** database/browserDatabase.ts: the other operations *)

Section NanoDatabaseMore.
Import NanoDatabase.

Ltac nano :=
  unfold create, get, getAll, update, delete, clear, add, put, getStore, logger;
  unfold_m; cbn -[onupgradeneeded].

Ltac look :=
  repeat (progress (rewrite ?lookup_insert_eq, ?lookup_delete_eq, ?lookup_empty,
                      ?map_to_list_empty; cbn)).

Lemma records_open (s : string) (n : t) (d : IDBDatabase) (m : IDBObjectStore) :
  db n = Some d → d !! s = Some m → records s n = m.
Proof. intros Hd Hs. unfold records. rewrite Hd. cbn. by rewrite Hs. Qed.

Lemma records_with_records_eq (s : string) (m : IDBObjectStore) (n : t) :
  is_Some (db n) → records s (with_records s m n) = m.
Proof.
  intros [d Hd]. unfold records, with_records, with_db. cbn. rewrite Hd. cbn.
  by rewrite lookup_insert_eq.
Qed.

Lemma records_with_records_ne (s s' : string) (m : IDBObjectStore) (n : t) :
  s ≠ s' → records s' (with_records s m n) = records s' n.
Proof.
  intros Hne. unfold records, with_records, with_db. cbn.
  destruct (db n) as [d|]; cbn; [|done]. by rewrite lookup_insert_ne.
Qed.

Lemma with_records_same (s : string) (n : t) (d : IDBDatabase) (m : IDBObjectStore) :
  db n = Some d → d !! s = Some m → with_records s m n = n.
Proof.
  intros Hd Hs. unfold with_records, with_db. rewrite Hd. cbn.
  rewrite insert_id by done. destruct n. cbn in *. by rewrite Hd.
Qed.

(** X6.  Before [init] every operation of the adapter throws
    [Error('Database not initialized')], writes one line to the log and
    leaves everything else as it was. *)
Theorem operations_need_init (n : t) :
  db n = None →
  (∀ s o, create s o n
          = (Throw (JsError "Database not initialized"),
             with_log ("Failed to create in " ++ s) n)) ∧
  (∀ s id, get s id n
           = (Throw (JsError "Database not initialized"),
              with_log ("Failed to get from " ++ s) n)) ∧
  (∀ s, getAll s n
        = (Throw (JsError "Database not initialized"),
           with_log ("Failed to get all from " ++ s) n)) ∧
  (∀ s o, update s o n
          = (Throw (JsError "Database not initialized"),
             with_log ("Failed to update in " ++ s) n)) ∧
  (∀ s id, delete s id n
           = (Throw (JsError "Database not initialized"),
              with_log ("Failed to delete from " ++ s) n)) ∧
  (∀ s, clear s n
        = (Throw (JsError "Database not initialized"),
           with_log ("Failed to clear " ++ s) n)).
Proof.
  intros Hd. split_and!; intros; nano; by rewrite Hd.
Qed.

Lemma operations_need_init_witness :
  fst (getAll "users" fresh) = Throw (JsError "Database not initialized").
Proof.
  destruct (operations_need_init fresh) as (_ & _ & H & _); [reflexivity|].
  by rewrite H.
Defined.

Lemma ensureStore_lookup (name s : string) (d : IDBDatabase) :
  ensureStore name d !! s
  = if decide (s = name) then Some (default ∅ (d !! name)) else d !! s.
Proof.
  unfold ensureStore. destruct (d !! name) as [m|] eqn:Hm; case_decide; subst; cbn.
  - done.
  - done.
  - by rewrite lookup_insert_eq.
  - by rewrite lookup_insert_ne.
Qed.

Lemma onupgradeneeded_lookup (s : string) :
  onupgradeneeded ∅ !! s = if bool_decide (s ∈ DemoData.schemaStores) then Some ∅ else None.
Proof.
  unfold onupgradeneeded, DemoData.schemaStores. rewrite !ensureStore_lookup, !lookup_empty.
  case_bool_decide as Hin.
  - repeat (apply elem_of_cons in Hin as [-> | Hin]; [reflexivity|]).
    by apply elem_of_nil in Hin.
  - repeat (apply not_elem_of_cons in Hin as [? Hin]).
    repeat case_decide; done.
Qed.

(** X7.  [init] in a browser that never held the database succeeds and
    creates exactly the five object stores, all empty: [getAll] answers
    the empty list for [users], [salaries], [overtimes], [leaves] and
    [holidays], and throws [NotFoundError] for every other store name. *)
Theorem init_creates_five_stores (n : t) :
  db n = None → persisted n = None → openError n = None →
  ∃ n',
    init n = (Ok tt, n') ∧
    isInitialized n' = true ∧
    (∀ s, s ∈ DemoData.schemaStores → getAll s n' = (Ok [], n')) ∧
    (∀ s, s ∉ DemoData.schemaStores →
          getAll s n'
          = (Throw (DOMException "NotFoundError"),
             with_log ("Failed to get all from " ++ s) n')).
Proof.
  intros Hd Hp He. unfold init, logger. unfold_m. cbn -[onupgradeneeded].
  rewrite He. cbn -[onupgradeneeded]. rewrite Hd, Hp. cbn -[onupgradeneeded].
  eexists. split; [reflexivity|]. split; [reflexivity|]. split.
  - intros s Hin. nano. rewrite onupgradeneeded_lookup, bool_decide_true by done.
    cbn -[onupgradeneeded]. unfold records. cbn -[onupgradeneeded].
    rewrite onupgradeneeded_lookup, bool_decide_true by done.
    reflexivity.
  - intros s Hin. nano. by rewrite onupgradeneeded_lookup, bool_decide_false by done.
Qed.

Lemma init_creates_five_stores_witness :
  ∃ n',
    init fresh = (Ok tt, n') ∧
    isInitialized n' = true ∧
    (∀ s, s ∈ DemoData.schemaStores → getAll s n' = (Ok [], n')) ∧
    (∀ s, s ∉ DemoData.schemaStores →
          getAll s n'
          = (Throw (DOMException "NotFoundError"),
             with_log ("Failed to get all from " ++ s) n')).
Proof. apply (init_creates_five_stores fresh); reflexivity. Defined.

(** X8.  [init] never discards data: a database the browser already
    holds is opened with its content, a second [init] keeps the content of
    the open database, and when the browser refuses to open the database
    [init] throws the browser's error and the adapter stays as it was,
    apart from its log. *)
Theorem init_keeps_data (n : t) :
  (∀ d, openError n = None → db n = None → persisted n = Some d →
        fst (init n) = Ok tt ∧ db (snd (init n)) = Some d) ∧
  (∀ d, openError n = None → db n = Some d →
        fst (init n) = Ok tt ∧ db (snd (init n)) = Some d) ∧
  (∀ name, openError n = Some name →
           fst (init n) = Throw (DOMException name) ∧
           db (snd (init n)) = db n ∧ persisted (snd (init n)) = persisted n).
Proof.
  split_and!.
  - intros d He Hd Hp. unfold init, logger. unfold_m. cbn -[onupgradeneeded].
    rewrite He. cbn. by rewrite Hd, Hp.
  - intros d He Hd. unfold init, logger. unfold_m. cbn -[onupgradeneeded].
    rewrite He. cbn. by rewrite Hd.
  - intros name He. unfold init, logger. unfold_m. cbn -[onupgradeneeded].
    by rewrite He.
Qed.

Lemma init_keeps_data_witness :
  db (snd (init Browser.stocked)) = db Browser.stocked.
Proof.
  destruct (db Browser.stocked) as [d|] eqn:Hd.
  - destruct (init_keeps_data Browser.stocked) as (_ & H & _).
    apply (H d); [reflexivity | exact Hd].
  - exfalso. assert (isInitialized Browser.stocked = true) as H
      by (vm_compute; reflexivity).
    unfold isInitialized in H. rewrite Hd in H. vm_compute in H. discriminate H.
Defined.

(** X9.  [create] never overwrites: for an object whose id is already
    the key of a record of the store it throws [ConstraintError], and for
    an object without a usable [id] it throws [DataError]; either way the
    adapter, and with it the stored record, is exactly as before. *)
Theorem create_rejects (s : string) (o : object) (n : t) (d : IDBDatabase)
    (m : IDBObjectStore) :
  db n = Some d → d !! s = Some m →
  (∀ k old, key_of o = Some k → m !! k = Some old →
            create s o n = (Throw (DOMException "ConstraintError"), n)) ∧
  (key_of o = None → create s o n = (Throw (DOMException "DataError"), n)).
Proof.
  intros Hd Hs. split.
  - intros k old Hk Hold. nano. rewrite Hd. cbn. rewrite Hs. cbn. rewrite Hk. cbn.
    unfold records. rewrite Hd. cbn. rewrite Hs. cbn. by rewrite Hold.
  - intros Hk. nano. rewrite Hd. cbn. rewrite Hs. cbn. by rewrite Hk.
Qed.

Lemma create_rejects_witness :
  fst (create "salaries" Sample.demoSalary Browser.stocked)
  = Throw (DOMException "ConstraintError").
Proof.
  assert (isInitialized Browser.stocked = true) as Hinit by (vm_compute; reflexivity).
  unfold isInitialized in Hinit.
  destruct (db Browser.stocked) as [d|] eqn:Hd;
    [|vm_compute in Hinit; discriminate Hinit].
  assert (is_Some (d !! "salaries")) as [m Hs].
  { assert (is_ok (fst (getAll "salaries" Browser.stocked)) = true) as Hok
      by (vm_compute; reflexivity).
    revert Hok. nano. rewrite Hd. cbn. destruct (d !! "salaries"); [eauto | done]. }
  assert (is_Some (m !! (inl "salary-1" : key))) as [old Hold].
  { assert (match fst (get "salaries" "salary-1" Browser.stocked) with
            | Ok (Some _) => true
            | _ => false
            end = true) as Hok by (vm_compute; reflexivity).
    revert Hok. nano. rewrite Hd. cbn. rewrite Hs. cbn.
    unfold records. rewrite Hd. cbn. rewrite Hs. cbn.
    destruct (m !! inl "salary-1"); [eauto | done]. }
  destruct (create_rejects "salaries" Sample.demoSalary Browser.stocked d m Hd Hs)
    as (H & _).
  rewrite (H (inl "salary-1") old); [reflexivity | vm_compute; reflexivity | exact Hold].
Defined.

(** X10.  [update] is an upsert: on an open store, for an object whose
    id is a string, it succeeds whether or not a record with that id
    exists, returns the object, and afterwards [get] of that id returns
    exactly the object while [get] of every other id returns what it
    returned before. *)
Theorem update_then_get (s id : string) (o : object) (n : t) (d : IDBDatabase)
    (m : IDBObjectStore) :
  db n = Some d → d !! s = Some m → o !! "id" = Some (VStr id) →
  ∃ n1,
    update s o n = (Ok o, n1) ∧
    get s id n1 = (Ok (Some o), n1) ∧
    ∀ id', id' ≠ id → fst (get s id' n1) = fst (get s id' n).
Proof.
  intros Hd Hs Hid.
  assert (key_of o = Some (inl id)) as Hk by (by apply key_of_str).
  nano. rewrite Hd. cbn. rewrite Hs. cbn. rewrite Hk. cbn.
  eexists. split; [reflexivity|].
  unfold records, with_records, with_db. cbn. rewrite Hd. cbn.
  rewrite !lookup_insert_eq. cbn. rewrite Hs. cbn. rewrite !lookup_insert_eq.
  cbn. rewrite lookup_insert_eq.
  split; [reflexivity|].
  intros id' Hne. by rewrite lookup_insert_ne by congruence.
Qed.

Lemma update_then_get_witness :
  ∃ n1,
    update "salaries" Sample.demoSalary Browser.ready = (Ok Sample.demoSalary, n1) ∧
    get "salaries" "salary-1" n1 = (Ok (Some Sample.demoSalary), n1) ∧
    ∀ id', id' ≠ "salary-1" →
           fst (get "salaries" id' n1) = fst (get "salaries" id' Browser.ready).
Proof.
  apply (update_then_get "salaries" "salary-1" Sample.demoSalary Browser.ready
           (onupgradeneeded ∅) ∅).
  - reflexivity.
  - vm_compute. reflexivity.
  - vm_compute. reflexivity.
Defined.

(** X11.  [clear] on an open store empties it, so that [getAll] returns
    the empty list and [get] returns [null] for every id, and leaves the
    records of every other store as they were. *)
Theorem clear_empties (s : string) (n : t) (d : IDBDatabase) (m : IDBObjectStore) :
  db n = Some d → d !! s = Some m →
  ∃ n1,
    clear s n = (Ok tt, n1) ∧
    getAll s n1 = (Ok [], n1) ∧
    (∀ id, get s id n1 = (Ok None, n1)) ∧
    (∀ s', s' ≠ s → records s' n1 = records s' n).
Proof.
  intros Hd Hs. nano. rewrite Hd. cbn. rewrite Hs. cbn.
  eexists. split; [reflexivity|].
  unfold records, with_records, with_db. cbn. rewrite Hd. cbn. look.
  split; [reflexivity|]. split; [reflexivity|].
  intros s' Hne. by rewrite lookup_insert_ne.
Qed.

Lemma clear_empties_witness :
  ∃ n1,
    clear "users" Browser.ready = (Ok tt, n1) ∧
    getAll "users" n1 = (Ok [], n1) ∧
    (∀ id, get "users" id n1 = (Ok None, n1)) ∧
    (∀ s', s' ≠ "users" → records s' n1 = records s' Browser.ready).
Proof.
  apply (clear_empties "users" Browser.ready (onupgradeneeded ∅) ∅).
  - reflexivity.
  - vm_compute. reflexivity.
Defined.

(** X12.  [delete] is idempotent: after a successful [delete] of an id,
    [get] of that id returns [null] and a second [delete] succeeds and
    changes nothing; and a [delete] of an id the store does not hold
    succeeds and leaves the adapter exactly as it was. *)
Theorem delete_idempotent (s id : string) (n n1 : t) :
  delete s id n = (Ok tt, n1) →
  get s id n1 = (Ok None, n1) ∧
  delete s id n1 = (Ok tt, n1) ∧
  (records s n !! (inl id : key) = None → n1 = n).
Proof.
  nano. destruct (db n) as [d|] eqn:Hd; cbn; [|done].
  destruct (d !! s) as [m|] eqn:Hs; cbn; [|done].
  intros [= <-]. unfold records, with_records, with_db. cbn. rewrite Hd. cbn.
  look. rewrite Hs. cbn. look.
  split; [reflexivity|]. split.
  - f_equal. f_equal. f_equal.
    rewrite insert_insert_eq. f_equal. apply delete_id, lookup_delete_eq.
  - intros Hnone. rewrite delete_id by done. rewrite insert_id by done.
    destruct n; cbn in *. by rewrite Hd.
Qed.

Lemma delete_idempotent_witness :
  get "salaries" "salary-1" (snd (delete "salaries" "salary-1" Browser.stocked))
  = (Ok None, snd (delete "salaries" "salary-1" Browser.stocked)).
Proof.
  assert (fst (delete "salaries" "salary-1" Browser.stocked) = Ok tt) as Hrun.
  { vm_compute. reflexivity. }
  apply (delete_idempotent "salaries" "salary-1" Browser.stocked).
  rewrite <- Hrun. apply surjective_pairing.
Defined.

(** What a writer does to the adapter: nothing, a log line, or the
    replacement of the records of its own store. *)
Lemma writer_effect (s : string) (n n1 : t) :
  (∃ o r, create s o n = (r, n1)) ∨ (∃ o r, update s o n = (r, n1)) ∨
  (∃ id r, delete s id n = (r, n1)) ∨ (∃ r, clear s n = (r, n1)) →
  n1 = n ∨ (∃ text, n1 = with_log text n) ∨
  (∃ m, is_Some (db n ≫= (.!! s)) ∧ n1 = with_records s m n).
Proof.
  intros [(o & r & H) | [(o & r & H) | [(id & r & H) | (r & H)]]]; revert H; nano;
    (destruct (db n) as [d|] eqn:Hd; cbn; [|intros [= <- <-]; eauto]);
    (destruct (d !! s) as [m|] eqn:Hs; cbn; [|intros [= <- <-]; eauto]).
  - destruct (key_of o) as [k|]; cbn; [|intros [= <- <-]; eauto].
    destruct (records s n !! k); cbn; intros [= <- <-]; [eauto|].
    right. right. unfold with_records. rewrite Hd. cbn. eexists; split; [eauto | reflexivity].
  - destruct (key_of o) as [k|]; cbn; intros [= <- <-]; [|eauto].
    right. right. unfold with_records. rewrite Hd. cbn. eexists; split; [eauto | reflexivity].
  - intros [= <- <-].
    right. right. unfold with_records. rewrite Hd. cbn. eexists; split; [eauto | reflexivity].
  - intros [= <- <-].
    right. right. unfold with_records. rewrite Hd. cbn. eexists; split; [eauto | reflexivity].
Qed.

(** X13.  The object stores are independent: whatever [create],
    [update], [delete] or [clear] does on one store, successfully or not,
    [get] and [getAll] on every other store return what they returned
    before. *)
Theorem stores_are_independent (s s' : string) (n n1 : t) :
  s ≠ s' →
  (∃ o r, create s o n = (r, n1)) ∨ (∃ o r, update s o n = (r, n1)) ∨
  (∃ id r, delete s id n = (r, n1)) ∨ (∃ r, clear s n = (r, n1)) →
  (∀ id, fst (get s' id n1) = fst (get s' id n)) ∧
  fst (getAll s' n1) = fst (getAll s' n).
Proof.
  intros Hne Hrun.
  apply writer_effect in Hrun as [-> | [(text & ->) | (m & [m0 Hm0] & ->)]];
    [done | split; intros; nano; by destruct (db n) as [d|]; cbn;
                                    [destruct (d !! s')|] |].
  destruct (db n) as [d|] eqn:Hd; [|done]. cbn in Hm0.
  split; intros; nano; unfold records, with_records, with_db; cbn;
    repeat (progress (rewrite ?Hd, ?lookup_insert_ne by done; cbn));
    destruct (d !! s') eqn:Hs'; cbn;
    repeat (progress (rewrite ?Hd, ?lookup_insert_ne, ?Hs' by done; cbn));
    reflexivity.
Qed.

Lemma stores_are_independent_witness :
  fst (getAll "overtimes" (snd (clear "salaries" Browser.stocked)))
  = fst (getAll "overtimes" Browser.stocked).
Proof.
  apply (stores_are_independent "salaries" "overtimes" Browser.stocked).
  - discriminate.
  - right. right. right. eexists. apply surjective_pairing.
Defined.

Lemma opened_with_records (s s' : string) (m : IDBObjectStore) (n : t) :
  DemoData.opened s n → DemoData.opened s (with_records s' m n).
Proof.
  unfold DemoData.opened, with_records, with_db. cbn.
  destruct (db n) as [d|]; cbn; [|done].
  intros Hs. destruct (decide (s' = s)) as [->|Hne].
  - rewrite lookup_insert_eq. eauto.
  - by rewrite lookup_insert_ne.
Qed.

Lemma opened_with_log (s text : string) (n : t) :
  DemoData.opened s n → DemoData.opened s (with_log text n).
Proof. done. Qed.

Lemma records_with_log (s text : string) (n : t) :
  records s (with_log text n) = records s n.
Proof. done. Qed.

Lemma opened_db (s : string) (n : t) : DemoData.opened s n → is_Some (db n).
Proof. unfold DemoData.opened. destruct (db n); [eauto | by intros [? ?]]. Qed.

Lemma getStore_opened (s : string) (mode : IDBTransactionMode) (n : t) :
  DemoData.opened s n → getStore s mode n = (Ok s, n).
Proof.
  unfold DemoData.opened. nano. destruct (db n) as [d|]; cbn; [|by intros [? ?]].
  destruct (d !! s); [done | by intros [? ?]].
Qed.

Lemma clear_opened (s : string) (n : t) :
  DemoData.opened s n → clear s n = (Ok tt, with_records s ∅ n).
Proof.
  intros Hs. unfold clear. unfold_m. by rewrite getStore_opened.
Qed.

Lemma create_opened (s : string) (o : object) (k : key) (n : t) :
  DemoData.opened s n → key_of o = Some k → records s n !! k = None →
  create s o n = (Ok o, with_records s (<[k := o]> (records s n)) n).
Proof.
  intros Hs Hk Hnew. unfold create, add. unfold_m. rewrite getStore_opened by done.
  rewrite Hk. cbn. by rewrite Hnew.
Qed.

Lemma getAll_opened (s : string) (n : t) :
  DemoData.opened s n → getAll s n = (Ok (map_to_list (records s n)).*2, n).
Proof.
  intros Hs. unfold getAll. unfold_m. by rewrite getStore_opened.
Qed.

Lemma records_replaced (s : string) (m : IDBObjectStore) (n : t) :
  DemoData.opened s n → records s (with_records s m n) = m.
Proof. intros Hs. eapply records_with_records_eq, opened_db, Hs. Qed.

Ltac opened_tac :=
  repeat first [simple apply opened_with_records | simple apply opened_with_log];
  assumption.

Ltac records_tac :=
  repeat first
    [ rewrite records_with_records_ne by discriminate
    | rewrite records_replaced by opened_tac
    | rewrite records_with_log ].

(** X14.  On an open database that has the four stores,
    [createDemoData] succeeds and replaces their content: afterwards
    [getAll] returns the two demo users, the demo salary, the demo
    overtime and the demo leave and nothing of what the stores held
    before, while every other store keeps its records. *)
Theorem createDemoData_replaces (clock : nat → string) (n : t) :
  (∀ s, s ∈ DemoData.demoStores → DemoData.opened s n) →
  ∃ n1 users,
    DemoData.createDemoData clock n = (Ok tt, n1) ∧
    getAll "users" n1 = (Ok users, n1) ∧
    users ≡ₚ DemoData.demoUsers clock ∧
    getAll "salaries" n1 = (Ok (DemoData.demoSalaries clock), n1) ∧
    getAll "overtimes" n1 = (Ok (DemoData.demoOvertimes clock), n1) ∧
    getAll "leaves" n1 = (Ok (DemoData.demoLeaves clock), n1) ∧
    (∀ s, s ∉ DemoData.demoStores → records s n1 = records s n).
Proof.
  intros Hopen.
  assert (DemoData.opened "users" n ∧ DemoData.opened "salaries" n ∧
          DemoData.opened "overtimes" n ∧ DemoData.opened "leaves" n)
    as (Hu & Hs & Ho & Hl).
  { split_and!; apply Hopen; unfold DemoData.demoStores; set_solver. }
  unfold DemoData.createDemoData, logger, for_each, DemoData.demoUsers,
    DemoData.demoSalaries, DemoData.demoOvertimes, DemoData.demoLeaves.
  unfold_m.
  repeat (rewrite clear_opened by opened_tac).
  repeat (erewrite create_opened;
          [ cbv beta iota zeta | opened_tac | reflexivity
          | records_tac; rewrite ?lookup_insert_ne by discriminate;
            apply lookup_empty ]).
  eexists _, _. split; [reflexivity|].
  match goal with |- getAll _ ?st = _ ∧ _ => set (n1 := st) end.
  assert (DemoData.opened "users" n1 ∧ DemoData.opened "salaries" n1 ∧
          DemoData.opened "overtimes" n1 ∧ DemoData.opened "leaves" n1)
    as (Hu1 & Hs1 & Ho1 & Hl1) by (subst n1; split_and!; opened_tac).
  rewrite !getAll_opened by assumption.
  split; [reflexivity|]. split; [|split_and!].
  - subst n1. records_tac.
    rewrite map_to_list_insert by (by rewrite lookup_insert_ne).
    rewrite insert_empty, map_to_list_singleton. apply perm_swap.
  - subst n1. records_tac. by rewrite insert_empty, map_to_list_singleton.
  - subst n1. records_tac. by rewrite insert_empty, map_to_list_singleton.
  - subst n1. records_tac. by rewrite insert_empty, map_to_list_singleton.
  - intros s Hnot. unfold DemoData.demoStores in Hnot.
    repeat (apply not_elem_of_cons in Hnot as [? Hnot]).
    subst n1. rewrite records_with_log, !records_with_records_ne by done.
    apply records_with_log.
Qed.

Lemma createDemoData_replaces_witness :
  ∃ n1 users,
    DemoData.createDemoData Sample.numeral Browser.stocked = (Ok tt, n1) ∧
    getAll "users" n1 = (Ok users, n1) ∧
    users ≡ₚ DemoData.demoUsers Sample.numeral ∧
    getAll "salaries" n1 = (Ok (DemoData.demoSalaries Sample.numeral), n1) ∧
    getAll "overtimes" n1 = (Ok (DemoData.demoOvertimes Sample.numeral), n1) ∧
    getAll "leaves" n1 = (Ok (DemoData.demoLeaves Sample.numeral), n1) ∧
    (∀ s, s ∉ DemoData.demoStores → records s n1 = records s Browser.stocked).
Proof.
  apply (createDemoData_replaces Sample.numeral Browser.stocked).
  intros s Hin. unfold DemoData.opened, DemoData.demoStores in *.
  repeat (apply elem_of_cons in Hin as [-> | Hin];
          [refine (bool_decide_unpack _ _); vm_compute; exact I|]).
  by apply elem_of_nil in Hin.
Defined.

End NanoDatabaseMore.

(** ** The service layer: configuration, reads and missing rows *)

Section ServiceBehaviour.
Import Supabase Backend Behaviour.

Ltac supa :=
  unfold select_all, select_eq, insert_single, update_single, delete_eq,
    UserService.select_by_id, requireConfigured, send, Date_now, fresh_id,
    logger_error, logger_info;
  unfold_m; cbn -[newest_first].

Ltac unconfigured Hc :=
  supa; rewrite Hc; cbn; eexists; split; [reflexivity|]; by repeat split.

(** X15.  With a client that is not configured every method of the four
    services throws [Error('Supabase is not configured. ...')]: no request
    is sent and no table changes.  This includes [getById], which turns a
    backend error into [null] but not this one. *)
Theorem services_need_configuration :
  (needs_configuration SalaryService.getAll ∧
   (∀ u, needs_configuration (SalaryService.getByUserId u)) ∧
   (∀ d, needs_configuration (SalaryService.create d)) ∧
   (∀ p id u, needs_configuration (SalaryService.update p id u)) ∧
   (∀ id, needs_configuration (SalaryService.delete id))) ∧
  (needs_configuration OvertimeService.getAll ∧
   (∀ u, needs_configuration (OvertimeService.getByUserId u)) ∧
   (∀ d, needs_configuration (OvertimeService.create d)) ∧
   (∀ id u, needs_configuration (OvertimeService.update id u)) ∧
   (∀ id s, needs_configuration (OvertimeService.updateStatus id s)) ∧
   (∀ id, needs_configuration (OvertimeService.delete id))) ∧
  (needs_configuration LeaveService.getAll ∧
   (∀ u, needs_configuration (LeaveService.getByUserId u)) ∧
   (∀ d, needs_configuration (LeaveService.create d)) ∧
   (∀ id u, needs_configuration (LeaveService.update id u)) ∧
   (∀ id s, needs_configuration (LeaveService.updateStatus id s)) ∧
   (∀ id, needs_configuration (LeaveService.delete id))) ∧
  (needs_configuration UserService.getAll ∧
   (∀ id, needs_configuration (UserService.getById id)) ∧
   (∀ d, needs_configuration (UserService.create d)) ∧
   (∀ id u, needs_configuration (UserService.update id u)) ∧
   (∀ id, needs_configuration (UserService.delete id))).
Proof.
  split_and!; intros; intros w Hc.
  - unfold SalaryService.getAll. unconfigured Hc.
  - unfold SalaryService.getByUserId. unconfigured Hc.
  - unfold SalaryService.create. unconfigured Hc.
  - unfold SalaryService.update. unconfigured Hc.
  - unfold SalaryService.delete. unconfigured Hc.
  - unfold OvertimeService.getAll. unconfigured Hc.
  - unfold OvertimeService.getByUserId. unconfigured Hc.
  - unfold OvertimeService.create. unconfigured Hc.
  - unfold OvertimeService.update. unconfigured Hc.
  - unfold OvertimeService.updateStatus. unconfigured Hc.
  - unfold OvertimeService.delete. unconfigured Hc.
  - unfold LeaveService.getAll. unconfigured Hc.
  - unfold LeaveService.getByUserId. unconfigured Hc.
  - unfold LeaveService.create. unconfigured Hc.
  - unfold LeaveService.update. unconfigured Hc.
  - unfold LeaveService.updateStatus. unconfigured Hc.
  - unfold LeaveService.delete. unconfigured Hc.
  - unfold UserService.getAll. unconfigured Hc.
  - unfold UserService.getById. unconfigured Hc.
  - unfold UserService.create. unconfigured Hc.
  - unfold UserService.update. unconfigured Hc.
  - unfold UserService.delete. unconfigured Hc.
Qed.

Lemma services_need_configuration_witness :
  fst (UserService.getById "row-0"
         (with_users [] {| isConfigured := false;
                           clock := clock Sample.emptyWorld;
                           ticks := 0; idgen := idgen Sample.emptyWorld;
                           issued := 0; int4in := int4in Sample.emptyWorld;
                           faults := []; requests := []; users := [];
                           salaries := []; overtimes := []; leaves := [];
                           logs := [] |}))
  = Throw not_configured.
Proof.
  destruct services_need_configuration as (_ & _ & _ & _ & H & _).
  destruct (H "row-0" (with_users [] {| isConfigured := false;
                           clock := clock Sample.emptyWorld;
                           ticks := 0; idgen := idgen Sample.emptyWorld;
                           issued := 0; int4in := int4in Sample.emptyWorld;
                           faults := []; requests := []; users := [];
                           salaries := []; overtimes := []; leaves := [];
                           logs := [] |})) as (w' & Hrun & _); [reflexivity|].
  by rewrite Hrun.
Defined.

(** *** Reads *)

Lemma newest_first_total {A} (created_at : A → string) :
  Total (fun a b : A => Is_true (String.leb (created_at b) (created_at a))).
Proof.
  intros a b. destruct (String.leb_total (created_at b) (created_at a)) as [H|H];
    rewrite H; [left | right]; exact I.
Qed.

Lemma newest_first_sorted {Row A} (T : Table Row) (f : Row → A)
    (created_at : A → string) (l : list Row) :
  (∀ r, created_at (f r) = row_created_at T r) →
  newest_first_by created_at (map f (newest_first T l)).
Proof.
  intros Hf. unfold newest_first_by, newest_first.
  pose proof (newest_first_total (row_created_at T)) as Htotal.
  pose proof (Sorted_merge_sort
                (fun a b => Is_true (String.leb (row_created_at T b) (row_created_at T a)))
                l) as Hsorted.
  induction Hsorted as [|r l' Hl' IH Hhd]; cbn; constructor; [done|].
  destruct Hhd as [|r' l'' Hr]; cbn; constructor. by rewrite !Hf.
Qed.

Lemma newest_first_perm {Row A} (T : Table Row) (f : Row → A) (l : list Row) :
  map f (newest_first T l) ≡ₚ map f l.
Proof. unfold newest_first. by rewrite merge_sort_Permutation. Qed.

Ltac read_rows :=
  supa;
  match goal with |- context [isConfigured ?w] => destruct (isConfigured w) end;
  cbn -[newest_first]; [|done];
  match goal with
  | |- context [mjoin (head (faults ?w))] => destruct (mjoin (head (faults w)))
  end; cbn -[newest_first]; [done|];
  intros [= <- <-].

(** X16.  What [getAll] returns is made of rows of the table and is in
    order: every record returned is the conversion of a row of the table,
    no row is returned twice, and the records are in descending order of
    [created_at]. *)
Theorem getAll_lists_rows_newest_first :
  (∀ w w' l, SalaryService.getAll w = (Ok l, w') →
     l ⊆+ map SalaryService.toSalary (salaries w) ∧
     newest_first_by Salary.created_at l) ∧
  (∀ w w' l, OvertimeService.getAll w = (Ok l, w') →
     l ⊆+ map OvertimeService.toOvertime (overtimes w) ∧
     newest_first_by Overtime.created_at l) ∧
  (∀ w w' l, LeaveService.getAll w = (Ok l, w') →
     l ⊆+ map LeaveService.toLeave (leaves w) ∧
     newest_first_by Leave.created_at l) ∧
  (∀ w w' l, UserService.getAll w = (Ok l, w') →
     l ⊆+ map UserService.toUser (users w) ∧
     newest_first_by User.createdAt l).
Proof.
  split_and!; intros w w' l.
  - unfold SalaryService.getAll. read_rows.
    split; [by rewrite newest_first_perm | by apply newest_first_sorted].
  - unfold OvertimeService.getAll. read_rows.
    split; [by rewrite newest_first_perm | by apply newest_first_sorted].
  - unfold LeaveService.getAll. read_rows.
    split; [by rewrite newest_first_perm | by apply newest_first_sorted].
  - unfold UserService.getAll. read_rows.
    split; [by rewrite newest_first_perm | by apply newest_first_sorted].
Qed.

Lemma getAll_lists_rows_newest_first_witness :
  ∃ l,
    fst (OvertimeService.getAll Backend.seeded) = Ok l ∧
    l ⊆+ map OvertimeService.toOvertime (overtimes Backend.seeded) ∧
    newest_first_by Overtime.created_at l.
Proof.
  assert (is_ok (fst (OvertimeService.getAll Backend.seeded)) = true) as Hok
    by (vm_compute; reflexivity).
  destruct (OvertimeService.getAll Backend.seeded) as [[l|e] w'] eqn:Hrun;
    [|discriminate Hok].
  exists l. split; [reflexivity|].
  destruct getAll_lists_rows_newest_first as (_ & H & _).
  exact (H Backend.seeded w' l Hrun).
Defined.

(** X17.  What [getByUserId] returns is made of rows of that user and
    is in order: every record returned is the conversion of a row of the
    table whose [user_id] is the one asked for, no row is returned twice,
    and the records are in descending order of [created_at]. *)
Theorem getByUserId_lists_rows_of_the_user (userId : string) :
  (∀ w w' l, SalaryService.getByUserId userId w = (Ok l, w') →
     l ⊆+ map SalaryService.toSalary
            (filter (fun r => SalaryRow.user_id r = userId) (salaries w)) ∧
     Forall (fun s => Salary.userId s = userId) l ∧
     newest_first_by Salary.created_at l) ∧
  (∀ w w' l, OvertimeService.getByUserId userId w = (Ok l, w') →
     l ⊆+ map OvertimeService.toOvertime
            (filter (fun r => OvertimeRow.user_id r = userId) (overtimes w)) ∧
     Forall (fun o => Overtime.userId o = userId) l ∧
     newest_first_by Overtime.created_at l) ∧
  (∀ w w' l, LeaveService.getByUserId userId w = (Ok l, w') →
     l ⊆+ map LeaveService.toLeave
            (filter (fun r => LeaveRow.user_id r = userId) (leaves w)) ∧
     Forall (fun x => Leave.userId x = userId) l ∧
     newest_first_by Leave.created_at l).
Proof.
  split_and!; intros w w' l.
  - unfold SalaryService.getByUserId. read_rows.
    split_and!; [by rewrite newest_first_perm | | by apply newest_first_sorted].
    apply Forall_forall. intros x (r & -> & Hr)%list_elem_of_fmap.
    by apply newest_first_elem, list_elem_of_filter in Hr as [? ?].
  - unfold OvertimeService.getByUserId. read_rows.
    split_and!; [by rewrite newest_first_perm | | by apply newest_first_sorted].
    apply Forall_forall. intros x (r & -> & Hr)%list_elem_of_fmap.
    by apply newest_first_elem, list_elem_of_filter in Hr as [? ?].
  - unfold LeaveService.getByUserId. read_rows.
    split_and!; [by rewrite newest_first_perm | | by apply newest_first_sorted].
    apply Forall_forall. intros x (r & -> & Hr)%list_elem_of_fmap.
    by apply newest_first_elem, list_elem_of_filter in Hr as [? ?].
Qed.

Lemma getByUserId_lists_rows_of_the_user_witness :
  ∃ l,
    fst (LeaveService.getByUserId "demo-user-1" Backend.seeded) = Ok l ∧
    Forall (fun x => Leave.userId x = "demo-user-1") l.
Proof.
  assert (is_ok (fst (LeaveService.getByUserId "demo-user-1" Backend.seeded)) = true)
    as Hok by (vm_compute; reflexivity).
  destruct (LeaveService.getByUserId "demo-user-1" Backend.seeded)
    as [[l|e] w'] eqn:Hrun; [|discriminate Hok].
  exists l. split; [reflexivity|].
  destruct (getByUserId_lists_rows_of_the_user "demo-user-1") as (_ & _ & H).
  exact (proj1 (proj2 (H Backend.seeded w' l Hrun))).
Defined.

(** *** A write and the reads after it *)

Ltac written Hc :=
  supa;
  match goal with |- context [isConfigured ?w] => destruct (isConfigured w) eqn:Hc end;
  cbn -[newest_first]; [|done];
  match goal with
  | |- context [mjoin (head (faults ?w))] => destruct (mjoin (head (faults w)))
  end; cbn -[newest_first]; [done|].

Ltac read_back Hc Ha :=
  unfold accepts; cbn -[newest_first]; intros Ha;
  supa; rewrite Hc; cbn -[newest_first]; rewrite Ha; cbn -[newest_first].

Ltac listed row :=
  apply list_elem_of_fmap; exists row; split; [reflexivity|];
  apply newest_first_elem; rewrite ?list_elem_of_filter, elem_of_app, list_elem_of_singleton;
  auto.

(** X18.  A record that [create] returned is listed by the next reads
    the backend accepts: it is in what [getByUserId] of its user returns
    and in what [getAll] returns. *)
Theorem created_record_is_listed :
  (∀ d w w1 s,
     SalaryService.create d w = (Ok s, w1) → accepts w1 →
     ∃ l l' w2 w3,
       SalaryService.getByUserId (SalaryService.Data.userId d) w1 = (Ok l, w2) ∧
       s ∈ l ∧ SalaryService.getAll w1 = (Ok l', w3) ∧ s ∈ l') ∧
  (∀ d w w1 o,
     OvertimeService.create d w = (Ok o, w1) → accepts w1 →
     ∃ l l' w2 w3,
       OvertimeService.getByUserId (OvertimeService.Data.userId d) w1 = (Ok l, w2) ∧
       o ∈ l ∧ OvertimeService.getAll w1 = (Ok l', w3) ∧ o ∈ l') ∧
  (∀ d w w1 x,
     LeaveService.create d w = (Ok x, w1) → accepts w1 →
     ∃ l l' w2 w3,
       LeaveService.getByUserId (LeaveService.Data.userId d) w1 = (Ok l, w2) ∧
       x ∈ l ∧ LeaveService.getAll w1 = (Ok l', w3) ∧ x ∈ l').
Proof.
  split_and!; intros d w w1 x.
  - unfold SalaryService.create. written Hc.
    destruct (SalaryService.insertPayload _ _ _ _) as [e|row] eqn:Hrow;
      cbn -[newest_first]; [done|].
    assert (SalaryRow.user_id row = SalaryService.Data.userId d) as Hu.
    { unfold SalaryService.insertPayload in Hrow.
      repeat match type of Hrow with
             | context [int4in ?w ?x] => destruct (int4in w x)
             end; by inversion Hrow. }
    intros [= <- <-].
    unfold SalaryService.getByUserId, SalaryService.getAll. read_back Hc Ha.
    eexists _, _, _, _. split_and!; [reflexivity | listed row | reflexivity | listed row].
  - unfold OvertimeService.create. written Hc.
    intros [= <- <-].
    unfold OvertimeService.getByUserId, OvertimeService.getAll. read_back Hc Ha.
    eexists _, _, _, _.
    split_and!; [reflexivity | | reflexivity | ];
      match goal with |- OvertimeService.toOvertime ?row ∈ _ => listed row end.
  - unfold LeaveService.create. written Hc.
    intros [= <- <-].
    unfold LeaveService.getByUserId, LeaveService.getAll. read_back Hc Ha.
    eexists _, _, _, _.
    split_and!; [reflexivity | | reflexivity | ];
      match goal with |- LeaveService.toLeave ?row ∈ _ => listed row end.
Qed.

Lemma created_record_is_listed_witness :
  ∃ o l,
    fst (OvertimeService.create Sample.overtimeData Sample.emptyWorld) = Ok o ∧
    fst (OvertimeService.getByUserId "demo-user-1"
           (snd (OvertimeService.create Sample.overtimeData Sample.emptyWorld)))
    = Ok l ∧
    o ∈ l.
Proof.
  assert (is_ok (fst (OvertimeService.create Sample.overtimeData Sample.emptyWorld))
          = true) as Hok by (vm_compute; reflexivity).
  destruct (OvertimeService.create Sample.overtimeData Sample.emptyWorld)
    as [[o|e] w1] eqn:Hrun; [|discriminate Hok].
  assert (accepts w1) as Ha.
  { replace w1 with
      (snd (OvertimeService.create Sample.overtimeData Sample.emptyWorld))
      by (by rewrite Hrun).
    vm_compute. reflexivity. }
  destruct created_record_is_listed as (_ & H & _).
  destruct (H Sample.overtimeData Sample.emptyWorld w1 o Hrun Ha)
    as (l & l' & w2 & w3 & Hl & Hin & _).
  exists o, l. cbn. change (OvertimeService.Data.userId Sample.overtimeData)
    with "demo-user-1" in Hl. by rewrite Hl.
Defined.

(** *** Rows that are not there *)

Lemma filter_absent {Row} (row_id : Row → string) (id : string) (l : list Row) :
  id ∉ map row_id l →
  filter (fun r => row_id r = id) l = [] ∧ filter (fun r => row_id r ≠ id) l = l.
Proof.
  intros Hnot. induction l as [|r l IH]; [done|].
  cbn in Hnot. apply not_elem_of_cons in Hnot as [Hne Hnot].
  destruct (IH Hnot) as [IH1 IH2]. split.
  - rewrite filter_cons_False by (intros ?; by apply Hne). exact IH1.
  - rewrite filter_cons_True by (intros ?; by apply Hne). by rewrite IH2.
Qed.

Ltac missing Hc Ha Hid :=
  supa; rewrite Hc; cbn; rewrite Ha; cbn;
  rewrite ?(proj1 (filter_absent _ _ _ Hid)); cbn;
  eexists; split; [reflexivity|]; by repeat split.

(** X20.  An update of an id that no row of the table carries fails
    with the error of [.single()], code [PGRST116], and writes nothing;
    this holds for [update] of the four services and for the two
    [updateStatus]. *)
Theorem update_of_missing_row (id : string) (w : World) :
  isConfigured w = true → accepts w →
  (id ∉ map SalaryRow.id (salaries w) →
     ∀ parseInt u, finds_no_row (SalaryService.update parseInt id u) w) ∧
  (id ∉ map OvertimeRow.id (overtimes w) →
     (∀ u, finds_no_row (OvertimeService.update id u) w) ∧
     (∀ s, finds_no_row (OvertimeService.updateStatus id s) w)) ∧
  (id ∉ map LeaveRow.id (leaves w) →
     (∀ u, finds_no_row (LeaveService.update id u) w) ∧
     (∀ s, finds_no_row (LeaveService.updateStatus id s) w)) ∧
  (id ∉ map UserRow.id (users w) →
     ∀ u, finds_no_row (UserService.update id u) w).
Proof.
  intros Hc Ha. unfold accepts in Ha. split_and!; intros Hid; [|split|split|]; intros.
  - unfold finds_no_row, SalaryService.update. missing Hc Ha Hid.
  - unfold finds_no_row, OvertimeService.update. missing Hc Ha Hid.
  - unfold finds_no_row, OvertimeService.updateStatus. missing Hc Ha Hid.
  - unfold finds_no_row, LeaveService.update. missing Hc Ha Hid.
  - unfold finds_no_row, LeaveService.updateStatus. missing Hc Ha Hid.
  - unfold finds_no_row, UserService.update. missing Hc Ha Hid.
Qed.

Lemma update_of_missing_row_witness :
  finds_no_row (LeaveService.updateStatus "row-9" "approved") Backend.seeded.
Proof.
  destruct (update_of_missing_row "row-9" Backend.seeded) as (_ & _ & H & _).
  - reflexivity.
  - vm_compute. reflexivity.
  - apply H. vm_compute. apply not_elem_of_cons. split; [discriminate|].
    apply not_elem_of_nil.
Defined.

Ltac nothing_deleted Hc Ha Hid :=
  supa; rewrite Hc; cbn; rewrite Ha; cbn;
  rewrite ?(proj2 (filter_absent _ _ _ Hid)); cbn;
  eexists; split; [reflexivity|]; by repeat split.

(** X21.  A [delete] of an id that no row of the table carries is not
    an error: it succeeds and all four tables stay as they were. *)
Theorem delete_of_missing_row (id : string) (w : World) :
  isConfigured w = true → accepts w →
  (id ∉ map SalaryRow.id (salaries w) →
     succeeds_without_change (SalaryService.delete id) w) ∧
  (id ∉ map OvertimeRow.id (overtimes w) →
     succeeds_without_change (OvertimeService.delete id) w) ∧
  (id ∉ map LeaveRow.id (leaves w) →
     succeeds_without_change (LeaveService.delete id) w) ∧
  (id ∉ map UserRow.id (users w) →
     succeeds_without_change (UserService.delete id) w).
Proof.
  intros Hc Ha. unfold accepts in Ha. split_and!; intros Hid.
  - unfold succeeds_without_change, SalaryService.delete. nothing_deleted Hc Ha Hid.
  - unfold succeeds_without_change, OvertimeService.delete. nothing_deleted Hc Ha Hid.
  - unfold succeeds_without_change, LeaveService.delete. nothing_deleted Hc Ha Hid.
  - unfold succeeds_without_change, UserService.delete.
    assert (bool_decide (Exists (fun r => UserRow.id r = id) (users w)) = false) as Hex.
    { apply bool_decide_eq_false. rewrite Exists_exists. intros (r & Hin & Hr).
      apply Hid. rewrite <- Hr. by apply (list_elem_of_fmap_2 UserRow.id). }
    supa. rewrite Hc. cbn. rewrite Ha. cbn. rewrite Hex. cbn.
    rewrite ?(proj2 (filter_absent _ _ _ Hid)). cbn.
    eexists. split; [reflexivity|]. by repeat split.
Qed.

Lemma delete_of_missing_row_witness :
  succeeds_without_change (OvertimeService.delete "row-9") Backend.seeded.
Proof.
  destruct (delete_of_missing_row "row-9" Backend.seeded) as (_ & H & _).
  - reflexivity.
  - vm_compute. reflexivity.
  - apply H. vm_compute. apply not_elem_of_cons. split; [discriminate|].
    apply not_elem_of_nil.
Defined.

End ServiceBehaviour.

(** ** The state store: successes, refreshes and missing records *)

Section ProviderBehaviour.
Import NanoDataContext Provider StoreView.

Context {W : Type} (svc : Services.t W).

Ltac provider_unfold :=
  unfold updateOvertimeStatus, updateLeaveStatus;
  unfold refreshData, createUser, updateUser, deleteUser, createSalary,
    updateSalary, deleteSalary, createOvertime, updateOvertime, deleteOvertime,
    createLeave, updateLeave, deleteLeave, clearErrors, call, dispatch, logger.

Ltac provider_case :=
  match goal with
  | |- context [Services.getAllUsers ?s ?w] =>
      destruct (Services.getAllUsers s w) as [[?|?] ?] eqn:?
  | |- context [Services.getAllSalaries ?s ?w] =>
      destruct (Services.getAllSalaries s w) as [[?|?] ?] eqn:?
  | |- context [Services.getAllOvertimes ?s ?w] =>
      destruct (Services.getAllOvertimes s w) as [[?|?] ?] eqn:?
  | |- context [Services.getAllLeaves ?s ?w] =>
      destruct (Services.getAllLeaves s w) as [[?|?] ?] eqn:?
  | |- context [Services.createUser ?s ?a ?w] =>
      destruct (Services.createUser s a w) as [[?|?] ?] eqn:?
  | |- context [Services.updateUser ?s ?a ?b ?w] =>
      destruct (Services.updateUser s a b w) as [[[?|]|?] ?] eqn:?
  | |- context [Services.deleteUser ?s ?a ?w] =>
      destruct (Services.deleteUser s a w) as [[[|]|?] ?] eqn:?
  | |- context [Services.createSalary ?s ?a ?w] =>
      destruct (Services.createSalary s a w) as [[?|?] ?] eqn:?
  | |- context [Services.updateSalary ?s ?a ?b ?w] =>
      destruct (Services.updateSalary s a b w) as [[[?|]|?] ?] eqn:?
  | |- context [Services.deleteSalary ?s ?a ?w] =>
      destruct (Services.deleteSalary s a w) as [[?|?] ?] eqn:?
  | |- context [Services.createOvertime ?s ?a ?w] =>
      destruct (Services.createOvertime s a w) as [[?|?] ?] eqn:?
  | |- context [Services.updateOvertime ?s ?a ?b ?w] =>
      destruct (Services.updateOvertime s a b w) as [[[?|]|?] ?] eqn:?
  | |- context [Services.deleteOvertime ?s ?a ?w] =>
      destruct (Services.deleteOvertime s a w) as [[?|?] ?] eqn:?
  | |- context [Services.createLeave ?s ?a ?w] =>
      destruct (Services.createLeave s a w) as [[?|?] ?] eqn:?
  | |- context [Services.updateLeave ?s ?a ?b ?w] =>
      destruct (Services.updateLeave s a b w) as [[[?|]|?] ?] eqn:?
  | |- context [Services.deleteLeave ?s ?a ?w] =>
      destruct (Services.deleteLeave s a w) as [[?|?] ?] eqn:?
  end; cbn -[nanoDataReducer].

Ltac provider_run :=
  unfold exec, run, thrown; provider_unfold; unfold_m; cbn -[nanoDataReducer].

(** X22.  A successful operation never clears an error message: when
    the service call of a create, update or delete does not throw, the
    operation does not throw either and leaves the four error fields and
    the four loading flags exactly as they were, so that an earlier
    message stays until [clearErrors] or a [refreshData]. *)
Theorem success_keeps_error_messages (op : Operation) (st : Store W) :
  is_single_call op = true →
  service_failure svc op (world st) = None →
  fst (run svc op st) = None ∧
  errors (state (exec svc op st)) = errors (state st) ∧
  loadingStates (state (exec svc op st)) = loadingStates (state st).
Proof.
  destruct op; cbn [is_single_call]; try discriminate; intros _;
    unfold service_failure, Backend.overtimeStatus, Backend.leaveStatus;
    provider_run; provider_case; try discriminate; intros _; by repeat split.
Qed.


Lemma map_replace_id {A} (id : A → string) (x : A) (l : list A) :
  map id (map (fun u => if decide (id u = id x) then x else u) l) = map id l.
Proof.
  induction l as [|u l IH]; [done|]. cbn. rewrite IH. by case_decide; f_equal.
Qed.

(** X25.  An update never adds, removes or moves a record: whatever
    the service answers, after any of the six update operations each of
    the four lists holds records with the same ids in the same order as
    before. *)
Theorem update_keeps_ids (op : Operation) (st : Store W) :
  is_update op = true →
  ids (state (exec svc op st)) = ids (state st).
Proof.
  destruct op; cbn [is_update]; try discriminate; intros _;
    provider_run; provider_case; try reflexivity;
    unfold ids; cbn; by rewrite map_replace_id.
Qed.

End ProviderBehaviour.

(** ** The provider over the sample backend, again *)

Section ProviderBehaviourRuns.
Import NanoDataContext Provider StoreView.

Lemma success_keeps_error_messages_witness :
  errors (state (exec services (CreateSalary Sample.salaryData)
                   (mount Sample.emptyWorld)))
  = errors (state (mount Sample.emptyWorld)).
Proof.
  apply (success_keeps_error_messages services (CreateSalary Sample.salaryData)
           (mount Sample.emptyWorld)).
  - reflexivity.
  - vm_compute. reflexivity.
Defined.


Lemma update_keeps_ids_witness :
  ids (state (exec services (UpdateOvertimeStatus "row-0" "approved")
                (exec services (CreateOvertime Sample.overtimeData)
                   (mount Sample.emptyWorld))))
  = ids (state (exec services (CreateOvertime Sample.overtimeData)
                  (mount Sample.emptyWorld))).
Proof. apply update_keeps_ids. reflexivity. Defined.

End ProviderBehaviourRuns.

(** ** utils/errorHandler.ts: retries, messages and the global handler *)

Section RetryFacts.
Import Retry.

Context {S A : Type} (fn : M S A).

Lemma loop_step (left : nat) (attempt_no maxRetries baseDelay : Z)
    (lastError : Thrown) (env : Env S) :
  loop fn (Datatypes.S left) attempt_no maxRetries baseDelay lastError env
  = match attempt fn env with
    | (Ok a, env) => (inl a, env)
    | (Throw error, env) =>
        if decide (attempt_no = maxRetries)
        then
          (inr (Caught error),
           log (LogError ("Max retries (" ++ pretty maxRetries ++ ") reached") error)
             env)
        else
          loop fn left (attempt_no + 1) maxRetries baseDelay (Caught error)
            (sleep (baseDelay * 2 ^ (attempt_no - 1))
               (log (LogDebug
                       ("Retry attempt " ++ pretty attempt_no ++ "/"
                        ++ pretty maxRetries ++ " failed, retrying in "
                        ++ pretty (baseDelay * 2 ^ (attempt_no - 1)) ++ "ms")
                       error)
                  env))
    end.
Proof. reflexivity. Qed.

Lemma loop_exhausted (maxRetries baseDelay : Z) (left : nat) :
  always_throws fn →
  ∀ (attempt_no : Z) (lastError : Thrown) (env : Env S),
    attempt_no + Z.of_nat left = maxRetries →
    ∃ e env',
      loop fn (Datatypes.S left) attempt_no maxRetries baseDelay lastError env
      = (inr (Caught e), env') ∧
      calls env' = (calls env + Datatypes.S left)%nat ∧
      slept env'
      = (slept env
         ++ map (fun k => baseDelay * 2 ^ (attempt_no - 1 + Z.of_nat k)) (seq 0 left))%list ∧
      (∃ s, fn s = (Throw e, inner env')) ∧
      (∃ text, last (logged env') = Some (LogError text e)).
Proof.
  intros Hfn. induction left as [|left IH]; intros attempt_no lastError env Hleft.
  - rewrite loop_step. unfold attempt. destruct (Hfn (inner env)) as (e & s' & Hrun).
    rewrite Hrun. rewrite decide_True by lia.
    eexists _, _. split; [reflexivity|]. cbn. split_and!.
    + lia.
    + by rewrite app_nil_r.
    + eauto.
    + rewrite last_snoc. eauto.
  - rewrite loop_step. unfold attempt. destruct (Hfn (inner env)) as (e & s' & Hrun).
    rewrite Hrun. rewrite decide_False by lia.
    edestruct (IH (attempt_no + 1) (Caught e)) as (e' & env' & Hloop & Hc & Hs & Hl & Hg);
      [lia|].
    rewrite Hloop. eexists _, _. split; [reflexivity|].
    rewrite Hc, Hs. cbn. split_and!.
    + lia.
    + rewrite <- app_assoc. f_equal. cbn. f_equal; [do 2 f_equal; lia|].
      rewrite <- seq_shift, map_map. apply map_ext. intros k. do 2 f_equal. lia.
    + exact Hl.
    + exact Hg.
Qed.

(** X26.  When the operation throws at every call, [retryWithBackoff]
    with [maxRetries >= 1] calls it exactly [maxRetries] times, waits
    [baseDelay], twice [baseDelay], four times [baseDelay], ... between the calls
    ([maxRetries - 1] waits, none after the last call), and throws the
    error of the last call, which is also the one it logs last. *)
Theorem retry_exhausted (maxRetries baseDelay : Z) (env : Env S) :
  always_throws fn →
  1 ≤ maxRetries →
  ∃ e env',
    retryWithBackoff fn maxRetries baseDelay env = (inr (Caught e), env') ∧
    calls env' = (calls env + Z.to_nat maxRetries)%nat ∧
    slept env' = (slept env ++ backoff baseDelay (Z.to_nat maxRetries - 1))%list ∧
    (∃ s, fn s = (Throw e, inner env')) ∧
    (∃ text, last (logged env') = Some (LogError text e)).
Proof.
  intros Hfn Hmax. unfold retryWithBackoff, backoff.
  destruct (Z.to_nat maxRetries) as [|left] eqn:Hleft; [lia|].
  destruct (loop_exhausted maxRetries baseDelay left Hfn 1 JsUndefined env)
    as (e & env' & Hloop & Hc & Hs & Hl & Hg); [lia|].
  exists e, env'. split; [exact Hloop|]. split; [exact Hc|]. split; [|by split].
  rewrite Hs. f_equal. replace (Datatypes.S left - 1)%nat with left by lia.
  apply map_ext. intros k. by replace (1 - 1 + Z.of_nat k) with (Z.of_nat k) by lia.
Qed.

(** X27.  [retryWithBackoff] returns the first result the operation
    gives: when the first call succeeds there is no second call, no wait
    and no log line.  With [maxRetries <= 0] the operation is never called
    and what is thrown is [undefined]. *)
Theorem retry_edges (maxRetries baseDelay : Z) (env : Env S) :
  (∀ a s',
     1 ≤ maxRetries →
     fn (inner env) = (Ok a, s') →
     retryWithBackoff fn maxRetries baseDelay env
     = (inl a, {| inner := s'; calls := Datatypes.S (calls env);
                  slept := slept env; logged := logged env |})) ∧
  (maxRetries ≤ 0 →
   retryWithBackoff fn maxRetries baseDelay env = (inr JsUndefined, env)).
Proof.
  split.
  - intros a s' Hmax Hrun. unfold retryWithBackoff.
    destruct (Z.to_nat maxRetries) as [|left] eqn:Hleft; [lia|].
    rewrite loop_step. unfold attempt. by rewrite Hrun.
  - intros Hmax. unfold retryWithBackoff.
    replace (Z.to_nat maxRetries) with O by lia. reflexivity.
Qed.

End RetryFacts.

Section RetryRuns.
Import Retry.

Lemma retry_exhausted_witness :
  ∃ e env',
    retryWithBackoff RetrySample.failing 3 1000 RetrySample.idle = (inr (Caught e), env') ∧
    calls env' = 3%nat ∧
    slept env' = [1000; 2000].
Proof.
  destruct (retry_exhausted RetrySample.failing 3 1000 RetrySample.idle) as (e & env' & Hrun & Hc & Hs & _).
  - intros s. by eexists _, _.
  - lia.
  - exists e, env'. split; [exact Hrun|]. split; [exact Hc|]. exact Hs.
Defined.

Lemma retry_edges_witness :
  retryWithBackoff RetrySample.failing 0 1000 RetrySample.idle = (inr JsUndefined, RetrySample.idle).
Proof.
  destruct (retry_edges RetrySample.failing 0 1000 RetrySample.idle) as (_ & H). apply H. lia.
Defined.

End RetryRuns.

Section ErrorReportFacts.
Import ErrorHandler ErrorReport.

Lemma prefix_app (t s : string) :
  String.prefix t s = true ↔ ∃ post, s = t ++ post.
Proof.
  revert s. induction t as [|a t IH]; intros s.
  - destruct s; simpl; split; eauto.
  - destruct s as [|b s]; simpl; [split; [done | by intros [? ?]]|].
    destruct (Ascii.ascii_dec a b) as [->|Hne].
    + split.
      * intros [post Hpost]%IH. exists post. by rewrite Hpost.
      * intros [post Hpost]. apply IH. exists post. by inversion Hpost.
    + split; [done|]. intros [post Hpost]. by inversion Hpost.
Qed.

Lemma includes_cons (a : Ascii.ascii) (s t : string) :
  JsString.includes (String a s) t
  = String.prefix t (String a s) || JsString.includes s t.
Proof. reflexivity. Qed.

Lemma includes_spec (s t : string) :
  JsString.includes s t = true ↔ ∃ pre post, s = pre ++ t ++ post.
Proof.
  induction s as [|a s IH]; [change (JsString.includes "" t) with (String.prefix t "" || false)
                            | rewrite includes_cons].
  - rewrite orb_false_r, prefix_app. split.
    + intros [post Hpost]. by exists "", post.
    + intros (pre & post & Hs). destruct pre; [by exists post|done].
  - rewrite orb_true_iff, prefix_app, IH. split.
    + intros [[post Hpost] | (pre & post & Hs)].
      * by exists "", post.
      * exists (String a pre), post. cbn. by rewrite Hs.
    + intros (pre & post & Hs). destruct pre as [|b pre].
      * left. by exists post.
      * right. exists pre, post. cbn in Hs. by inversion Hs.
Qed.

Lemma string_app_assoc' (a b c : string) : (a ++ b) ++ c = a ++ b ++ c.
Proof.
  induction a as [|x a IH]; [reflexivity|].
  change (String x ((a ++ b) ++ c) = String x (a ++ b ++ c)). by f_equal.
Qed.

Lemma includes_trans (s t u : string) :
  JsString.includes s t = true → JsString.includes t u = true →
  JsString.includes s u = true.
Proof.
  rewrite !includes_spec. intros (pre & post & ->) (pre' & post' & ->).
  exists (pre ++ pre'), (post' ++ post). by rewrite !string_app_assoc'.
Qed.

(** X28.  Without a code, a message is classified [AUTHORIZATION] only
    through the word 'permission': the word 'unauthorized', which the
    same test also looks for, contains 'auth' and is therefore always
    answered by the earlier [AUTHENTICATION] test (or one before it). *)
Theorem classifyError_unauthorized_is_shadowed (toLowerCase : string → string)
    (error : ErrorLike) :
  truthy_str (code error) = false →
  (classifyError toLowerCase JsString.includes error = Classified AUTHORIZATION →
   ∃ m, ErrorHandler.message error = Some m ∧
        JsString.includes (toLowerCase m) "permission" = true ∧
        JsString.includes (toLowerCase m) "unauthorized" = false) ∧
  (∀ m, ErrorHandler.message error = Some m →
        JsString.includes (toLowerCase m) "unauthorized" = true →
        classifyError toLowerCase JsString.includes error
        ∈ [Classified NETWORK; Classified VALIDATION; Classified AUTHENTICATION;
           Classified UNKNOWN]).
Proof.
  intros Hcode.
  assert (∀ m, JsString.includes (toLowerCase m) "unauthorized" = true →
               JsString.includes (toLowerCase m) "auth" = true) as Hauth.
  { intros m Hm. apply (includes_trans _ _ _ Hm). reflexivity. }
  unfold classifyError. rewrite Hcode. split.
  - destruct (truthy_str (ErrorHandler.message error)) eqn:Hmsg; [|done].
    destruct (ErrorHandler.message error) as [m|] eqn:Hm; [|done]. cbn [default from_option id].
    destruct (_ || _); [done|]. destruct (_ || _); [done|].
    destruct (JsString.includes (toLowerCase m) "auth") eqn:Ha; cbn [orb]; [done|].
    destruct (JsString.includes (toLowerCase m) "login"); [done|].
    destruct (JsString.includes (toLowerCase m) "unauthorized") eqn:Hu.
    { apply Hauth in Hu. congruence. }
    rewrite orb_false_r.
    destruct (JsString.includes (toLowerCase m) "permission") eqn:Hp.
    + intros _. by exists m.
    + by destruct (_ || _).
  - intros m Hm Hu. rewrite Hm. cbn [default from_option id].
    destruct (truthy_str (Some m)); [|set_solver].
    destruct (_ || _); [set_solver|]. destruct (_ || _); [set_solver|].
    rewrite (Hauth m Hu). cbn [orb]. set_solver.
Qed.

Lemma classifyError_unauthorized_is_shadowed_witness :
  classifyError ErrorSample.toLowerCase JsString.includes ErrorSample.unauthorized
  ∈ [Classified NETWORK; Classified VALIDATION; Classified AUTHENTICATION;
     Classified UNKNOWN].
Proof.
  destruct (classifyError_unauthorized_is_shadowed ErrorSample.toLowerCase
              ErrorSample.unauthorized) as (_ & H); [reflexivity|].
  apply (H "Unauthorized request"); [reflexivity | vm_compute; reflexivity].
Defined.

Lemma truthy_str_nonempty (m : string) : truthy_str (Some m) = true → m ≠ "".
Proof. intros H ->. discriminate H. Qed.

(** X29.  [getUserFriendlyMessage] never answers the empty string:
    it answers one of its four fixed texts or the error's own, non-empty
    message.  While the browser is offline it answers the connection text
    for every error. *)
Theorem getUserFriendlyMessage_never_empty (onLine : bool) (error : ErrorLike) :
  getUserFriendlyMessage onLine error ≠ "" ∧
  (getUserFriendlyMessage onLine error
   ∈ [msg_network; msg_login; msg_permission; msg_unexpected] ∨
   ErrorHandler.message error = Some (getUserFriendlyMessage onLine error)) ∧
  (onLine = false → getUserFriendlyMessage onLine error = msg_network).
Proof.
  split_and!.
  - unfold getUserFriendlyMessage, str_or.
    repeat (match goal with |- context [if ?b then _ else _] => destruct b eqn:? end);
      try discriminate.
    destruct (ErrorHandler.message error) as [m|]; [|done]. by apply truthy_str_nonempty.
  - unfold getUserFriendlyMessage, str_or.
    repeat (match goal with |- context [if ?b then _ else _] => destruct b eqn:? end);
      try (left; set_solver).
    destruct (ErrorHandler.message error) as [m|]; [by right | done].
  - intros ->. unfold getUserFriendlyMessage, isNetworkError.
    by rewrite orb_true_r.
Qed.

Lemma getUserFriendlyMessage_never_empty_witness :
  getUserFriendlyMessage false ErrorSample.denied = msg_network.
Proof.
  destruct (getUserFriendlyMessage_never_empty false ErrorSample.denied) as (_ & _ & H).
  apply H. reflexivity.
Defined.

Lemma error_keeps_mode (message : string) (data : option Payload)
    (source : option string) (g : Logger.t Payload) :
  Logger.DEV (Logger.error truthy message data source g) = Logger.DEV g ∧
  Logger.logLevel (Logger.error truthy message data source g) = Logger.logLevel g.
Proof. unfold Logger.error. by destruct (Logger.shouldLog _ _). Qed.

(** X30.  On a logger that still has the level it was constructed with,
    [handleGlobalError] leaves exactly what its one call of [logger.error]
    leaves: the notice for the tracking service is only attempted in
    production, at level INFO, where the logger's level is WARN, so it is
    never recorded.  The message handed back is never empty. *)
Theorem handleGlobalError_logs_the_error_only (toLowerCase : string → string)
    (error : ErrorLike) (errorInfo : option string) (g : Logger.t Payload) :
  Logger.logLevel g = (if Logger.DEV g then Logger.DEBUG else Logger.WARN) →
  snd (handleGlobalError toLowerCase error errorInfo g)
  = Logger.error truthy "Application Error" (Some (Report error errorInfo))
      (Some "GlobalErrorHandler") g ∧
  message (fst (handleGlobalError toLowerCase error errorInfo g)) ≠ "".
Proof.
  intros Hlevel. unfold handleGlobalError. cbn [fst snd message]. split.
  - destruct (error_keeps_mode "Application Error" (Some (Report error errorInfo))
                (Some "GlobalErrorHandler") g) as [Hdev Hlvl].
    rewrite Hdev. destruct (Logger.DEV g) eqn:Hd; cbn [negb andb]; [done|].
    destruct (truthy_str errorInfo); [|done].
    unfold Logger.info at 1. unfold Logger.shouldLog. rewrite Hlvl, Hlevel.
    by rewrite bool_decide_false by (cbn; lia).
  - unfold str_or. destruct (truthy_str (ErrorHandler.message error)) eqn:Hm; [|done].
    destruct (ErrorHandler.message error) as [m|]; [|done]. by apply truthy_str_nonempty.
Qed.

Lemma handleGlobalError_logs_the_error_only_witness :
  length (Logger.logs (snd (handleGlobalError ErrorSample.toLowerCase ErrorSample.denied
                              (Some "at SalaryTable") ErrorSample.prod)))
  = 1%nat.
Proof.
  destruct (handleGlobalError_logs_the_error_only ErrorSample.toLowerCase
              ErrorSample.denied (Some "at SalaryTable") ErrorSample.prod) as [H _];
    [reflexivity|].
  rewrite H. reflexivity.
Defined.

End ErrorReportFacts.
